(** * SVG/PNG converter: the rendering and export pipeline of svg_converter.py

    A shallow embedding of the pure geometry (zoom, padding, centring), of the
    Pillow image operations the program calls, and of the export functions as
    state-passing programs over a file system and a log of rasterizer calls.

    Conventions.
    - Python [int] is [Z]; Python [float] is idealised as the exact
      rationals [Q], so a product or quotient carries no rounding error;
      [int(x)] truncates towards zero.
    - Paths are POSIX paths, split at [/]; [stem], [suffix], [with_stem] are
      those of pathlib, [with_name] raising on a path without a name.
    - [Image.save] is that of Pillow: the destination is opened for writing,
      which empties a file that exists, before the encoder runs; when the
      encoder fails, a file the call created is removed again.
    - A Pillow image is its mode, its size and its pixel access function.
    - What Pillow, CairoSVG and the operating system compute internally
      (resampling, blending, decoding, which encodings succeed) is a
      parameter of the development, class [Backend]. *)

From Stdlib Require Import ZArith QArith Qround Ascii.
From stdpp Require Import base numbers option list strings gmap pretty.

Local Open Scope Z_scope.

(** ** Python numerics *)

Module Py.

(** [int(x)] on a float: truncation towards zero. *)
Definition int (x : Q) : Z := Z.quot (Qnum x) (Zpos (Qden x)).

(** [max(a, b)]: the first argument unless a later one is strictly larger. *)
Definition max (a b : Q) : Q := if Qlt_le_dec a b then b else a.

(** [min(a, b)]: the first argument unless a later one is strictly smaller. *)
Definition min (a b : Q) : Q := if Qlt_le_dec b a then b else a.

(** [min(a, b, c)] scans left to right. *)
Definition min3 (a b c : Q) : Q := min (min a b) c.

(** [x < y] on floats, as a boolean. *)
Definition ltb (x y : Q) : bool := if Qlt_le_dec x y then true else false.

End Py.

(** ** Pillow images *)

Inductive Mode := M1 | ML | MLA | MP | MRGB | MRGBA | MCMYK.

#[global] Instance Mode_eq_dec : EqDecision Mode.
Proof. solve_decision. Defined.

(** Four 8-bit bands; a mode reads the bands it has. *)
Definition Pixel : Type := Z * Z * Z * Z.

Record Image := mkImage {
  mode : Mode;
  width : N;
  height : N;
  getpixel : Z -> Z -> Pixel
}.

(** [img.size] *)
Definition img_size (img : Image) : N * N := (width img, height img).

Record QColor := mkQColor { red : Z; green : Z; blue : Z; alpha : Z }.

Definition QColor_white : QColor := mkQColor 255 255 255 255.

Inductive Exn :=
| ZeroDivisionError
| ValueError (msg : string)
| OSError (msg : string)
| FileExistsError
| NotADirectoryError
| IsADirectoryError
| RuntimeError (msg : string)
| OutOfFuel.

Inductive Result (A : Type) :=
| Ok (a : A)
| Raise (e : Exn).
Arguments Ok {A} a.
Arguments Raise {A} e.

(** What the libraries and the platform provide. *)
Class Backend := {
  (** [cairosvg.svg2png(url, output_width, output_height, background_color)]
      followed by [Image.open] and [load] of the bytes. *)
  svg2png : string -> Z -> Z -> option (Z * Z * Z) -> Result Image;
  (** [Image.open(path)] of a source file; the sources are not among the
      files an export writes. *)
  image_open : string -> Result Image;
  (** per-pixel mode conversion of [Image.convert] *)
  convert_px : Mode -> Mode -> Pixel -> Pixel;
  (** pixel content of [Image.resize(size, LANCZOS)] *)
  resample : Image -> N * N -> Z -> Z -> Pixel;
  (** [paste] with a mask: mask value, destination pixel, source pixel *)
  blend : Z -> Pixel -> Pixel -> Pixel;
  (** [alpha_composite]: destination pixel, source pixel *)
  over : Pixel -> Pixel -> Pixel;
  (** whether Pillow's encoder for a format accepts the image *)
  can_encode : string -> Image -> bool;
  (** Pillow's table from file extension to format *)
  registered_extension : string -> option string;
  (** [platform.system()] *)
  platform_system : string;
  (** [iconutil -c icns iconset -o out]: return code and stderr *)
  iconutil : list (string * Image) -> Z * string
}.

Section Pillow.
Context `{B : Backend}.

(** [Image.new(mode, size, color)] *)
Definition Image_new (m : Mode) (sz : N * N) (color : Pixel) : Image :=
  mkImage m (fst sz) (snd sz) (fun _ _ => color).

(** [img.convert(mode)]: a copy when the mode is already [m]. *)
Definition convert (m : Mode) (img : Image) : Image :=
  if decide (mode img = m) then img
  else mkImage m (width img) (height img)
         (fun x y => convert_px (mode img) m (getpixel img x y)).

(** [img.resize(size, LANCZOS_RESAMPLE)] *)
Definition resize (img : Image) (sz : N * N) : Image :=
  mkImage (mode img) (fst sz) (snd sz) (resample img sz).

(** [img.split()[3]]: the alpha band as an L image. *)
Definition split3 (img : Image) : Image :=
  mkImage ML (width img) (height img)
    (fun x y => let '(_, _, _, a) := getpixel img x y in (a, 0, 0, 0)).

Definition band0 (p : Pixel) : Z := let '(v, _, _, _) := p in v.

(** The pixels [(x, y)] covered by an image of size [w x h] put at [(cx, cy)]. *)
Definition in_box (cx cy : Z) (w h : N) (x y : Z) : bool :=
  (cx <=? x) && (x <? cx + Z.of_N w) && (cy <=? y) && (y <? cy + Z.of_N h).

(** [canvas.paste(im, (cx, cy), mask=mask)]; the canvas is updated in
    place, the model returns the updated canvas. *)
Definition paste (canvas im : Image) (box : Z * Z) (mask : option Image) : Image :=
  let '(cx, cy) := box in
  mkImage (mode canvas) (width canvas) (height canvas)
    (fun x y =>
       if in_box cx cy (width im) (height im) x y then
         match mask with
         | None => getpixel (convert (mode canvas) im) (x - cx) (y - cy)
         | Some m => blend (band0 (getpixel m (x - cx) (y - cy)))
                       (getpixel canvas x y) (getpixel im (x - cx) (y - cy))
         end
       else getpixel canvas x y).

(** [canvas.alpha_composite(im, (cx, cy))]: the overlay is composited over
    the region of the canvas it covers. *)
Definition alpha_composite (canvas im : Image) (dest : Z * Z) : Image :=
  let '(cx, cy) := dest in
  mkImage (mode canvas) (width canvas) (height canvas)
    (fun x y =>
       if in_box cx cy (width im) (height im) x y then
         over (getpixel canvas x y) (getpixel im (x - cx) (y - cy))
       else getpixel canvas x y).

(** ** Utilities of the program *)

Definition qcolor_to_rgba_tuple (c : QColor) : Pixel :=
  (red c, green c, blue c, alpha c).

(** [bg_rgba[:3]] as the fill colour of an RGB image. *)
Definition rgb_of (bg_rgba : Pixel) : Pixel :=
  let '(r, g, b, _) := bg_rgba in (r, g, b, 255).

Definition pillow_flatten (img : Image) (bg_rgba : Pixel) : Image :=
  if negb (bool_decide (mode img = MRGBA)) then convert MRGB img
  else
    let bg_rgb := rgb_of bg_rgba in
    let bg := Image_new MRGB (img_size img) bg_rgb in
    let img_rgb := convert MRGB img in
    paste bg img_rgb (0, 0) (Some (split3 img)).

End Pillow.

(** ** Strings and paths *)

Module Str.

(** [s.lower()] on ASCII text. *)
Definition lower_char (c : ascii) : ascii :=
  let n := Ascii.N_of_ascii c in
  if ((65 <=? n) && (n <=? 90))%N then Ascii.ascii_of_N (n + 32) else c.

Fixpoint lower (s : string) : string :=
  match s with
  | EmptyString => EmptyString
  | String c s' => String (lower_char c) (lower s')
  end.

(** [s[:n]] and [s[n:]] *)
Fixpoint take (n : nat) (s : string) : string :=
  match n, s with
  | S n', String c s' => String c (take n' s')
  | _, _ => EmptyString
  end.

Fixpoint drop (n : nat) (s : string) : string :=
  match n, s with
  | S n', String c s' => drop n' s'
  | _, _ => s
  end.

(** [s.rfind('.')], [None] for -1 *)
Fixpoint rfind_dot (s : string) : option nat :=
  match s with
  | EmptyString => None
  | String c s' =>
      match rfind_dot s' with
      | Some i => Some (S i)
      | None => if decide (c = "."%char) then Some 0%nat else None
      end
  end.

(** [s.endswith(t)] *)
Definition endswith (s t : string) : bool :=
  bool_decide (drop (String.length s - String.length t) s = t).

End Str.

(** A path is the list of its components; [p / c] appends one. *)
Abbreviation Path := (list string).

Module PurePath.

Definition joinpath (p : Path) (c : string) : Path := p ++ [c].

Definition name (p : Path) : string := default EmptyString (last p).

(** The index at which the last suffix starts, if the name has one:
    [0 < i < len(name) - 1]. *)
Definition suffix_index (nm : string) : option nat :=
  match Str.rfind_dot nm with
  | Some i =>
      if bool_decide (0 < i)%nat && bool_decide (i < String.length nm - 1)%nat
      then Some i else None
  | None => None
  end.

Definition suffix (p : Path) : string :=
  match suffix_index (name p) with
  | Some i => Str.drop i (name p)
  | None => EmptyString
  end.

Definition stem (p : Path) : string :=
  match suffix_index (name p) with
  | Some i => Str.take i (name p)
  | None => name p
  end.

(** [p.with_name(nm)]: a path without a name has none to replace, and the
    new name may not be empty. *)
Definition with_name (p : Path) (nm : string) : Result Path :=
  if bool_decide (name p = EmptyString) then Raise (ValueError "path has an empty name")
  else if bool_decide (nm = EmptyString) then Raise (ValueError "Invalid name")
  else Ok (removelast p ++ [nm]).

Definition with_stem (p : Path) (st : string) : Result Path := with_name p (st +:+ suffix p).

End PurePath.

Infix "//" := PurePath.joinpath (at level 40, left associativity).

(** ** The world an export runs in *)

(** What a file holds: the image handed to an encoder with its format and
    the [sizes] argument, the bundle written by iconutil, or nothing at all
    (a file that was opened for writing and never filled). *)
Inductive Artifact :=
| Encoded (format : string) (img : Image) (sizes : list (Z * Z))
| IconBundle (frames : list (string * Image))
| Truncated.

Inductive Node :=
| Dir
| File (a : Artifact).

Record RasterCall := mkRasterCall {
  rc_url : string;
  rc_width : Z;
  rc_height : Z;
  rc_background : option (Z * Z * Z)
}.

(** The file system, the rasterizer invocations so far and the files
    written so far, oldest first. *)
Record World := mkWorld {
  fs : gmap Path Node;
  raster_log : list RasterCall;
  written : list (Path * Artifact)
}.

(** State passing with exceptions; the state reached so far survives a raise. *)
Definition M (A : Type) : Type := World -> Result A * World.

#[global] Instance M_ret : MRet M := fun A a w => (Ok a, w).

#[global] Instance M_bind : MBind M := fun A B f m w =>
  match m w with
  | (Ok a, w') => f a w'
  | (Raise e, w') => (Raise e, w')
  end.

Definition raise {A} (e : Exn) : M A := fun w => (Raise e, w).

(** [try: m except Exception as e: handler e]; running out of fuel is not
    an exception of the program and is not caught. *)
Definition try_except {A} (m : M A) (handler : Exn -> M A) : M A := fun w =>
  match m w with
  | (Raise OutOfFuel, w') => (Raise OutOfFuel, w')
  | (Raise e, w') => handler e w'
  | r => r
  end.

(** [for x in l: body x] *)
Fixpoint for_each {A} (l : list A) (body : A -> M unit) : M unit :=
  match l with
  | [] => mret tt
  | x :: l' => body x ≫= fun _ => for_each l' body
  end.

(** [max(l)] on a list of ints *)
Definition list_max (l : list Z) : Z :=
  match l with
  | [] => 0
  | x :: l' => foldl Z.max x l'
  end.

Definition py_max_list (l : list Z) : M Z :=
  match l with
  | [] => raise (ValueError "max() arg is an empty sequence")
  | _ => mret (list_max l)
  end.

(** [path.exists()] *)
Definition path_exists (files : gmap Path Node) (p : Path) : bool :=
  bool_decide (is_Some (files !! p)).

(** [path.mkdir(parents=True, exist_ok=True)]: walk down from the root and
    create what is missing. *)
Fixpoint mkdir_go (done : Path) (todo : list string) (files : gmap Path Node)
  : Result (gmap Path Node) :=
  match todo with
  | [] => Ok files
  | c :: todo' =>
      let p := done // c in
      match files !! p with
      | Some Dir => mkdir_go p todo' files
      | Some (File _) =>
          Raise (match todo' with [] => FileExistsError | _ => NotADirectoryError end)
      | None => mkdir_go p todo' (<[p := Dir]> files)
      end
  end.

Definition mkdir (p : Path) : M unit := fun w =>
  match mkdir_go [] p (fs w) with
  | Ok files => (Ok tt, mkWorld files (raster_log w) (written w))
  | Raise e => (Raise e, w)
  end.

(** The loop of [unique_path]; [fuel] bounds the number of iterations. *)
Fixpoint unique_path_loop (fuel : nat) (files : gmap Path Node)
    (path : Path) (counter : N) (new_path : Path) : Result Path :=
  if path_exists files new_path then
    match fuel with
    | O => Raise OutOfFuel
    | S fuel' =>
        match PurePath.with_stem path (PurePath.stem path +:+ "_" +:+ pretty counter) with
        | Ok new_path' => unique_path_loop fuel' files path (counter + 1) new_path'
        | Raise e => Raise e
        end
    end
  else Ok new_path.

(** [unique_path(path)]: as many iterations as there are entries, plus one. *)
Definition unique_path (path : Path) : M Path := fun w =>
  (unique_path_loop (S (size (fs w))) (fs w) path 1 path, w).

(** [x in (a, b, c)] on strings *)
Definition in_tuple (x : string) (l : list string) : bool := bool_decide (x ∈ l).

(** ** Presets *)

Definition WINDOWS_ICO_SIZES : list Z := [16; 24; 32; 48; 64; 128; 256].
Definition MAC_ICON_SIZES : list Z := [16; 32; 64; 128; 256; 512; 1024].
Definition LINUX_ICON_SIZES : list Z := [16; 22; 24; 32; 48; 64; 96; 128; 256; 512].
Definition ANDROID_ICON_SIZES : list Z := [48; 72; 96; 144; 192; 512].
Definition IOS_ICON_SIZES : list Z := [60; 76; 120; 152; 167; 180; 1024].

(** [QSize(w, h)] is the pair [(w, h)]. *)
Definition DESKTOP_WALLPAPERS : list (Z * Z) :=
  [(1280, 720); (1920, 1080); (2560, 1440); (3840, 2160)].
Definition PHONE_WALLPAPERS : list (Z * Z) :=
  [(750, 1334); (1080, 1920); (1170, 2532); (1440, 3040)].
Definition TABLET_PORTRAIT_WALLPAPERS : list (Z * Z) :=
  [(1536, 2048); (1668, 2388); (1600, 2560)].
Definition TABLET_LANDSCAPE_WALLPAPERS : list (Z * Z) :=
  [(2048, 1536); (2388, 1668); (2560, 1600)].

Section Converter.
Context `{B : Backend}.

(** *** Library calls that touch the world *)

(** [cairosvg.svg2png(...)] then [Image.open(...)], [content.load()]; every
    invocation is recorded. *)
Definition cairosvg_svg2png (url : string) (output_width output_height : Z)
    (background_color : option (Z * Z * Z)) : M Image := fun w =>
  (svg2png url output_width output_height background_color,
   mkWorld (fs w)
     (raster_log w ++ [mkRasterCall url output_width output_height background_color])
     (written w)).

Definition lift {A} (r : Result A) : M A := fun w => (r, w).

(** [img.resize((w, h), LANCZOS_RESAMPLE)]; Pillow refuses sizes below 1. *)
Definition Image_resize (img : Image) (sz : Z * Z) : Result Image :=
  if (sz.1 <? 1) || (sz.2 <? 1) then Raise (ValueError "height and width must be > 0")
  else Ok (resize img (Z.to_N sz.1, Z.to_N sz.2)).

(** [img.save(path)], [img.save(path, format)], [img.save(path, format=.., sizes=..)]:
    the format is the one given or the one registered for the extension;
    the destination is opened with mode [w+b], which empties a file that
    is there; then the image is encoded. When the encoder raises, a file
    that the call created is removed again, a file that was there before
    stays, empty. *)
Definition Image_save (img : Image) (path : Path) (format : option string)
    (sizes : list (Z * Z)) : M unit := fun w =>
  match (match format with
         | Some f => Some f
         | None => registered_extension (Str.lower (PurePath.suffix path))
         end) with
  | None => (Raise (ValueError "unknown file extension"), w)
  | Some f =>
      match fs w !! path with
      | Some Dir => (Raise IsADirectoryError, w)
      | existing =>
          if can_encode f img
          then (Ok tt, mkWorld (<[path := File (Encoded f img sizes)]> (fs w)) (raster_log w)
                        (written w ++ [(path, Encoded f img sizes)]))
          else (Raise (OSError "cannot write image"),
                match existing with
                | Some _ => mkWorld (<[path := File Truncated]> (fs w)) (raster_log w)
                              (written w)
                | None => w
                end)
      end
  end.

(** The PNG files found in a directory, as iconutil reads them. *)
Definition iconset_frames (files : gmap Path Node) (iconset : Path) : list (string * Image) :=
  omap (fun '(p, n) =>
          match n with
          | File (Encoded _ img _) =>
              if bool_decide (removelast p = iconset) then Some (PurePath.name p, img) else None
          | _ => None
          end) (map_to_list files).

(** [subprocess.run(["iconutil", "-c", "icns", iconset, "-o", icns_path])]:
    the pair of return code and stderr; the bundle is written on success. *)
Definition run_iconutil (iconset icns_path : Path) : M (Z * string) := fun w =>
  let frames := iconset_frames (fs w) iconset in
  let proc := iconutil frames in
  (Ok proc,
   if proc.1 =? 0
   then mkWorld (<[icns_path := File (IconBundle frames)]> (fs w)) (raster_log w)
          (written w ++ [(icns_path, IconBundle frames)])
   else w).

(** *** Rendering *)

(** Lines 129-134: the safety re-clamp of the rendered content. *)
Definition fit_work_area (work_w work_h : Z) (content : Image) : M Image :=
  let cw := Z.of_N (width content) in
  let ch := Z.of_N (height content) in
  if (cw =? 0) || (ch =? 0) then raise ZeroDivisionError
  else
    let scale := Py.min3 (inject_Z work_w / inject_Z cw) (inject_Z work_h / inject_Z ch) 1 in
    if Py.ltb scale 1 then
      let new_size := (Z.max 1 (Py.int (inject_Z cw * scale)),
                       Z.max 1 (Py.int (inject_Z ch * scale))) in
      lift (Image_resize content new_size)
    else mret content.

(** Lines 136-157: the canvas and the centred composite. Both canvas sides
    are at least 1. *)
Definition composite_canvas (transparent : bool) (bg : QColor)
    (canvas_w canvas_h : Z) (content : Image) : Image :=
  if transparent then
    let canvas := Image_new MRGBA (Z.to_N canvas_w, Z.to_N canvas_h) (0, 0, 0, 0) in
    let cx := (canvas_w - Z.of_N (width content)) `div` 2 in
    let cy := (canvas_h - Z.of_N (height content)) `div` 2 in
    if bool_decide (mode canvas = MRGBA) && bool_decide (mode content = MRGBA)
    then alpha_composite canvas content (cx, cy)
    else paste canvas content (cx, cy) None
  else
    let canvas := Image_new MRGB (Z.to_N canvas_w, Z.to_N canvas_h)
                    (red bg, green bg, blue bg, 255) in
    let cx := (canvas_w - Z.of_N (width content)) `div` 2 in
    let cy := (canvas_h - Z.of_N (height content)) `div` 2 in
    if bool_decide (mode content = MRGBA)
    then paste canvas (convert MRGB content) (cx, cy) (Some (split3 content))
    else paste canvas content (cx, cy) None.

Definition clamp_zoom (zoom : Q) : Q := Py.max (1 # 10) (Py.min 1 zoom).

Definition render_svg_to_pillow (svg_path : string) (width height : Z) (zoom : Q)
    (padding : Z) (transparent : bool) (bg_color : option QColor) : M Image :=
  let bg := default QColor_white bg_color in
  let zoom := clamp_zoom zoom in
  let canvas_w := Z.max 1 width in
  let canvas_h := Z.max 1 height in
  let work_w := Z.max 1 (canvas_w - 2 * padding) in
  let work_h := Z.max 1 (canvas_h - 2 * padding) in
  let render_w := Py.int (Py.max 1 (inject_Z work_w * zoom)) in
  let render_h := Py.int (Py.max 1 (inject_Z work_h * zoom)) in
  content ← cairosvg_svg2png svg_path render_w render_h
              (if transparent then None else Some (red bg, green bg, blue bg));
  let content := convert (if transparent then MRGBA else MRGB) content in
  content ← fit_work_area work_w work_h content;
  mret (composite_canvas transparent bg canvas_w canvas_h content).

End Converter.

Module StrMore.

Fixpoint lstrip (s : string) : string :=
  match s with
  | String c s' => if Ascii.is_space c then lstrip s' else s
  | EmptyString => EmptyString
  end.

(** [s.strip()] *)
Definition strip (s : string) : string :=
  String.rev (lstrip (String.rev (lstrip s))).

(** The components of a path written with [/]. *)
Fixpoint split_go (cur : string) (s : string) : list string :=
  match s with
  | EmptyString => if decide (cur = EmptyString) then [] else [String.rev cur]
  | String c s' =>
      if decide (c = "/"%char)
      then (if decide (cur = EmptyString) then [] else [String.rev cur]) ++ split_go EmptyString s'
      else split_go (String c cur) s'
  end.

(** [Path(s)] *)
Definition to_path (s : string) : Path := split_go EmptyString s.

End StrMore.

(** ** Exports *)

(** A value passed as keyword argument. *)
Inductive KwValue := KwFloat (q : Q) | KwInt (z : Z) | KwBool (b : bool) | KwColor (c : QColor).

Section Exports.
Context `{B : Backend}.

Definition save_windows_ico (svg_path : string) (out_dir : Path) (sizes : list Z)
    (transparent : bool) (zoom : Q) (padding : Z) (bg : QColor) : M unit :=
  mkdir out_dir;;
  base ← py_max_list sizes;
  src ← render_svg_to_pillow svg_path base base zoom padding transparent (Some bg);
  let src :=
    if negb transparent then
      if negb (bool_decide (mode src = MRGB)) then convert MRGB src else src
    else src in
  ico_path ← unique_path (out_dir // "icon.ico");
  Image_save src ico_path (Some "ICO") (map (fun s => (s, s)) sizes).

Definition save_macos_icns (svg_path : string) (out_dir : Path) (sizes_for_check : list Z)
    (transparent : bool) (zoom : Q) (padding : Z) (bg : QColor) : M unit :=
  mkdir out_dir;;
  base ← py_max_list sizes_for_check;
  src ← render_svg_to_pillow svg_path base base zoom padding transparent (Some bg);
  let src := if negb transparent then pillow_flatten src (qcolor_to_rgba_tuple bg) else src in
  icns_path ← unique_path (out_dir // "icon.icns");
  try_except (Image_save src icns_path (Some "ICNS") [])
    (fun e =>
       if bool_decide (platform_system = "Darwin") then
         let iconset := out_dir // "icon.iconset" in
         mkdir iconset;;
         for_each sizes_for_check (fun s =>
           img ← render_svg_to_pillow svg_path s s zoom padding transparent (Some bg);
           Image_save img
             (iconset // ("icon_" +:+ pretty s +:+ "x" +:+ pretty s +:+ ".png")) None []);;
         proc ← run_iconutil iconset icns_path;
         if negb (proc.1 =? 0)
         then raise (RuntimeError ("ICNS export failed (Pillow + iconutil): "
                                   +:+ StrMore.strip proc.2))
         else mret tt
       else raise e).

Definition save_png_set (svg_path : string) (out_dir : Path) (label name : string)
    (sizes : list Z) (transparent : bool) (zoom : Q) (padding : Z) (bg : QColor)
    (fmt : string) : M unit :=
  let fmt := Str.lower fmt in
  let base := out_dir // label // name in
  mkdir base;;
  for_each sizes (fun s =>
    img ← render_svg_to_pillow svg_path s s zoom padding transparent (Some bg);
    let img :=
      if in_tuple fmt ["jpg"; "jpeg"; "bmp"] || negb transparent
      then pillow_flatten img (qcolor_to_rgba_tuple bg) else img in
    Image_save img
      (base // (name +:+ "_" +:+ pretty s +:+ "x" +:+ pretty s +:+ "." +:+ fmt)) None []).

Definition save_wallpapers (svg_path : string) (out_dir : Path) (label name : string)
    (sizes : list (Z * Z)) (transparent : bool) (zoom : Q) (padding : Z) (bg : QColor)
    (fmt : string) : M unit :=
  let fmt := Str.lower fmt in
  let base := out_dir // "wallpapers" // label // name in
  mkdir base;;
  for_each sizes (fun sz =>
    img ← render_svg_to_pillow svg_path sz.1 sz.2 zoom padding transparent (Some bg);
    let img :=
      if in_tuple fmt ["jpg"; "jpeg"; "bmp"] || negb transparent
      then pillow_flatten img (qcolor_to_rgba_tuple bg) else img in
    Image_save img
      (base // (name +:+ "_" +:+ pretty sz.1 +:+ "x" +:+ pretty sz.2 +:+ "." +:+ fmt))
      None []).

Definition save_custom (svg_path : string) (out_dir : Path) (name : string) (w h : Z)
    (fmt : string) (transparent : bool) (zoom : Q) (padding : Z) (bg : QColor) : M unit :=
  mkdir out_dir;;
  img ← render_svg_to_pillow svg_path w h zoom padding transparent (Some bg);
  let fmt := Str.lower fmt in
  out ← unique_path (out_dir // (name +:+ "_" +:+ pretty w +:+ "x" +:+ pretty h +:+ "." +:+ fmt));
  if bool_decide (fmt = "pdf") then
    let img := pillow_flatten img (qcolor_to_rgba_tuple bg) in
    Image_save (convert MRGB img) out (Some "PDF") []
  else
    let img :=
      if in_tuple fmt ["jpg"; "jpeg"; "bmp"] || negb transparent
      then pillow_flatten img (qcolor_to_rgba_tuple bg) else img in
    Image_save img out None [].

(** *** The raster-source functions local to [on_create] *)



Definition png_render_to_pillow (path : string) (width height : Z)
    (kwargs : list (string * KwValue)) : M Image :=
  img ← lift (image_open path);
  let img := convert MRGBA img in
  lift (Image_resize img (width, height)).

Definition save_custom_png (src_path : string) (out_dir : Path) (name : string) (w h : Z)
    (fmt : string) (transparent : bool) (zoom : Q) (padding : Z) (bg : QColor) : M unit :=
  mkdir out_dir;;
  img ← png_render_to_pillow src_path w h [];
  out ← unique_path (out_dir // (name +:+ "_" +:+ pretty w +:+ "x" +:+ pretty h +:+ "." +:+ fmt));
  if bool_decide (fmt = "pdf") then
    let img := pillow_flatten img (qcolor_to_rgba_tuple bg) in
    Image_save (convert MRGB img) out (Some "PDF") []
  else
    let img :=
      if in_tuple fmt ["jpg"; "jpeg"; "bmp"] || negb transparent
      then pillow_flatten img (qcolor_to_rgba_tuple bg) else img in
    Image_save img out None [].

Definition save_windows_ico_png (src_path : string) (out_dir : Path) (sizes : list Z)
    (transparent : bool) (zoom : Q) (padding : Z) (bg : QColor) : M unit :=
  mkdir out_dir;;
  base ← py_max_list sizes;
  src ← png_render_to_pillow src_path base base [];
  let src :=
    if negb transparent then
      if negb (bool_decide (mode src = MRGB)) then convert MRGB src else src
    else src in
  ico_path ← unique_path (out_dir // "icon.ico");
  Image_save src ico_path (Some "ICO") (map (fun s => (s, s)) sizes).

Definition save_macos_icns_png (src_path : string) (out_dir : Path)
    (sizes_for_check : list Z) (transparent : bool) (zoom : Q) (padding : Z)
    (bg : QColor) : M unit :=
  mkdir out_dir;;
  base ← py_max_list sizes_for_check;
  src ← png_render_to_pillow src_path base base [];
  let src := if negb transparent then pillow_flatten src (qcolor_to_rgba_tuple bg) else src in
  icns_path ← unique_path (out_dir // "icon.icns");
  try_except (Image_save src icns_path (Some "ICNS") [])
    (fun e =>
       if bool_decide (platform_system = "Darwin") then
         let iconset := out_dir // "icon.iconset" in
         mkdir iconset;;
         for_each sizes_for_check (fun s =>
           img ← png_render_to_pillow src_path s s [];
           Image_save img
             (iconset // ("icon_" +:+ pretty s +:+ "x" +:+ pretty s +:+ ".png")) None []);;
         proc ← run_iconutil iconset icns_path;
         if negb (proc.1 =? 0)
         then raise (RuntimeError ("ICNS export failed (Pillow + iconutil): "
                                   +:+ StrMore.strip proc.2))
         else mret tt
       else raise e).

Definition save_png_set_png (src_path : string) (out_dir : Path) (label name : string)
    (sizes : list Z) (transparent : bool) (zoom : Q) (padding : Z) (bg : QColor)
    (fmt : string) : M unit :=
  let fmt := Str.lower fmt in
  let base := out_dir // label // name in
  mkdir base;;
  for_each sizes (fun s =>
    img ← png_render_to_pillow src_path s s [];
    let img :=
      if in_tuple fmt ["jpg"; "jpeg"; "bmp"] || negb transparent
      then pillow_flatten img (qcolor_to_rgba_tuple bg) else img in
    Image_save img
      (base // (name +:+ "_" +:+ pretty s +:+ "x" +:+ pretty s +:+ "." +:+ fmt)) None []).

Definition save_wallpapers_png (src_path : string) (out_dir : Path) (label name : string)
    (sizes : list (Z * Z)) (transparent : bool) (zoom : Q) (padding : Z) (bg : QColor)
    (fmt : string) : M unit :=
  let fmt := Str.lower fmt in
  let base := out_dir // "wallpapers" // label // name in
  mkdir base;;
  for_each sizes (fun sz =>
    img ← png_render_to_pillow src_path sz.1 sz.2 [];
    let img :=
      if in_tuple fmt ["jpg"; "jpeg"; "bmp"] || negb transparent
      then pillow_flatten img (qcolor_to_rgba_tuple bg) else img in
    Image_save img
      (base // (name +:+ "_" +:+ pretty sz.1 +:+ "x" +:+ pretty sz.2 +:+ "." +:+ fmt))
      None []).

End Exports.

(** ** The form and its two actions *)

(** The state of the widgets read by [update_preview] and [on_create];
    [chosen_dir] is the answer of the directory chooser. *)
Record Form := mkForm {
  svg_path : option string;
  chosen_dir : option Path;
  profileCombo : string;
  formatCombo : string;
  widthSpin : Z;
  heightSpin : Z;
  zoomSlider : Z;
  paddingSpin : Z;
  transparentBg : bool;
  bgColor : QColor
}.

Inductive Dialog :=
| Warning (title text : string)
| Information (title text : string)
| Critical (title : string) (e : Exn)
| NoDialog.

Inductive Preview :=
| PreviewText (text : string)
| PreviewPixmap (pil : Image)
| PreviewError (e : Exn).

Section Gui.
Context `{B : Backend}.

Definition is_png_source (path : string) : bool := Str.endswith (Str.lower path) ".png".

(** The image [update_preview] shows, lines 402-423. *)
Definition preview_image (path : string) (f : Form) : M Image :=
  let profile := profileCombo f in
  let '(w, h) :=
    if bool_decide (profile = "Create Windows icon (.ico)")
    then (list_max WINDOWS_ICO_SIZES, list_max WINDOWS_ICO_SIZES)
    else if bool_decide (profile = "Create macOS icon (.icns)")
    then (list_max MAC_ICON_SIZES, list_max MAC_ICON_SIZES)
    else (widthSpin f, heightSpin f) in
  if is_png_source path then
    pil ← lift (image_open path);
    let pil := convert MRGBA pil in
    lift (Image_resize pil (w, h))
  else
    render_svg_to_pillow path w h (inject_Z (zoomSlider f) / 100) (paddingSpin f)
      (transparentBg f) (Some (bgColor f)).

Definition update_preview (f : Form) : World -> Preview * World := fun w =>
  match svg_path f with
  | None => (PreviewText "No source loaded", w)
  | Some path =>
      if bool_decide (path = EmptyString) then (PreviewText "No source loaded", w)
      else
        match preview_image path f w with
        | (Ok pil, w') => (PreviewPixmap pil, w')
        | (Raise e, w') => (PreviewError e, w')
        end
  end.

(** The dispatch of [on_create] for a raster source, lines 523-546;
    [None] is the early return after the warning. *)
Definition export_png_source (src : string) (out_dir : Path) (name : string)
    (profile fmt : string) (w h : Z) (transparent : bool) (zoom : Q) (padding : Z)
    (bg : QColor) : option (M unit) :=
  if bool_decide (profile = "Custom export") then
    Some (save_custom_png src (out_dir // "custom") name w h fmt transparent zoom padding bg)
  else if bool_decide (profile = "Create Windows icon (.ico)") then
    Some (save_windows_ico_png src (out_dir // "windows") WINDOWS_ICO_SIZES transparent zoom padding bg)
  else if bool_decide (profile = "Create macOS icon (.icns)") then
    Some (save_macos_icns_png src (out_dir // "macos") MAC_ICON_SIZES transparent zoom padding bg)
  else if bool_decide (profile = "Create Linux icon PNGs") then
    Some (save_png_set_png src out_dir "linux" name LINUX_ICON_SIZES transparent zoom padding bg fmt)
  else if bool_decide (profile = "Create Android app icons") then
    Some (save_png_set_png src out_dir "android" name ANDROID_ICON_SIZES transparent zoom padding bg fmt)
  else if bool_decide (profile = "Create iOS app icons") then
    Some (save_png_set_png src out_dir "ios" name IOS_ICON_SIZES transparent zoom padding bg fmt)
  else if bool_decide (profile = "Export standard sizes: Computer") then
    Some (save_wallpapers_png src out_dir "desktop" name DESKTOP_WALLPAPERS transparent zoom padding bg fmt)
  else if bool_decide (profile = "Export standard sizes: Phone") then
    Some (save_wallpapers_png src out_dir "phone" name PHONE_WALLPAPERS transparent zoom padding bg fmt)
  else if bool_decide (profile = "Export tablet sizes: Portrait") then
    Some (save_wallpapers_png src out_dir "tablet_portrait" name TABLET_PORTRAIT_WALLPAPERS transparent zoom padding bg fmt)
  else if bool_decide (profile = "Export tablet sizes: Landscape") then
    Some (save_wallpapers_png src out_dir "tablet_landscape" name TABLET_LANDSCAPE_WALLPAPERS transparent zoom padding bg fmt)
  else None.

(** The dispatch for a vector source, lines 549-577. *)
Definition export_svg_source (src : string) (out_dir : Path) (name : string)
    (profile fmt : string) (w h : Z) (transparent : bool) (zoom : Q) (padding : Z)
    (bg : QColor) : M unit :=
  if bool_decide (profile = "Custom export") then
    save_custom src (out_dir // "custom") name w h fmt transparent zoom padding bg
  else if bool_decide (profile = "Create Windows icon (.ico)") then
    save_windows_ico src (out_dir // "windows") WINDOWS_ICO_SIZES transparent zoom padding bg
  else if bool_decide (profile = "Create macOS icon (.icns)") then
    save_macos_icns src (out_dir // "macos") MAC_ICON_SIZES transparent zoom padding bg
  else if bool_decide (profile = "Create Linux icon PNGs") then
    save_png_set src out_dir "linux" name LINUX_ICON_SIZES transparent zoom padding bg fmt
  else if bool_decide (profile = "Create Android app icons") then
    save_png_set src out_dir "android" name ANDROID_ICON_SIZES transparent zoom padding bg fmt
  else if bool_decide (profile = "Create iOS app icons") then
    save_png_set src out_dir "ios" name IOS_ICON_SIZES transparent zoom padding bg fmt
  else if bool_decide (profile = "Export standard sizes: Computer") then
    save_wallpapers src out_dir "desktop" name DESKTOP_WALLPAPERS transparent zoom padding bg fmt
  else if bool_decide (profile = "Export standard sizes: Phone") then
    save_wallpapers src out_dir "phone" name PHONE_WALLPAPERS transparent zoom padding bg fmt
  else if bool_decide (profile = "Export tablet sizes: Portrait") then
    save_wallpapers src out_dir "tablet_portrait" name TABLET_PORTRAIT_WALLPAPERS transparent zoom padding bg fmt
  else if bool_decide (profile = "Export tablet sizes: Landscape") then
    save_wallpapers src out_dir "tablet_landscape" name TABLET_LANDSCAPE_WALLPAPERS transparent zoom padding bg fmt
  else mret tt.

Definition on_create (f : Form) : World -> Dialog * World := fun world =>
  match svg_path f with
  | None => (Warning "No source" "Please load an SVG or PNG file first.", world)
  | Some src =>
      if bool_decide (src = EmptyString)
      then (Warning "No source" "Please load an SVG or PNG file first.", world)
      else
      match chosen_dir f with
      | None => (NoDialog, world)
      | Some out_dir =>
          let profile := profileCombo f in
          let fmt := Str.lower (formatCombo f) in
          let '(w, h) := (widthSpin f, heightSpin f) in
          let zoom := (inject_Z (zoomSlider f) / 100)%Q in
          let padding := paddingSpin f in
          let transparent := transparentBg f in
          let bg := bgColor f in
          let name := PurePath.stem (StrMore.to_path src) in
          let finish (m : M unit) :=
            match m world with
            | (Ok _, world') => (Information "Done" "Export complete", world')
            | (Raise e, world') => (Critical "Error" e, world')
            end in
          if is_png_source src then
            match export_png_source src out_dir name profile fmt w h transparent zoom padding bg with
            | Some m => finish m
            | None => (Warning "Unsupported" "Profile is not supported for PNG sources.", world)
            end
          else
            finish (export_svg_source src out_dir name profile fmt w h transparent zoom padding bg)
      end
  end.

End Gui.

(** ** Start of the program *)

(** What [import cairosvg] does. *)
Inductive ImportResult :=
| Imported
| ImportOSError (e : string)
| ImportOtherError (e : Exn).

Inductive Startup :=
| Loaded
| SysExit (code : Z) (stderr : string)
| Traceback (e : Exn).

(** ["\n".join(msg)] *)
Fixpoint join_lines (msg : list string) : string :=
  match msg with
  | [] => EmptyString
  | [s] => s
  | s :: rest => s +:+ String "010" (join_lines rest)
  end.

(** Lines 14-31: the guard around the import of the rasterizer. [print]
    ends what it writes to stderr with a newline. *)
Definition import_guard (r : ImportResult) (sys_platform : string) : Startup :=
  match r with
  | Imported => Loaded
  | ImportOSError e =>
      let msg :=
        [ String "010" "ERROR: The Cairo graphics library required by CairoSVG is not installed.";
          e;
          String "010" "To fix this, follow the instructions for your platform:" +:+ String "010" EmptyString ] in
      let msg :=
        if bool_decide (sys_platform = "Darwin") then
          msg ++ ["macOS: Run 'brew install cairo' in Terminal. If you don't have Homebrew, install it from https://brew.sh first."]
        else if bool_decide (sys_platform = "Windows") then
          msg ++ ["Windows: Install GTK3 and Cairo using MSYS2 or download prebuilt binaries. See https://pycairo.readthedocs.io/en/latest/getting_started.html#windows."]
        else
          msg ++ ["Linux: Run 'sudo apt-get install libcairo2' or use your distro's package manager."] in
      SysExit 1 (join_lines msg +:+ String "010" EmptyString)
  | ImportOtherError e => Traceback e
  end.

(** How a run of the program ends: it never got to show the form, or the
    dialogs its export requests produced. *)
Inductive Run :=
| Exited (code : Z) (stderr : string) (w : World)
| Crashed (e : Exn) (w : World)
| Served (dialogs : list Dialog) (w : World).

Section Program.
Context `{B : Backend}.

Fixpoint serve (requests : list Form) (w : World) : list Dialog * World :=
  match requests with
  | [] => ([], w)
  | f :: rest =>
      let '(d, w') := on_create f w in
      let '(ds, w'') := serve rest w' in
      (d :: ds, w'')
  end.

(** The module is imported, then the form serves the export requests. *)
Definition program (import : ImportResult) (requests : list Form) (w : World) : Run :=
  match import_guard import platform_system with
  | Loaded => let '(ds, w') := serve requests w in Served ds w'
  | SysExit code err => Exited code err w
  | Traceback e => Crashed e w
  end.

End Program.

(** ** Views used by the statements *)

Definition empty_world : World := mkWorld ∅ [] [].

Section Views.
Context `{B : Backend}.

(** The rasterizer invocation a render request makes, lines 106-124. *)
Definition raster_request (svg_path : string) (width height : Z) (zoom : Q)
    (padding : Z) (transparent : bool) (bg_color : option QColor) : RasterCall :=
  let bg := default QColor_white bg_color in
  let work_w := Z.max 1 (Z.max 1 width - 2 * padding) in
  let work_h := Z.max 1 (Z.max 1 height - 2 * padding) in
  mkRasterCall svg_path
    (Py.int (Py.max 1 (inject_Z work_w * clamp_zoom zoom)))
    (Py.int (Py.max 1 (inject_Z work_h * clamp_zoom zoom)))
    (if transparent then None else Some (red bg, green bg, blue bg)).

(** The image a render request yields. *)
Definition render_image (svg_path : string) (width height : Z) (zoom : Q)
    (padding : Z) (transparent : bool) (bg_color : option QColor) : Result Image :=
  (render_svg_to_pillow svg_path width height zoom padding transparent bg_color empty_world).1.

(** The rasterizer answers every request for this source with an image
    that has pixels. *)
Definition renders (svg_path : string) : Prop :=
  forall w h bgc, exists raw,
    svg2png svg_path w h bgc = Ok raw /\ width raw <> 0%N /\ height raw <> 0%N.

(** What a computation wrote: the entries it added to the log of writes. *)
Definition writes {A} (m : M A) (w : World) : list (Path * Artifact) :=
  drop (length (written w)) (written (m w).2).

(** The rasterizer invocations of a computation. *)
Definition raster_calls {A} (m : M A) (w : World) : list RasterCall :=
  drop (length (raster_log w)) (raster_log (m w).2).

End Views.

(** The image inside a written file, if it was encoded by Pillow. *)
Definition artifact_image (a : Artifact) : option Image :=
  match a with
  | Encoded _ img _ => Some img
  | IconBundle _ => None
  | Truncated => None
  end.

(** ** A small concrete backend, for running the model *)

Module Demo.

Definition px_convert (from to : Mode) (p : Pixel) : Pixel :=
  let '(r, g, b, a) := p in
  match to with
  | MRGB => (r, g, b, 255)
  | ML => ((r + g + b) `div` 3, 0, 0, 255)
  | _ => (r, g, b, a)
  end.

Definition mix (a d s : Z) : Z := (s * a + d * (255 - a)) `div` 255.

Definition px_blend (a : Z) (dst src : Pixel) : Pixel :=
  let '(dr, dg, db, da) := dst in
  let '(sr, sg, sb, _) := src in
  (mix a dr sr, mix a dg sg, mix a db sb, da).

Definition px_over (dst src : Pixel) : Pixel :=
  let '(dr, dg, db, da) := dst in
  let '(sr, sg, sb, sa) := src in
  (mix sa dr sr, mix sa dg sg, mix sa db sb, sa + mix sa da 0).

(** A gradient of the requested size; ["wide.svg"] comes out one pixel
    wider than asked, ["broken.svg"] does not parse. *)
Definition rasterize (url : string) (w h : Z) (bg : option (Z * Z * Z)) : Result Image :=
  if bool_decide (url = "broken.svg") then Raise (ValueError "no element found")
  else
    Ok (mkImage MRGBA
          (Z.to_N (if bool_decide (url = "wide.svg") then w + 1 else w)) (Z.to_N h)
          (fun x y => (x `mod` 256, y `mod` 256, 128, if x <? y then 0 else 255))).

Definition open_source (path : string) : Result Image :=
  if bool_decide (path = "missing.png") then Raise (OSError "No such file or directory")
  else Ok (mkImage MRGBA 8 8 (fun x y => (32 * x, 32 * y, 7, if x <? y then 0 else 255))).

(** nearest neighbour *)
Definition nearest (img : Image) (sz : N * N) (x y : Z) : Pixel :=
  getpixel img (x * Z.of_N (width img) `div` Z.max 1 (Z.of_N sz.1))
               (y * Z.of_N (height img) `div` Z.max 1 (Z.of_N sz.2)).

Definition encodable (icns_ok : bool) (format : string) (img : Image) : bool :=
  if bool_decide (format = "ICNS") then icns_ok
  else if bool_decide (format = "JPEG") then negb (bool_decide (mode img = MRGBA))
  else true.

Definition extension_format (ext : string) : option string :=
  if bool_decide (ext = ".png") then Some "PNG"
  else if bool_decide (ext = ".jpg") then Some "JPEG"
  else if bool_decide (ext = ".jpeg") then Some "JPEG"
  else if bool_decide (ext = ".bmp") then Some "BMP"
  else if bool_decide (ext = ".pdf") then Some "PDF"
  else if bool_decide (ext = ".ico") then Some "ICO"
  else if bool_decide (ext = ".icns") then Some "ICNS"
  else None.

(** A backend on the given system; [icns_ok] tells whether Pillow's ICNS
    encoder works there. *)
Definition backend (system : string) (icns_ok : bool) : Backend :=
  {| svg2png := rasterize;
     image_open := open_source;
     convert_px := px_convert;
     resample := nearest;
     blend := px_blend;
     over := px_over;
     can_encode := encodable icns_ok;
     registered_extension := extension_format;
     platform_system := system;
     iconutil := fun _ => (0, EmptyString) |}.

Definition linux : Backend := backend "Linux" true.
Definition darwin_no_icns : Backend := backend "Darwin" false.

Definition red_bg : QColor := mkQColor 255 0 0 255.

(** A form as the user fills it in. *)
Definition form (src profile format : string) (w h : Z) (transparent : bool) : Form :=
  mkForm (Some src) (Some ["out"]) profile format w h 100 0 transparent red_bg.

End Demo.

(** The world after the rasterizer call of a render request. *)
Definition after_raster (w : World) (c : RasterCall) : World :=
  mkWorld (fs w) (raster_log w ++ [c]) (written w).

(** The [k]-th name [unique_path] tries: the path itself, then the stem
    with [_1], [_2], ... *)
Definition candidate (path : Path) (k : nat) : Path :=
  match k with
  | O => path
  | S _ =>
      removelast path
      ++ [(PurePath.stem path +:+ "_" +:+ pretty (N.of_nat k)) +:+ PurePath.suffix path]
  end.

(** [m] only writes entries that satisfy [P], and its value satisfies [Q]. *)
Definition triple {A} (m : M A) (Q : A -> Prop) (P : Path * Artifact -> Prop) : Prop :=
  forall w,
    (exists new, written (m w).2 = written w ++ new /\ Forall P new)
    /\ (forall a, (m w).1 = Ok a -> Q a).

Section Statements.
Context `{B : Backend}.

(** The composited image of a vector source at the size [d]. *)
Definition svg_composite (svg_path : string) (zoom : Q) (padding : Z)
    (transparent : bool) (bg : QColor) (d : Z * Z) : Result Image :=
  render_image svg_path d.1 d.2 zoom padding transparent (Some bg).

(** The composited image of a raster source at the size [d]. *)
Definition png_composite (src_path : string) (d : Z * Z) : Result Image :=
  (png_render_to_pillow src_path d.1 d.2 [] empty_world).1.

(** The entry holds the composited image of one of the sizes [dims],
    flattened onto the background, and that image is RGB. *)
Definition flattened_onto (bg : QColor) (composite : Z * Z -> Result Image)
    (dims : list (Z * Z)) (entry : Path * Artifact) : Prop :=
  exists d img format,
    d ∈ dims
    /\ composite d = Ok img
    /\ entry.2 = Encoded format (pillow_flatten img (qcolor_to_rgba_tuple bg)) []
    /\ mode (pillow_flatten img (qcolor_to_rgba_tuple bg)) = MRGB.




(** The entry holds no image with an alpha channel. *)
Definition holds_rgb (entry : Path * Artifact) : Prop :=
  forall img, artifact_image entry.2 = Some img -> mode img = MRGB.

End Statements.

(** Concrete runs of the model on the demo backend. *)
Module Runs.

Definition render_half_zoom : M Image :=
  @render_svg_to_pillow Demo.linux "wide.svg" 64 48 (1 # 2) 4 true None.

Definition render_opaque : M Image :=
  @render_svg_to_pillow Demo.linux "a.svg" 64 48 1 0 false (Some Demo.red_bg).

Definition render_odd : M Image :=
  @render_svg_to_pillow Demo.linux "a.svg" 15 11 (7 # 10) 0 false (Some Demo.red_bg).

Definition gray_image : Image := mkImage ML 2 2 (fun x y => (x + y, 0, 0, 255)).


Definition ico_opaque : M unit :=
  @save_windows_ico Demo.linux "a.svg" ["out"; "windows"] WINDOWS_ICO_SIZES
    false 1 0 Demo.red_bg.

Definition ico_transparent : M unit :=
  @save_windows_ico Demo.linux "a.svg" ["out"; "windows"] WINDOWS_ICO_SIZES
    true 1 0 QColor_white.

(** A raster source, the macOS icon profile, transparency off. *)
Definition icns_of_png : Form :=
  Demo.form "a.png" "Create macOS icon (.icns)" "ICNS" 64 64 false.

Definition icns_of_svg : Form :=
  Demo.form "a.svg" "Create macOS icon (.icns)" "ICNS" 64 64 false.

Definition linux_set : Form := Demo.form "a.svg" "Create Linux icon PNGs" "PNG" 64 64 true.

Definition custom_png : Form := Demo.form "a.svg" "Custom export" "PNG" 64 64 true.

(** The world after the Linux icon set has been exported once. *)
Definition linux_set_exported : World := (@on_create Demo.linux linux_set empty_world).2.

Definition custom_png_exported : World := (@on_create Demo.linux custom_png empty_world).2.

Definition preview_form : Form :=
  mkForm (Some "logo.PNG") None "Custom export" "PNG" 32 24 100 0 true QColor_white.

Definition preview_form_other_settings : Form :=
  mkForm (Some "logo.PNG") None "Custom export" "JPG" 32 24 35 6 false Demo.red_bg.

End Runs.

(** * The rest of the form, and predicates on runs *)

(** ** The profile handler of the form *)

(** What [on_profile_changed] leaves in the widgets: the items of the format
    combo, its current text, and whether the size spin boxes are enabled. *)
Record ProfileUi := mkProfileUi {
  formatItems : list string;
  currentFormat : string;
  sizeEnabled : bool
}.

(** Lines 349-374. *)
Definition on_profile_changed (profile : string) : ProfileUi :=
  if bool_decide (profile = "Custom export") then
    mkProfileUi ["PNG"; "JPG"; "PDF"; "BMP"] "PNG" true
  else if bool_decide (profile = "Create Windows icon (.ico)") then
    mkProfileUi ["ICO"] "ICO" false
  else if bool_decide (profile = "Create macOS icon (.icns)") then
    mkProfileUi ["ICNS"] "ICNS" false
  else
    mkProfileUi ["PNG"; "JPG"; "BMP"] "PNG" true.

(** The items of the profile combo, lines 286-297. *)
Definition PROFILES : list string :=
  [ "Custom export";
    "Create Windows icon (.ico)";
    "Create macOS icon (.icns)";
    "Create Linux icon PNGs";
    "Create Android app icons";
    "Create iOS app icons";
    "Export standard sizes: Computer";
    "Export standard sizes: Phone";
    "Export tablet sizes: Portrait";
    "Export tablet sizes: Landscape" ].

(** ** What an export may do to the files *)

(** From [w] to [w']: the log of writes only grows, say by [new]; no entry
    disappears; and every path keeps what it held unless it is one of the
    paths written, a directory that was created where nothing was, or, when
    [emptying] is set, a file that was there and has been emptied by a save
    the encoder then refused. *)
Definition steps (emptying : bool) (w w' : World) : Prop :=
  exists new,
    written w' = written w ++ new
    /\ (forall p, is_Some (fs w !! p) -> is_Some (fs w' !! p))
    /\ (forall p,
          fs w' !! p = fs w !! p
          \/ p ∈ new.*1
          \/ (fs w !! p = None /\ fs w' !! p = Some Dir)
          \/ (emptying = true
              /\ (exists a, fs w !! p = Some (File a))
              /\ fs w' !! p = Some (File Truncated))).

(** The run of [m] from [w] is such a step, and one that empties no file
    when it returns. *)
Definition framed_at {A} (m : M A) (w : World) : Prop :=
  steps true w (m w).2 /\ (forall a, (m w).1 = Ok a -> steps false w (m w).2).

Definition framed {A} (m : M A) : Prop := forall w, framed_at m w.

(** The entry holds the composited image of one of the sizes [dims] as it
    is, with its alpha channel. *)
Definition unflattened (composite : Z * Z -> Result Image)
    (dims : list (Z * Z)) (entry : Path * Artifact) : Prop :=
  exists d img format,
    d ∈ dims
    /\ composite d = Ok img
    /\ entry.2 = Encoded format img []
    /\ mode img = MRGBA.

(** [m] never calls the rasterizer. *)
Definition rasterless {A} (m : M A) : Prop :=
  forall w, raster_log (m w).2 = raster_log w.

(** The entry holds exactly the image [pil]. *)
Definition holds_image (pil : Image) (entry : Path * Artifact) : Prop :=
  exists format sizes, entry.2 = Encoded format pil sizes.

(** The file name of a size-set export: [f"{name}_{w}x{h}.{fmt}"]. *)
Definition sized_name (name : string) (d : Z * Z) (fmt : string) : string :=
  name +:+ "_" +:+ pretty d.1 +:+ "x" +:+ pretty d.2 +:+ "." +:+ fmt.

(** More concrete runs on the demo backend. *)
Module Cases.

Definition sprite : Image :=
  mkImage MRGBA 2 2 (fun x y => (10 * x, 20 * y, 30, if x <? y then 0 else 255)).

Definition render_at (wd ht : Z) (zoom : Q) : M Image :=
  @render_svg_to_pillow Demo.linux "a.svg" wd ht zoom 0 true None.

Definition render_broken : M Image :=
  @render_svg_to_pillow Demo.linux "broken.svg" 64 48 1 0 true None.

Definition two_icons : M unit :=
  @save_png_set Demo.linux "a.svg" ["out"] "linux" "a" [16; 32] true 1 0 Demo.red_bg "PNG".

Definition icon_16 : Path := ["out"; "linux"; "a"; "a_16x16.png"].

(** Linux with a Pillow that cannot encode ICNS. *)
Definition linux_no_icns : Backend := Demo.backend "Linux" false.

(** macOS with a Pillow that cannot encode ICNS and an iconutil that fails. *)
Definition darwin_iconutil_fails : Backend :=
  {| svg2png := Demo.rasterize;
     image_open := Demo.open_source;
     convert_px := Demo.px_convert;
     resample := Demo.nearest;
     blend := Demo.px_blend;
     over := Demo.px_over;
     can_encode := Demo.encodable false;
     registered_extension := Demo.extension_format;
     platform_system := "Darwin";
     iconutil := fun _ => (1, "iconutil: error") |}.

(** Linux with an encoder that refuses images wider than 16 pixels. *)
Definition small_only : Backend :=
  {| svg2png := Demo.rasterize;
     image_open := Demo.open_source;
     convert_px := Demo.px_convert;
     resample := Demo.nearest;
     blend := Demo.px_blend;
     over := Demo.px_over;
     can_encode := fun _ img => (width img <=? 16)%N;
     registered_extension := Demo.extension_format;
     platform_system := "Linux";
     iconutil := fun _ => (0, EmptyString) |}.

Definition icon_22 : Path := ["out"; "linux"; "a"; "a_22x22.png"].

Definition icns_off_macos : M unit :=
  @save_macos_icns linux_no_icns "a.svg" ["out"; "macos"] MAC_ICON_SIZES true 1 0 Demo.red_bg.

Definition icns_iconutil_fails : M unit :=
  @save_macos_icns darwin_iconutil_fails "a.svg" ["out"; "macos"] [16; 32] true 1 0
    Demo.red_bg.

Definition custom_jpg_form : Form := Demo.form "a.svg" "Custom export" "JPG" 64 48 true.

Definition broken_form : Form :=
  Demo.form "broken.svg" "Create Linux icon PNGs" "PNG" 64 64 true.

Definition custom_of_png : Form := Demo.form "a.png" "Custom export" "PNG" 24 16 true.

Definition render_small : M Image :=
  @render_svg_to_pillow Demo.linux "a.svg" 64 48 (1 # 2) 4 false (Some Demo.red_bg).

End Cases.

(** * Properties *)

(** ** Numerics *)

Section Numerics.

Lemma Py_min_le_l (a b : Q) : (Py.min a b <= a)%Q.
Proof.
  unfold Py.min. destruct (Qlt_le_dec b a) as [H|H].
  - apply Qlt_le_weak, H.
  - apply Qle_refl.
Qed.

Lemma Py_min_le_r (a b : Q) : (Py.min a b <= b)%Q.
Proof.
  unfold Py.min. destruct (Qlt_le_dec b a) as [H|H].
  - apply Qle_refl.
  - exact H.
Qed.

Lemma Py_min3_le (a b c : Q) :
  (Py.min3 a b c <= a)%Q /\ (Py.min3 a b c <= b)%Q /\ (Py.min3 a b c <= c)%Q.
Proof.
  unfold Py.min3. repeat split.
  - eapply Qle_trans; [apply Py_min_le_l | apply Py_min_le_l].
  - eapply Qle_trans; [apply Py_min_le_l | apply Py_min_le_r].
  - apply Py_min_le_r.
Qed.

Lemma Py_int_le (q : Q) (z : Z) : (q <= inject_Z z)%Q -> Py.int q <= z.
Proof.
  destruct q as [n d]. unfold Qle, Py.int. simpl. rewrite Z.mul_1_r. intros H.
  destruct (Z.le_gt_cases 0 n) as [Hn|Hn].
  - rewrite Z.quot_div_nonneg by lia.
    apply Z.div_le_upper_bound; [lia | by rewrite Z.mul_comm].
  - replace n with (- - n) by lia. rewrite Z.quot_opp_l by lia.
    rewrite Z.quot_div_nonneg by lia.
    assert (- z <= Z.div (- n) (Z.pos d)); [|lia].
    apply Z.div_le_lower_bound; [lia | rewrite Z.mul_comm, Z.mul_opp_l; lia].
Qed.

Lemma Py_int_ge_1 (q : Q) : (1 <= q)%Q -> 1 <= Py.int q.
Proof.
  destruct q as [n d]. unfold Qle, Py.int. simpl. rewrite Z.mul_1_r. intros H.
  rewrite Z.quot_div_nonneg by lia.
  apply Z.div_le_lower_bound; lia.
Qed.

Lemma Py_max_1_ge (x : Q) : (1 <= Py.max 1 x)%Q.
Proof.
  unfold Py.max. destruct (Qlt_le_dec 1 x) as [H|H].
  - by apply Qlt_le_weak.
  - apply Qle_refl.
Qed.

Lemma Py_ltb_false (x y : Q) : Py.ltb x y = false -> (y <= x)%Q.
Proof. unfold Py.ltb. destruct (Qlt_le_dec x y); [discriminate | done]. Qed.

Lemma Q_mul_div_le (c w : Z) (s : Q) :
  0 < c -> (s <= inject_Z w / inject_Z c)%Q -> (inject_Z c * s <= inject_Z w)%Q.
Proof.
  intros Hc Hs.
  assert (Hc0 : (0 < inject_Z c)%Q) by (unfold Qlt; simpl; lia).
  assert (Hne : ~ (inject_Z c == 0)%Q).
  { intros E. rewrite E in Hc0. by apply Qlt_irrefl in Hc0. }
  rewrite <- (Qmult_div_r (inject_Z w) (inject_Z c)) by exact Hne.
  rewrite !(Qmult_comm (inject_Z c)).
  apply Qmult_le_compat_r; [exact Hs | by apply Qlt_le_weak].
Qed.

Lemma Q_one_le_div (c w : Z) :
  0 < c -> (1 <= inject_Z w / inject_Z c)%Q -> c <= w.
Proof.
  intros Hc H. apply Q_mul_div_le in H; [|exact Hc].
  rewrite Qmult_1_r in H. by rewrite <- Zle_Qle in H.
Qed.

Lemma clamp_zoom_range (zoom : Q) : (1 # 10 <= clamp_zoom zoom)%Q /\ (clamp_zoom zoom <= 1)%Q.
Proof.
  unfold clamp_zoom, Py.max, Py.min.
  destruct (Qlt_le_dec zoom 1) as [H1|H1]; destruct (Qlt_le_dec _ _) as [H2|H2];
    split; try (apply Qle_refl); try done; try (by apply Qlt_le_weak).
Qed.

(** The size asked of the rasterizer is at least 1 and never larger than
    the work area: zoom only shrinks. *)
Lemma render_size_within_work (work : Z) (zoom : Q) :
  1 <= work -> 1 <= Py.int (Py.max 1 (inject_Z work * clamp_zoom zoom)) <= work.
Proof.
  intros Hwork. split.
  - apply Py_int_ge_1, Py_max_1_ge.
  - apply Py_int_le. unfold Py.max.
    destruct (Qlt_le_dec 1 (inject_Z work * clamp_zoom zoom)) as [H|H].
    + rewrite <- (Qmult_1_r (inject_Z work)) at 2.
      apply Qmult_le_l; [|apply clamp_zoom_range].
      unfold Qlt. simpl. lia.
    + unfold Qle. simpl. lia.
Qed.

End Numerics.

(** ** Images and rendering *)

Section ImageFacts.
Context `{B : Backend}.

Lemma M_bind_run {A C} (m : M A) (f : A -> M C) (w : World) :
  (m ≫= f) w
  = match m w with
    | (Ok a, w') => f a w'
    | (Raise e, w') => (Raise e, w')
    end.
Proof. reflexivity. Qed.

Lemma mode_convert m img : mode (convert m img) = m.
Proof. unfold convert. by case_decide. Qed.

Lemma width_convert m img : width (convert m img) = width img.
Proof. unfold convert. by case_decide. Qed.

Lemma height_convert m img : height (convert m img) = height img.
Proof. unfold convert. by case_decide. Qed.

Lemma convert_same m img : mode img = m -> convert m img = img.
Proof. intros H. unfold convert. by rewrite decide_True. Qed.

Lemma mode_pillow_flatten img bg : mode (pillow_flatten img bg) = MRGB.
Proof.
  unfold pillow_flatten. case_bool_decide; simpl.
  - reflexivity.
  - apply mode_convert.
Qed.

Lemma img_size_pillow_flatten img bg : img_size (pillow_flatten img bg) = img_size img.
Proof.
  unfold pillow_flatten, img_size. case_bool_decide; simpl.
  - reflexivity.
  - by rewrite width_convert, height_convert.
Qed.

Lemma mode_composite_canvas transparent bg cw ch content :
  mode (composite_canvas transparent bg cw ch content)
  = if transparent then MRGBA else MRGB.
Proof.
  unfold composite_canvas. destruct transparent.
  - destruct (_ && _); reflexivity.
  - case_bool_decide; reflexivity.
Qed.

Lemma img_size_composite_canvas transparent bg cw ch content :
  img_size (composite_canvas transparent bg cw ch content) = (Z.to_N cw, Z.to_N ch).
Proof.
  unfold composite_canvas. destruct transparent.
  - destruct (_ && _); reflexivity.
  - case_bool_decide; reflexivity.
Qed.

(** The safety re-clamp: it succeeds on an image with pixels, keeps the
    mode, and its result fits the work area. *)
Lemma fit_work_area_fits (work_w work_h : Z) (content : Image) (w : World) :
  1 <= work_w -> 1 <= work_h -> width content <> 0%N -> height content <> 0%N ->
  exists fitted,
    fit_work_area work_w work_h content w = (Ok fitted, w)
    /\ mode fitted = mode content
    /\ 1 <= Z.of_N (width fitted) <= work_w
    /\ 1 <= Z.of_N (height fitted) <= work_h.
Proof.
  intros Hw Hh Hcw Hch. unfold fit_work_area.
  assert (Hcw' : 0 < Z.of_N (width content)) by lia.
  assert (Hch' : 0 < Z.of_N (height content)) by lia.
  rewrite (proj2 (Z.eqb_neq _ 0)) by lia.
  rewrite (proj2 (Z.eqb_neq _ 0)) by lia. simpl.
  set (scale := Py.min3 _ _ _).
  destruct (Py_min3_le (inject_Z work_w / inject_Z (Z.of_N (width content)))
              (inject_Z work_h / inject_Z (Z.of_N (height content))) 1) as (Ha & Hb & Hc).
  fold scale in Ha, Hb, Hc.
  destruct (Py.ltb scale 1) eqn:Hlt.
  - set (nw := Z.max 1 (Py.int (inject_Z (Z.of_N (width content)) * scale))).
    set (nh := Z.max 1 (Py.int (inject_Z (Z.of_N (height content)) * scale))).
    assert (Hnw : 1 <= nw <= work_w).
    { subst nw. split; [lia|]. apply Z.max_lub; [done|].
      apply Py_int_le, Q_mul_div_le; done. }
    assert (Hnh : 1 <= nh <= work_h).
    { subst nh. split; [lia|]. apply Z.max_lub; [done|].
      apply Py_int_le, Q_mul_div_le; done. }
    unfold lift, Image_resize. simpl.
    rewrite (proj2 (Z.ltb_ge nw 1)) by lia.
    rewrite (proj2 (Z.ltb_ge nh 1)) by lia. simpl.
    eexists. split; [reflexivity|]. simpl.
    clearbody nw nh. rewrite !Z2N.id by lia. done.
  - apply Py_ltb_false in Hlt.
    exists content. split; [reflexivity|]. split; [reflexivity|].
    split; (split; [lia|]); apply Q_one_le_div; try done; eapply Qle_trans; eauto.
Qed.

Lemma fit_work_area_zero (work_w work_h : Z) (content : Image) (w : World) :
  width content = 0%N \/ height content = 0%N ->
  fit_work_area work_w work_h content w = (Raise ZeroDivisionError, w).
Proof.
  intros H. unfold fit_work_area.
  destruct H as [-> | ->]; simpl; [reflexivity|].
  by rewrite orb_true_r.
Qed.



(** A successful render: the canvas is the composite of a content that
    has the mode asked for and fits the work area. *)
Lemma render_svg_to_pillow_ok svg_path wd ht zoom padding transparent bg_color w canvas w' :
  render_svg_to_pillow svg_path wd ht zoom padding transparent bg_color w = (Ok canvas, w') ->
  w' = after_raster w (raster_request svg_path wd ht zoom padding transparent bg_color)
  /\ exists content,
       canvas = composite_canvas transparent (default QColor_white bg_color)
                  (Z.max 1 wd) (Z.max 1 ht) content
       /\ mode content = (if transparent then MRGBA else MRGB)
       /\ 1 <= Z.of_N (width content) <= Z.max 1 (Z.max 1 wd - 2 * padding)
       /\ 1 <= Z.of_N (height content) <= Z.max 1 (Z.max 1 ht - 2 * padding).
Proof.
  unfold render_svg_to_pillow, mbind, M_bind, cairosvg_svg2png.
  destruct (svg2png _ _ _ _) as [raw|e] eqn:Hraw; [|discriminate].
  set (content := convert _ raw).
  destruct (N.eq_dec (width content) 0%N) as [Hz|Hcw].
  { rewrite fit_work_area_zero by auto. discriminate. }
  destruct (N.eq_dec (height content) 0%N) as [Hz|Hch].
  { rewrite fit_work_area_zero by auto. discriminate. }
  match goal with |- context [fit_work_area ?a ?b ?c ?d] =>
    destruct (fit_work_area_fits a b c d) as (fitted & -> & Hm & Hfw & Hfh);
      [lia | lia | done | done |] end.
  unfold mret, M_ret. intros [= <- <-]. split; [reflexivity|].
  exists fitted. split; [reflexivity|]. split; [|done].
  rewrite Hm. apply mode_convert.
Qed.

(** The same, with the content traced back to what the rasterizer
    returned: it is that image in the mode asked for, after the re-clamp. *)
Lemma render_svg_to_pillow_content svg_path wd ht zoom padding transparent bg_color w canvas w' :
  render_svg_to_pillow svg_path wd ht zoom padding transparent bg_color w = (Ok canvas, w') ->
  exists raw content,
    svg2png svg_path
      (rc_width (raster_request svg_path wd ht zoom padding transparent bg_color))
      (rc_height (raster_request svg_path wd ht zoom padding transparent bg_color))
      (rc_background (raster_request svg_path wd ht zoom padding transparent bg_color))
    = Ok raw
    /\ fit_work_area (Z.max 1 (Z.max 1 wd - 2 * padding)) (Z.max 1 (Z.max 1 ht - 2 * padding))
         (convert (if transparent then MRGBA else MRGB) raw) w'
       = (Ok content, w')
    /\ canvas = composite_canvas transparent (default QColor_white bg_color)
                  (Z.max 1 wd) (Z.max 1 ht) content
    /\ mode content = (if transparent then MRGBA else MRGB)
    /\ 1 <= Z.of_N (width content) <= Z.max 1 (Z.max 1 wd - 2 * padding)
    /\ 1 <= Z.of_N (height content) <= Z.max 1 (Z.max 1 ht - 2 * padding).
Proof.
  intros Hrun.
  pose proof (render_svg_to_pillow_ok _ _ _ _ _ _ _ _ _ _ Hrun) as [Hw' _].
  revert Hrun.
  unfold render_svg_to_pillow, mbind, M_bind, cairosvg_svg2png.
  destruct (svg2png _ _ _ _) as [raw|e] eqn:Hraw; [|discriminate].
  set (content := convert _ raw).
  destruct (N.eq_dec (width content) 0%N) as [Hz|Hcw].
  { rewrite fit_work_area_zero by auto. discriminate. }
  destruct (N.eq_dec (height content) 0%N) as [Hz|Hch].
  { rewrite fit_work_area_zero by auto. discriminate. }
  match goal with |- context [fit_work_area ?a ?b ?c ?d] =>
    destruct (fit_work_area_fits a b c d) as (fitted & Hfit & Hm & Hfw & Hfh);
      [lia | lia | done | done |]; rewrite Hfit;
    destruct (fit_work_area_fits a b c w') as (fitted' & Hfit' & _);
      [lia | lia | done | done |]
  end.
  unfold mret, M_ret. intros [= <- _].
  exists raw, fitted. split; [reflexivity|]. split.
  { etrans; [exact Hfit'|]. f_equal. f_equal.
    revert Hfit Hfit'. unfold fit_work_area.
    destruct (_ || _); [discriminate|].
    destruct (Py.ltb _ _).
    - unfold lift. destruct (Image_resize _ _); [|discriminate].
      by intros [= <-] [= <-].
    - by intros [= <-] [= <-]. }
  split; [reflexivity|]. split; [|done].
  rewrite Hm. apply mode_convert.
Qed.

(** The pixels of the canvas: the content where its box lies, the
    background elsewhere. *)
Lemma getpixel_composite_canvas (transparent : bool) (bg : QColor) (cw ch : Z)
    (content : Image) (x y : Z) :
  mode content = (if transparent then MRGBA else MRGB) ->
  getpixel (composite_canvas transparent bg cw ch content) x y
  = if in_box ((cw - Z.of_N (width content)) `div` 2) ((ch - Z.of_N (height content)) `div` 2)
         (width content) (height content) x y
    then
      if transparent
      then over (0, 0, 0, 0)
             (getpixel content (x - (cw - Z.of_N (width content)) `div` 2)
                (y - (ch - Z.of_N (height content)) `div` 2))
      else getpixel content (x - (cw - Z.of_N (width content)) `div` 2)
             (y - (ch - Z.of_N (height content)) `div` 2)
    else if transparent then (0, 0, 0, 0) else (red bg, green bg, blue bg, 255).
Proof.
  intros Hmode. unfold composite_canvas. destruct transparent.
  - rewrite Hmode. simpl. reflexivity.
  - rewrite Hmode. simpl. rewrite convert_same by done. reflexivity.
Qed.

(** Whatever happens, a render leaves the files alone and logs its one
    rasterizer call. *)
Lemma render_svg_to_pillow_world svg_path wd ht zoom padding transparent bg_color w :
  (render_svg_to_pillow svg_path wd ht zoom padding transparent bg_color w).2
  = after_raster w (raster_request svg_path wd ht zoom padding transparent bg_color).
Proof.
  unfold render_svg_to_pillow, mbind, M_bind, cairosvg_svg2png.
  destruct (svg2png _ _ _ _) as [raw|e]; [|reflexivity].
  unfold fit_work_area.
  destruct (_ || _); [reflexivity|].
  destruct (Py.ltb _ _); [|reflexivity].
  unfold lift. by destruct (Image_resize _ _).
Qed.

(** The image of a render does not depend on the world. *)
Lemma render_svg_to_pillow_image svg_path wd ht zoom padding transparent bg_color w :
  (render_svg_to_pillow svg_path wd ht zoom padding transparent bg_color w).1
  = render_image svg_path wd ht zoom padding transparent bg_color.
Proof.
  unfold render_image, render_svg_to_pillow, mbind, M_bind, cairosvg_svg2png.
  destruct (svg2png _ _ _ _) as [raw|e]; [|reflexivity].
  unfold fit_work_area.
  destruct (_ || _); [reflexivity|].
  destruct (Py.ltb _ _); [|reflexivity].
  unfold lift. by destruct (Image_resize _ _).
Qed.

(** A source the rasterizer can render always yields a canvas. *)
Lemma render_svg_to_pillow_total svg_path wd ht zoom padding transparent bg_color w :
  renders svg_path ->
  exists canvas,
    render_svg_to_pillow svg_path wd ht zoom padding transparent bg_color w
    = (Ok canvas,
       after_raster w (raster_request svg_path wd ht zoom padding transparent bg_color)).
Proof.
  intros Hr.
  pose proof (render_svg_to_pillow_world svg_path wd ht zoom padding transparent bg_color w) as Hw.
  revert Hw.
  unfold render_svg_to_pillow, mbind, M_bind, cairosvg_svg2png.
  match goal with |- context [svg2png ?a ?b ?c ?d] =>
    destruct (Hr b c d) as (raw & -> & Hcw & Hch) end.
  match goal with |- context [fit_work_area ?a ?b ?c ?d] =>
    destruct (fit_work_area_fits a b c d) as (fitted & -> & _);
      [lia | lia | by rewrite width_convert | by rewrite height_convert |] end.
  unfold mret, M_ret. simpl. intros <-. eexists. reflexivity.
Qed.

End ImageFacts.

(** ** The compositor: claims C1, C2, C8, C9 *)

Lemma clamp_zoom_id (zoom : Q) :
  (1 # 10 <= zoom)%Q -> (zoom <= 1)%Q -> (clamp_zoom zoom == zoom)%Q.
Proof.
  intros Hlo Hhi. unfold clamp_zoom, Py.max, Py.min.
  destruct (Qlt_le_dec zoom 1) as [H1|H1].
  - destruct (Qlt_le_dec (1 # 10) zoom) as [H2|H2]; [reflexivity|].
    by apply Qle_antisym.
  - destruct (Qlt_le_dec (1 # 10) 1) as [H2|H2]; [|by destruct H2].
    by apply Qle_antisym.
Qed.

(** C1. For zoom in [0.1, 1.0] and padding >= 0 with
    2*padding < min(width, height): the zoom passes the clamp unchanged; the
    canvas a render returns is the composite of a content whose width is at
    most width - 2*padding and whose height is at most height - 2*padding;
    and a source the rasterizer can render does yield such a canvas. *)
Theorem render_content_within_padding `{B : Backend}
    (svg_path : string) (wd ht : Z) (zoom : Q) (padding : Z) (transparent : bool)
    (bg_color : option QColor) (w : World) :
  (1 # 10 <= zoom)%Q /\ (zoom <= 1)%Q ->
  0 <= padding ->
  2 * padding < Z.min wd ht ->
  (clamp_zoom zoom == zoom)%Q
  /\ (forall canvas w',
        render_svg_to_pillow svg_path wd ht zoom padding transparent bg_color w = (Ok canvas, w') ->
        exists content,
          canvas = composite_canvas transparent (default QColor_white bg_color) wd ht content
          /\ Z.of_N (width content) <= wd - 2 * padding
          /\ Z.of_N (height content) <= ht - 2 * padding)
  /\ (renders svg_path ->
      exists canvas w',
        render_svg_to_pillow svg_path wd ht zoom padding transparent bg_color w = (Ok canvas, w')).
Proof.
  intros [Hlo Hhi] Hpad Hfit. split; [by apply clamp_zoom_id|]. split.
  - intros canvas w' Hrun.
    apply render_svg_to_pillow_ok in Hrun as (_ & content & -> & _ & Hcw & Hch).
    exists content.
    replace (Z.max 1 wd) with wd in * by lia.
    replace (Z.max 1 ht) with ht in * by lia.
    split; [reflexivity|]. lia.
  - intros Hr.
    destruct (render_svg_to_pillow_total svg_path wd ht zoom padding transparent bg_color w Hr)
      as (canvas & Hrun).
    eauto.
Qed.

Lemma render_content_within_padding_witness :
  exists canvas w' content,
    Runs.render_half_zoom empty_world = (Ok canvas, w')
    /\ canvas = @composite_canvas Demo.linux true QColor_white 64 48 content
    /\ Z.of_N (width content) <= 56 /\ Z.of_N (height content) <= 40.
Proof.
  destruct (@render_content_within_padding Demo.linux "wide.svg" 64 48 (1 # 2) 4 true None
              empty_world) as (_ & Hbound & _).
  - split; discriminate.
  - lia.
  - reflexivity.
  - destruct (Hbound _ _ eq_refl) as (content & Hcanvas & Hfit).
    eexists _, _, content. split; [reflexivity|]. split; [exact Hcanvas | exact Hfit].
Defined.

(** C2. For width >= 1 and height >= 1 the image a render returns is
    exactly width x height, in mode RGBA when transparent and RGB when not;
    and a source the rasterizer can render does yield an image. *)
Theorem render_canvas_size_and_mode `{B : Backend}
    (svg_path : string) (wd ht : Z) (zoom : Q) (padding : Z) (transparent : bool)
    (bg_color : option QColor) (w : World) :
  1 <= wd -> 1 <= ht ->
  (forall canvas w',
     render_svg_to_pillow svg_path wd ht zoom padding transparent bg_color w = (Ok canvas, w') ->
     Z.of_N (width canvas) = wd /\ Z.of_N (height canvas) = ht
     /\ mode canvas = (if transparent then MRGBA else MRGB))
  /\ (renders svg_path ->
      exists canvas w',
        render_svg_to_pillow svg_path wd ht zoom padding transparent bg_color w = (Ok canvas, w')).
Proof.
  intros Hwd Hht. split.
  - intros canvas w' Hrun.
    apply render_svg_to_pillow_ok in Hrun as (_ & content & -> & _).
    pose proof (img_size_composite_canvas transparent (default QColor_white bg_color)
                  (Z.max 1 wd) (Z.max 1 ht) content) as Hsz.
    unfold img_size in Hsz. injection Hsz as -> ->.
    rewrite mode_composite_canvas. repeat split; lia.
  - intros Hr.
    destruct (render_svg_to_pillow_total svg_path wd ht zoom padding transparent bg_color w Hr)
      as (canvas & Hrun).
    eauto.
Qed.

Lemma render_canvas_size_and_mode_witness :
  exists canvas w',
    Runs.render_opaque empty_world = (Ok canvas, w')
    /\ Z.of_N (width canvas) = 64 /\ Z.of_N (height canvas) = 48 /\ mode canvas = MRGB.
Proof.
  destruct (@render_canvas_size_and_mode Demo.linux "a.svg" 64 48 1 0 false (Some Demo.red_bg)
              empty_world) as (Hshape & _); [lia | lia |].
  eexists _, _. split; [reflexivity|].
  eapply Hshape. reflexivity.
Defined.

(** C8. The canvas a render returns is as large as asked and shows the
    content, which is what the rasterizer returned after conversion and
    re-clamp and has at least one pixel each way, with its top-left corner
    at ((canvas_w - content_w) // 2, (canvas_h - content_h) // 2) in floor
    division, and the background everywhere else, in transparent and in
    opaque mode alike; the left and top margins are the smaller ones when
    the difference is odd. *)
Theorem render_centering_offset `{B : Backend}
    (svg_path : string) (wd ht : Z) (zoom : Q) (padding : Z) (transparent : bool)
    (bg_color : option QColor) (w : World) (canvas : Image) (w' : World) :
  render_svg_to_pillow svg_path wd ht zoom padding transparent bg_color w = (Ok canvas, w') ->
  exists raw content,
    let canvas_w := Z.max 1 wd in
    let canvas_h := Z.max 1 ht in
    let cx := (canvas_w - Z.of_N (width content)) `div` 2 in
    let cy := (canvas_h - Z.of_N (height content)) `div` 2 in
    let bg := default QColor_white bg_color in
    svg2png svg_path
      (rc_width (raster_request svg_path wd ht zoom padding transparent bg_color))
      (rc_height (raster_request svg_path wd ht zoom padding transparent bg_color))
      (rc_background (raster_request svg_path wd ht zoom padding transparent bg_color))
    = Ok raw
    /\ fit_work_area (Z.max 1 (canvas_w - 2 * padding)) (Z.max 1 (canvas_h - 2 * padding))
         (convert (if transparent then MRGBA else MRGB) raw) w'
       = (Ok content, w')
    /\ 1 <= Z.of_N (width content)
    /\ 1 <= Z.of_N (height content)
    /\ Z.of_N (width canvas) = canvas_w
    /\ Z.of_N (height canvas) = canvas_h
    /\ (forall x y,
          getpixel canvas x y =
          if in_box cx cy (width content) (height content) x y then
            if transparent
            then over (0, 0, 0, 0) (getpixel content (x - cx) (y - cy))
            else getpixel content (x - cx) (y - cy)
          else
            if transparent then (0, 0, 0, 0) else (red bg, green bg, blue bg, 255))
    /\ 0 <= (canvas_w - Z.of_N (width content) - cx) - cx <= 1
    /\ 0 <= (canvas_h - Z.of_N (height content) - cy) - cy <= 1.
Proof.
  intros Hrun.
  apply render_svg_to_pillow_content in Hrun
    as (raw & content & Hraw & Hfit & -> & Hmode & Hcw & Hch).
  exists raw, content. cbv zeta.
  pose proof (img_size_composite_canvas transparent (default QColor_white bg_color)
                (Z.max 1 wd) (Z.max 1 ht) content) as Hsz.
  unfold img_size in Hsz. injection Hsz as Hsw Hsh.
  split; [exact Hraw|]. split; [exact Hfit|].
  split; [lia|]. split; [lia|].
  split; [rewrite Hsw; lia|]. split; [rewrite Hsh; lia|].
  split; [|split].
  - intros x y. by apply getpixel_composite_canvas.
  - pose proof (Z.div_mod (Z.max 1 wd - Z.of_N (width content)) 2).
    pose proof (Z.mod_pos_bound (Z.max 1 wd - Z.of_N (width content)) 2). lia.
  - pose proof (Z.div_mod (Z.max 1 ht - Z.of_N (height content)) 2).
    pose proof (Z.mod_pos_bound (Z.max 1 ht - Z.of_N (height content)) 2). lia.
Qed.

(** C9. Flattening twice onto the same background is flattening once, and
    flattening an image that is not RGBA is its conversion to RGB. *)
Theorem pillow_flatten_idempotent `{B : Backend} (img : Image) (bg : Pixel) :
  pillow_flatten (pillow_flatten img bg) bg = pillow_flatten img bg
  /\ (mode img <> MRGBA -> pillow_flatten img bg = convert MRGB img).
Proof.
  split.
  - pose proof (mode_pillow_flatten img bg) as Hm.
    unfold pillow_flatten at 1. rewrite Hm. simpl.
    apply convert_same, Hm.
  - intros Hne. unfold pillow_flatten. by rewrite bool_decide_false.
Qed.

(** ** What a computation writes *)

Section Triples.
Context `{B : Backend}.
Context {P : Path * Artifact -> Prop}.

Lemma triple_silent {A} (m : M A) (Q : A -> Prop) :
  (forall w, written (m w).2 = written w) ->
  (forall w a, (m w).1 = Ok a -> Q a) ->
  triple m Q P.
Proof.
  intros Hw Hq w. split; [|by apply Hq].
  exists []. rewrite Hw, app_nil_r. by split.
Qed.

Lemma triple_ret {A} (a : A) (Q : A -> Prop) : Q a -> triple (mret a) Q P.
Proof. intros Ha. apply triple_silent; [done|]. by intros w a' [= <-]. Qed.

Lemma triple_raise {A} (e : Exn) (Q : A -> Prop) : triple (raise e) Q P.
Proof. apply triple_silent; [done|]. by intros w a. Qed.

Lemma triple_lift {A} (r : Result A) (Q : A -> Prop) :
  (forall a, r = Ok a -> Q a) -> triple (lift r) Q P.
Proof. intros Hr. apply triple_silent; [done|]. intros w a. apply Hr. Qed.

Lemma triple_weaken {A} (m : M A) (Q Q' : A -> Prop) :
  (forall a, Q a -> Q' a) -> triple m Q P -> triple m Q' P.
Proof. intros Hq Hm w. destruct (Hm w) as [Hw Hv]. split; [done|]. auto. Qed.

Lemma triple_bind {A C} (m : M A) (f : A -> M C) (Q : A -> Prop) (Q' : C -> Prop) :
  triple m Q P -> (forall a, Q a -> triple (f a) Q' P) -> triple (m ≫= f) Q' P.
Proof.
  intros Hm Hf w. unfold mbind, M_bind.
  destruct (Hm w) as [(new & Hw & Hnew) Hv].
  destruct (m w) as [[a|e] w1]; simpl in *.
  - destruct (Hf a (Hv a eq_refl) w1) as [(new' & Hw' & Hnew') Hv'].
    split; [|done].
    exists (new ++ new'). rewrite Hw', Hw, app_assoc. split; [done|].
    by apply Forall_app.
  - split; [|done]. by exists new.
Qed.

Lemma triple_for_each {A} (l : list A) (body : A -> M unit) :
  (forall x, x ∈ l -> triple (body x) (fun _ => True) P) ->
  triple (for_each l body) (fun _ => True) P.
Proof.
  induction l as [|x l IH]; intros Hbody; simpl.
  - by apply triple_ret.
  - eapply triple_bind.
    + apply Hbody. by left.
    + intros _ _. apply IH. intros y Hy. apply Hbody. by right.
Qed.

Lemma triple_try_except {A} (m : M A) (handler : Exn -> M A) (Q : A -> Prop) :
  triple m Q P -> (forall e, triple (handler e) Q P) -> triple (try_except m handler) Q P.
Proof.
  intros Hm Hh w. unfold try_except.
  destruct (Hm w) as [(new & Hw & Hnew) Hv].
  destruct (m w) as [[a|e] w1]; simpl in *.
  - split; [by exists new | done].
  - assert (Hcatch :
      (exists new0, written (handler e w1).2 = written w ++ new0 /\ Forall P new0)
      /\ (forall a, (handler e w1).1 = Ok a -> Q a)).
    { destruct (Hh e w1) as [(new' & Hw' & Hnew') Hv'].
      split; [|done].
      exists (new ++ new'). rewrite Hw', Hw, app_assoc. split; [done|].
      by apply Forall_app. }
    destruct e; try exact Hcatch.
    split; [by exists new | done].
Qed.

Lemma triple_mkdir (p : Path) : triple (mkdir p) (fun _ => True) P.
Proof.
  apply triple_silent; [|done].
  intros w. unfold mkdir. by destruct (mkdir_go _ _ _).
Qed.

Lemma triple_unique_path (p : Path) : triple (unique_path p) (fun _ => True) P.
Proof.
  apply triple_silent; [|done].
  intros w. unfold unique_path. by destruct (unique_path_loop _ _ _ _ _).
Qed.

Lemma triple_py_max_list (l : list Z) : triple (py_max_list l) (fun _ => True) P.
Proof. apply triple_silent; [|done]. intros w. by destruct l. Qed.

Lemma triple_render svg_path wd ht zoom padding transparent bg_color :
  triple (render_svg_to_pillow svg_path wd ht zoom padding transparent bg_color)
    (fun img => render_image svg_path wd ht zoom padding transparent bg_color = Ok img
                /\ mode img = if transparent then MRGBA else MRGB) P.
Proof.
  apply triple_silent.
  - intros w. by rewrite render_svg_to_pillow_world.
  - intros w img Himg. split.
    + by rewrite <- (render_svg_to_pillow_image _ _ _ _ _ _ _ w).
    + destruct (render_svg_to_pillow _ _ _ _ _ _ _ w) as [r w'] eqn:Hrun.
      simpl in Himg. subst r.
      apply render_svg_to_pillow_ok in Hrun as (_ & content & -> & _).
      apply mode_composite_canvas.
Qed.

Lemma triple_png_render path wd ht kwargs :
  triple (png_render_to_pillow path wd ht kwargs)
    (fun img => (png_render_to_pillow path wd ht [] empty_world).1 = Ok img
                /\ mode img = MRGBA) P.
Proof.
  apply triple_silent.
  - intros w. unfold png_render_to_pillow, mbind, M_bind, lift.
    by destruct (image_open path).
  - intros w img. unfold png_render_to_pillow, mbind, M_bind, lift.
    destruct (image_open path) as [src|e]; [|done]. simpl.
    intros Hres. split; [done|].
    unfold Image_resize in Hres. destruct (_ || _); [done|].
    injection Hres as <-. simpl. apply mode_convert.
Qed.

Lemma triple_save img path format sizes :
  (forall f, P (path, Encoded f img sizes)) ->
  triple (Image_save img path format sizes) (fun _ => True) P.
Proof.
  intros HP w. split; [|done]. unfold Image_save.
  destruct (match format with Some f => Some f | None => _ end) as [f|].
  2:{ exists []. by rewrite app_nil_r. }
  destruct (fs w !! path) as [[|a]|]; try (exists []; by rewrite app_nil_r);
    (destruct (can_encode f img); simpl;
     [ eexists; split; [reflexivity|]; by repeat constructor
     | exists []; by rewrite app_nil_r ]).
Qed.


Lemma triple_run_iconutil iconset icns_path :
  (forall frames, P (icns_path, IconBundle frames)) ->
  triple (run_iconutil iconset icns_path) (fun _ => True) P.
Proof.
  intros HP w. split; [|done]. unfold run_iconutil. simpl.
  destruct (_ =? 0); simpl.
  - eexists; split; [reflexivity|]. by repeat constructor.
  - exists []. by rewrite app_nil_r.
Qed.

Lemma triple_writes {A} (m : M A) (Q : A -> Prop) (w : World) :
  triple m Q P -> Forall P (writes m w).
Proof.
  intros Hm. destruct (Hm w) as [(new & Hw & Hnew) _].
  unfold writes. by rewrite Hw, drop_app_length.
Qed.

End Triples.

(** ** Paths and [unique_path] *)

Section Strings.

Lemma str_app_cons (c : ascii) (s t : string) : String c s +:+ t = String c (s +:+ t).
Proof. reflexivity. Qed.

Lemma str_take_drop (n : nat) (s : string) : Str.take n s +:+ Str.drop n s = s.
Proof.
  revert s. induction n as [|n IH]; intros [|c s]; simpl; try reflexivity.
  by rewrite str_app_cons, IH.
Qed.

Lemma stem_suffix (p : Path) : PurePath.stem p +:+ PurePath.suffix p = PurePath.name p.
Proof.
  unfold PurePath.stem, PurePath.suffix.
  destruct (PurePath.suffix_index _) as [i|].
  - apply str_take_drop.
  - induction (PurePath.name p) as [|c s IH]; [reflexivity|]. by rewrite str_app_cons, IH.
Qed.

Lemma str_app_length (s t : string) :
  String.length (s +:+ t) = (String.length s + String.length t)%nat.
Proof. induction s as [|c s IH]; [reflexivity|]. rewrite str_app_cons. simpl. by rewrite IH. Qed.

Lemma str_app_inj_r (s1 s2 t : string) : s1 +:+ t = s2 +:+ t -> s1 = s2.
Proof.
  revert s2. induction s1 as [|c s1 IH]; intros [|c2 s2] H.
  - reflexivity.
  - apply (f_equal String.length) in H. rewrite !str_app_length in H. simpl in H. lia.
  - apply (f_equal String.length) in H. rewrite !str_app_length in H. simpl in H. lia.
  - rewrite !str_app_cons in H. injection H as -> H. f_equal. by apply IH.
Qed.

Lemma str_app_assoc (s t u : string) : (s +:+ t) +:+ u = s +:+ (t +:+ u).
Proof. induction s as [|c s IH]; [reflexivity|]. by rewrite !str_app_cons, IH. Qed.

Lemma str_app_nonempty (s t : string) : t <> EmptyString -> s +:+ t <> EmptyString.
Proof. intros Ht. destruct s as [|c s]; [exact Ht|]. by rewrite str_app_cons. Qed.

Lemma str_app_nonempty_l (s t : string) : s <> EmptyString -> s +:+ t <> EmptyString.
Proof. intros Hs. destruct s as [|c s]; [done|]. by rewrite str_app_cons. Qed.

Lemma name_joinpath (p : Path) (c : string) : PurePath.name (p // c) = c.
Proof. unfold PurePath.name, PurePath.joinpath. by rewrite last_snoc. Qed.

(** On a path that has a name, [with_stem] with the stem of a candidate
    replaces the last component. *)
Lemma with_stem_candidate (path : Path) (counter : N) :
  PurePath.name path <> EmptyString ->
  PurePath.with_stem path (PurePath.stem path +:+ "_" +:+ pretty counter)
  = Ok (removelast path
        ++ [(PurePath.stem path +:+ "_" +:+ pretty counter) +:+ PurePath.suffix path]).
Proof.
  intros Hname. unfold PurePath.with_stem, PurePath.with_name.
  rewrite bool_decide_false by done.
  rewrite bool_decide_false; [reflexivity|].
  apply str_app_nonempty_l, str_app_nonempty. by rewrite str_app_cons.
Qed.

Lemma with_stem_nameless (path : Path) (st : string) :
  PurePath.name path = EmptyString ->
  PurePath.with_stem path st = Raise (ValueError "path has an empty name").
Proof.
  intros Hname. unfold PurePath.with_stem, PurePath.with_name.
  by rewrite bool_decide_true.
Qed.

Lemma candidate_inj (path : Path) (j k : nat) : candidate path j = candidate path k -> j = k.
Proof.
  assert (Hfresh : forall n, path <> candidate path (S n)).
  { intros n H. unfold candidate in H.
    destruct path as [|c path] using rev_ind.
    - by destruct (app_cons_not_nil [] [] _ H).
    - clear IHpath. rewrite removelast_last in H.
      apply app_inj_tail in H as [_ H].
      pose proof (stem_suffix (path ++ [c])) as Hn.
      unfold PurePath.name in Hn. rewrite last_snoc in Hn. simpl in Hn.
      rewrite <- Hn in H at 1.
      apply (f_equal String.length) in H.
      rewrite !str_app_length in H. simpl in H. lia. }
  destruct j as [|j], k as [|k]; intros H.
  - reflexivity.
  - by destruct (Hfresh k).
  - by destruct (Hfresh j).
  - unfold candidate in H.
    apply app_inj_tail in H as [_ H].
    apply str_app_inj_r in H.
    apply (inj (String.app _)) in H. apply (inj (String.app _)) in H.
    apply (inj pretty) in H. lia.
Qed.

End Strings.

Section UniquePath.

Lemma path_exists_spec (files : gmap Path Node) (p : Path) :
  path_exists files p = true <-> p ∈ dom files.
Proof.
  unfold path_exists. rewrite bool_decide_eq_true. by rewrite elem_of_dom.
Qed.

(** If the first [k] candidates all exist, there are at least [k] entries. *)
Lemma candidates_bound (files : gmap Path Node) (path : Path) (k : nat) :
  (forall j, (j < k)%nat -> path_exists files (candidate path j) = true) ->
  (k <= size files)%nat.
Proof.
  intros Hall.
  set (taken := list_to_set (candidate path <$> seq 0 k) : gset Path).
  assert (Hsub : taken ⊆ dom files).
  { intros p Hp. apply elem_of_list_to_set, list_elem_of_fmap in Hp as (j & -> & Hj).
    apply elem_of_seq in Hj. apply path_exists_spec, Hall. lia. }
  apply subseteq_size in Hsub. rewrite size_dom in Hsub.
  unfold taken in Hsub. rewrite size_list_to_set in Hsub.
  - by rewrite length_fmap, length_seq in Hsub.
  - apply NoDup_fmap_2_strong; [|apply NoDup_seq].
    intros i j _ _. apply candidate_inj.
Qed.

Lemma unique_path_loop_finds (files : gmap Path Node) (path : Path) (fuel k : nat) :
  PurePath.name path <> EmptyString ->
  (forall j, (j < k)%nat -> path_exists files (candidate path j) = true) ->
  (size files <= k + fuel)%nat ->
  exists k',
    (k <= k')%nat
    /\ unique_path_loop fuel files path (N.of_nat (S k)) (candidate path k)
       = Ok (candidate path k')
    /\ path_exists files (candidate path k') = false
    /\ (forall j, (j < k')%nat -> path_exists files (candidate path j) = true).
Proof.
  intros Hname. revert k. induction fuel as [|fuel IH]; intros k Hall Hsize.
  - destruct (path_exists files (candidate path k)) eqn:Hk.
    + exfalso.
      assert (S k <= size files)%nat; [|lia].
      apply (candidates_bound files path). intros j Hj.
      destruct (decide (j = k)) as [->|]; [done|]. apply Hall. lia.
    + exists k. simpl. rewrite Hk. auto.
  - destruct (path_exists files (candidate path k)) eqn:Hk.
    + destruct (IH (S k)) as (k' & Hle & Hrun & Hfree & Hbusy).
      * intros j Hj. destruct (decide (j = k)) as [->|]; [done|]. apply Hall. lia.
      * lia.
      * exists k'. split; [lia|]. split; [|done].
        simpl unique_path_loop. rewrite Hk.
        rewrite with_stem_candidate by done.
        replace (N.of_nat (S k) + 1)%N with (N.of_nat (S (S k))) by lia.
        exact Hrun.
    + exists k. simpl. rewrite Hk. auto.
Qed.

(** [unique_path] returns on a path that has a name: the first candidate
    that does not exist. *)
Lemma unique_path_fresh (path : Path) (w : World) :
  PurePath.name path <> EmptyString ->
  exists k,
    unique_path path w = (Ok (candidate path k), w)
    /\ fs w !! candidate path k = None
    /\ (forall j, (j < k)%nat -> is_Some (fs w !! candidate path j)).
Proof.
  intros Hname.
  destruct (unique_path_loop_finds (fs w) path (S (size (fs w))) 0) as (k & _ & Hrun & Hfree & Hbusy).
  - exact Hname.
  - intros j Hj. lia.
  - lia.
  - exists k. unfold unique_path. simpl candidate in Hrun.
    change (N.of_nat 1) with 1%N in Hrun.
    rewrite Hrun. split; [reflexivity|]. split.
    + unfold path_exists in Hfree. apply bool_decide_eq_false in Hfree.
      by apply eq_None_not_Some.
    + intros j Hj. specialize (Hbusy j Hj).
      unfold path_exists in Hbusy. by apply bool_decide_eq_true in Hbusy.
Qed.

End UniquePath.

(** ** Flattening before encoding: claim C3 *)

Section FlattenBeforeEncode.
Context `{B : Backend}.

Lemma unique_path_world p w : (unique_path p w).2 = w.
Proof. unfold unique_path. by destruct (unique_path_loop _ _ _ _ _). Qed.

Lemma mkdir_written p w : written (mkdir p w).2 = written w.
Proof. unfold mkdir. by destruct (mkdir_go _ _ _). Qed.

Lemma in_tuple_opaque (fmt : string) :
  in_tuple fmt ["jpg"; "jpeg"; "bmp"; "pdf"] = true ->
  bool_decide (fmt = "pdf") = false ->
  in_tuple fmt ["jpg"; "jpeg"; "bmp"] = true.
Proof.
  unfold in_tuple. rewrite !bool_decide_eq_true, bool_decide_eq_false.
  rewrite !elem_of_cons. intros H Hne. tauto.
Qed.

Lemma flattened_onto_intro bg composite dims d img format p :
  d ∈ dims -> composite d = Ok img ->
  flattened_onto bg composite dims
    (p, Encoded format (pillow_flatten img (qcolor_to_rgba_tuple bg)) []).
Proof.
  intros Hd Himg. exists d, img, format. repeat split; try done.
  apply mode_pillow_flatten.
Qed.

Lemma save_custom_flattens svg_path out_dir name wd ht fmt transparent zoom padding bg :
  in_tuple (Str.lower fmt) ["jpg"; "jpeg"; "bmp"; "pdf"] = true ->
  triple (save_custom svg_path out_dir name wd ht fmt transparent zoom padding bg)
    (fun _ => True)
    (flattened_onto bg (svg_composite svg_path zoom padding transparent bg) [(wd, ht)]).
Proof.
  intros Hfmt. unfold save_custom.
  eapply triple_bind; [apply triple_mkdir|]. intros _ _.
  eapply triple_bind; [apply triple_render|]. intros img [Himg _].
  eapply triple_bind; [apply triple_unique_path|]. intros out _.
  destruct (bool_decide (Str.lower fmt = "pdf")) eqn:Hpdf.
  - rewrite convert_same by apply mode_pillow_flatten.
    apply triple_save. intros f.
    apply flattened_onto_intro with (d := (wd, ht)); [by left | done].
  - rewrite (in_tuple_opaque _ Hfmt Hpdf). simpl.
    apply triple_save. intros f.
    apply flattened_onto_intro with (d := (wd, ht)); [by left | done].
Qed.

Lemma save_png_set_flattens svg_path out_dir label name sizes fmt transparent zoom padding bg :
  in_tuple (Str.lower fmt) ["jpg"; "jpeg"; "bmp"] = true ->
  triple (save_png_set svg_path out_dir label name sizes transparent zoom padding bg fmt)
    (fun _ => True)
    (flattened_onto bg (svg_composite svg_path zoom padding transparent bg)
       (map (fun s => (s, s)) sizes)).
Proof.
  intros Hfmt. unfold save_png_set. rewrite Hfmt. simpl.
  eapply triple_bind; [apply triple_mkdir|]. intros _ _.
  apply triple_for_each. intros s Hs.
  eapply triple_bind; [apply triple_render|]. intros img [Himg _].
  apply triple_save. intros f.
  apply flattened_onto_intro with (d := (s, s)); [|done].
  apply list_elem_of_fmap. eauto.
Qed.

Lemma save_wallpapers_flattens svg_path out_dir label name sizes fmt transparent zoom padding bg :
  in_tuple (Str.lower fmt) ["jpg"; "jpeg"; "bmp"] = true ->
  triple (save_wallpapers svg_path out_dir label name sizes transparent zoom padding bg fmt)
    (fun _ => True)
    (flattened_onto bg (svg_composite svg_path zoom padding transparent bg) sizes).
Proof.
  intros Hfmt. unfold save_wallpapers. rewrite Hfmt. simpl.
  eapply triple_bind; [apply triple_mkdir|]. intros _ _.
  apply triple_for_each. intros sz Hsz.
  eapply triple_bind; [apply triple_render|]. intros img [Himg _].
  apply triple_save. intros f.
  apply flattened_onto_intro with (d := sz); [done|].
  by destruct sz.
Qed.

Lemma save_custom_png_flattens src_path out_dir name wd ht fmt transparent zoom padding bg :
  in_tuple fmt ["jpg"; "jpeg"; "bmp"; "pdf"] = true ->
  triple (save_custom_png src_path out_dir name wd ht fmt transparent zoom padding bg)
    (fun _ => True)
    (flattened_onto bg (png_composite src_path) [(wd, ht)]).
Proof.
  intros Hfmt. unfold save_custom_png.
  eapply triple_bind; [apply triple_mkdir|]. intros _ _.
  eapply triple_bind; [apply triple_png_render|]. intros img [Himg _].
  eapply triple_bind; [apply triple_unique_path|]. intros out _.
  destruct (bool_decide (fmt = "pdf")) eqn:Hpdf.
  - rewrite convert_same by apply mode_pillow_flatten.
    apply triple_save. intros f.
    apply flattened_onto_intro with (d := (wd, ht)); [by left | done].
  - rewrite (in_tuple_opaque _ Hfmt Hpdf). simpl.
    apply triple_save. intros f.
    apply flattened_onto_intro with (d := (wd, ht)); [by left | done].
Qed.

Lemma save_png_set_png_flattens src_path out_dir label name sizes fmt transparent zoom padding bg :
  in_tuple (Str.lower fmt) ["jpg"; "jpeg"; "bmp"] = true ->
  triple (save_png_set_png src_path out_dir label name sizes transparent zoom padding bg fmt)
    (fun _ => True)
    (flattened_onto bg (png_composite src_path) (map (fun s => (s, s)) sizes)).
Proof.
  intros Hfmt. unfold save_png_set_png. rewrite Hfmt. simpl.
  eapply triple_bind; [apply triple_mkdir|]. intros _ _.
  apply triple_for_each. intros s Hs.
  eapply triple_bind; [apply triple_png_render|]. intros img [Himg _].
  apply triple_save. intros f.
  apply flattened_onto_intro with (d := (s, s)); [|done].
  apply list_elem_of_fmap. eauto.
Qed.

Lemma save_wallpapers_png_flattens src_path out_dir label name sizes fmt transparent zoom padding bg :
  in_tuple (Str.lower fmt) ["jpg"; "jpeg"; "bmp"] = true ->
  triple (save_wallpapers_png src_path out_dir label name sizes transparent zoom padding bg fmt)
    (fun _ => True)
    (flattened_onto bg (png_composite src_path) sizes).
Proof.
  intros Hfmt. unfold save_wallpapers_png. rewrite Hfmt. simpl.
  eapply triple_bind; [apply triple_mkdir|]. intros _ _.
  apply triple_for_each. intros sz Hsz.
  eapply triple_bind; [apply triple_png_render|]. intros img [Himg _].
  apply triple_save. intros f.
  apply flattened_onto_intro with (d := sz); [done|].
  by destruct sz.
Qed.









Lemma render_written svg_path zoom padding transparent bg (d : Z * Z) w0 :
  written (render_svg_to_pillow svg_path d.1 d.2 zoom padding transparent (Some bg) w0).2
  = written w0.
Proof. by rewrite render_svg_to_pillow_world. Qed.


End FlattenBeforeEncode.


(** ** Rasterizer invocations of the container exports: claim C6 *)

Section RasterLog.
Context `{B : Backend}.

Lemma mkdir_raster_log p w : raster_log (mkdir p w).2 = raster_log w.
Proof. unfold mkdir. by destruct (mkdir_go _ _ _). Qed.

Lemma Image_save_raster_log img p format sizes w :
  raster_log (Image_save img p format sizes w).2 = raster_log w.
Proof.
  unfold Image_save.
  destruct (match format with Some f => Some f | None => _ end) as [f|]; [|done].
  destruct (fs w !! p) as [[|a]|]; try done; by destruct (can_encode f img).
Qed.

(** A save at a path where nothing is either writes the file or leaves
    the world as it was. *)
Lemma Image_save_fresh img p f sizes w :
  fs w !! p = None ->
  Image_save img p (Some f) sizes w
  = if can_encode f img
    then (Ok tt, mkWorld (<[p := File (Encoded f img sizes)]> (fs w)) (raster_log w)
                   (written w ++ [(p, Encoded f img sizes)]))
    else (Raise (OSError "cannot write image"), w).
Proof. intros Hp. unfold Image_save. by rewrite Hp. Qed.

Lemma run_iconutil_raster_log iconset icns w :
  raster_log (run_iconutil iconset icns w).2 = raster_log w.
Proof. unfold run_iconutil. simpl. by destruct (_ =? 0). Qed.

Lemma raster_calls_app {A} (m : M A) (w : World) (calls : list RasterCall) :
  raster_log (m w).2 = raster_log w ++ calls -> raster_calls m w = calls.
Proof. intros H. unfold raster_calls. by rewrite H, drop_app_length. Qed.

(** A loop that renders and saves each size logs one call per size. *)
Lemma render_each_raster_log svg_path zoom padding transparent bg
    (dest : Z -> Path) (sizes : list Z) (w w' : World) :
  for_each sizes (fun s =>
    img ← render_svg_to_pillow svg_path s s zoom padding transparent (Some bg);
    Image_save img (dest s) None []) w = (Ok tt, w') ->
  raster_log w'
  = raster_log w
    ++ map (fun s => raster_request svg_path s s zoom padding transparent (Some bg)) sizes.
Proof.
  revert w. induction sizes as [|s sizes IH]; intros w; simpl.
  - intros [= <-]. by rewrite app_nil_r.
  - unfold mbind at 1, M_bind at 1. unfold mbind at 1, M_bind at 1.
    pose proof (render_svg_to_pillow_world svg_path s s zoom padding transparent (Some bg) w) as Hw1.
    destruct (render_svg_to_pillow _ _ _ _ _ _ _ w) as [[img|e] w1]; [|done].
    simpl in Hw1.
    pose proof (Image_save_raster_log img (dest s) None [] w1) as Hw2.
    destruct (Image_save _ _ _ _ w1) as [[[]|e] w2]; [|done].
    simpl in Hw2. intros Hrest. apply IH in Hrest.
    rewrite Hrest, Hw2, Hw1. simpl. by rewrite <- app_assoc.
Qed.

End RasterLog.

Section Containers.
Context `{B : Backend}.

Lemma Image_save_ok img p f sizes w w' :
  Image_save img p (Some f) sizes w = (Ok tt, w') ->
  raster_log w' = raster_log w /\ written w' = written w ++ [(p, Encoded f img sizes)].
Proof.
  unfold Image_save.
  destruct (fs w !! p) as [[|a]|]; try done;
    (destruct (can_encode f img); [|done]); by intros [= <-].
Qed.

Lemma try_except_ok {A} (m : M A) (handler : Exn -> M A) w a w' :
  try_except m handler w = (Ok a, w') ->
  m w = (Ok a, w')
  \/ exists e w1, m w = (Raise e, w1) /\ handler e w1 = (Ok a, w').
Proof.
  unfold try_except. destruct (m w) as [[a0|e] w1]; [by left|].
  destruct e; try done; right; eauto.
Qed.

Lemma writes_app {A} (m : M A) (w : World) (new : list (Path * Artifact)) :
  written (m w).2 = written w ++ new -> writes m w = new.
Proof. intros H. unfold writes. by rewrite H, drop_app_length. Qed.

(** The base render of a container export: what the world and the image
    are after the directory is made and the largest size is rendered. *)
Lemma base_render_ok svg_path out_dir sizes transparent zoom padding bg
    {A} (rest : Image -> M A) w a w' :
  (mkdir out_dir;;
   base ← py_max_list sizes;
   src ← render_svg_to_pillow svg_path base base zoom padding transparent (Some bg);
   rest src) w = (Ok a, w') ->
  exists src w1,
    render_image svg_path (list_max sizes) (list_max sizes) zoom padding transparent (Some bg)
    = Ok src
    /\ mode src = (if transparent then MRGBA else MRGB)
    /\ raster_log w1
       = raster_log w ++ [raster_request svg_path (list_max sizes) (list_max sizes)
                            zoom padding transparent (Some bg)]
    /\ written w1 = written w
    /\ rest src w1 = (Ok a, w').
Proof.
  unfold mbind, M_bind.
  pose proof (mkdir_raster_log out_dir w) as Hm1.
  pose proof (mkdir_written out_dir w) as Hm2.
  destruct (mkdir out_dir w) as [[[]|e] w0]; [|done]. simpl in Hm1, Hm2.
  destruct sizes as [|s0 sizes]; [done|].
  unfold py_max_list, mret, M_ret.
  set (base := list_max (s0 :: sizes)).
  pose proof (render_svg_to_pillow_world svg_path base base zoom padding transparent (Some bg) w0) as Hw1.
  pose proof (render_svg_to_pillow_image svg_path base base zoom padding transparent (Some bg) w0) as Hi1.
  destruct (render_svg_to_pillow _ _ _ _ _ _ _ w0) as [[src|e] w1] eqn:Hrun; [|done].
  simpl in Hw1, Hi1. intros Hrest.
  exists src, w1. split; [done|]. split.
  { apply render_svg_to_pillow_ok in Hrun as (_ & content & -> & _).
    apply mode_composite_canvas. }
  subst w1. simpl. by rewrite Hm1, Hm2.
Qed.

End Containers.

(** C6, as the code has it. A container export that completes invokes the
    rasterizer once, for the largest size of the list; the ICO encoder gets
    that one image together with the list of sizes. For the ICNS export this
    is so exactly when Pillow's ICNS encoder accepts the base image; when it
    refuses it, the export can only complete on macOS, through the fallback,
    which renders every size of the list as well. *)
Theorem container_export_renders_base_once `{B : Backend}
    (svg_path : string) (out_dir : Path) (sizes : list Z) (transparent : bool)
    (zoom : Q) (padding : Z) (bg : QColor) (w w' : World) :
  (save_windows_ico svg_path out_dir sizes transparent zoom padding bg w = (Ok tt, w') ->
   raster_calls (save_windows_ico svg_path out_dir sizes transparent zoom padding bg) w
   = [raster_request svg_path (list_max sizes) (list_max sizes) zoom padding transparent (Some bg)]
   /\ exists ico_path src,
        render_image svg_path (list_max sizes) (list_max sizes) zoom padding transparent (Some bg)
        = Ok src
        /\ writes (save_windows_ico svg_path out_dir sizes transparent zoom padding bg) w
           = [(ico_path, Encoded "ICO" src (map (fun s => (s, s)) sizes))])
  /\ (save_macos_icns svg_path out_dir sizes transparent zoom padding bg w = (Ok tt, w') ->
      exists src,
        render_image svg_path (list_max sizes) (list_max sizes) zoom padding transparent (Some bg)
        = Ok src
        /\ ((can_encode "ICNS"
               (if transparent then src else pillow_flatten src (qcolor_to_rgba_tuple bg))
             = true
             /\ raster_calls (save_macos_icns svg_path out_dir sizes transparent zoom padding bg) w
                = [raster_request svg_path (list_max sizes) (list_max sizes) zoom padding
                     transparent (Some bg)])
            \/ (can_encode "ICNS"
                  (if transparent then src else pillow_flatten src (qcolor_to_rgba_tuple bg))
                = false
                /\ platform_system = "Darwin"
                /\ raster_calls
                     (save_macos_icns svg_path out_dir sizes transparent zoom padding bg) w
                   = raster_request svg_path (list_max sizes) (list_max sizes) zoom padding
                       transparent (Some bg)
                     :: map (fun s => raster_request svg_path s s zoom padding transparent
                                        (Some bg))
                          sizes))).
Proof.
  split.
  - intros Hrun. pose proof Hrun as Hrun0.
    unfold save_windows_ico in Hrun.
    apply base_render_ok in Hrun as (src & w1 & Himg & Hmode & Hlog & Hwr & Hrest).
    assert (Hsrc : (if negb transparent
                    then if negb (bool_decide (mode src = MRGB)) then convert MRGB src else src
                    else src) = src).
    { destruct transparent; simpl; [done|]. by rewrite bool_decide_true. }
    rewrite Hsrc in Hrest. unfold mbind, M_bind in Hrest.
    pose proof (unique_path_world (out_dir // "icon.ico") w1) as Hu.
    destruct (unique_path _ w1) as [[ico_path|e] w2]; [|done]. simpl in Hu. subst w2.
    apply Image_save_ok in Hrest as [Hlog' Hwr'].
    split.
    + apply raster_calls_app. rewrite Hrun0. simpl. by rewrite Hlog', Hlog.
    + exists ico_path, src. split; [done|].
      apply writes_app. rewrite Hrun0. simpl. by rewrite Hwr', Hwr.
  - intros Hrun. pose proof Hrun as Hrun0.
    unfold save_macos_icns in Hrun.
    apply base_render_ok in Hrun as (src & w1 & Himg & Hmode & Hlog & Hwr & Hrest).
    exists src. split; [exact Himg|].
    assert (Henc : (if negb transparent then pillow_flatten src (qcolor_to_rgba_tuple bg)
                    else src)
                   = (if transparent then src
                      else pillow_flatten src (qcolor_to_rgba_tuple bg)))
      by (by destruct transparent).
    rewrite Henc in Hrest.
    rewrite M_bind_run in Hrest.
    destruct (unique_path_fresh (out_dir // "icon.icns") w1) as (k & Hu & Hfree & _).
    { by rewrite name_joinpath. }
    rewrite Hu in Hrest. set (icns_path := candidate _ k) in *.
    unfold try_except in Hrest. rewrite Image_save_fresh in Hrest by done.
    destruct (can_encode "ICNS" _) eqn:Hcan.
    + left. split; [reflexivity|]. injection Hrest as <-.
      apply raster_calls_app. rewrite Hrun0. simpl. by rewrite Hlog.
    + right. split; [reflexivity|]. rename Hrest into Hfall.
      destruct (bool_decide (platform_system = "Darwin")) eqn:Hsys; [|done].
      apply bool_decide_eq_true in Hsys. split; [done|].
      unfold mbind at 1, M_bind at 1 in Hfall.
      pose proof (mkdir_raster_log (out_dir // "icon.iconset") w1) as Hm.
      destruct (mkdir _ w1) as [[[]|e1] w3]; [|done]. simpl in Hm.
      unfold mbind at 1, M_bind at 1 in Hfall.
      destruct (for_each sizes _ w3) as [[[]|e2] w4] eqn:Hloop; [|done].
      apply render_each_raster_log in Hloop.
      unfold mbind at 1, M_bind at 1 in Hfall.
      pose proof (run_iconutil_raster_log (out_dir // "icon.iconset") icns_path w4) as Hi.
      destruct (run_iconutil _ _ w4) as [[proc|e3] w5]; [|done]. simpl in Hi.
      destruct (negb (proc.1 =? 0)); [done|].
      injection Hfall as <-.
      apply raster_calls_app. rewrite Hrun0. simpl.
      rewrite Hi, Hloop, Hm, Hlog. by rewrite <- app_assoc.
Qed.

Lemma container_export_renders_base_once_witness :
  (Runs.ico_opaque empty_world).1 = Ok tt
  /\ raster_calls Runs.ico_opaque empty_world
     = [mkRasterCall "a.svg" 256 256 (Some (255, 0, 0))].
Proof.
  split; [reflexivity|].
  destruct (@container_export_renders_base_once Demo.linux "a.svg" ["out"; "windows"]
              WINDOWS_ICO_SIZES false 1 0 Demo.red_bg empty_world
              (Runs.ico_opaque empty_world).2)
    as [Hico _].
  destruct (Hico eq_refl) as [Hcalls _].
  exact Hcalls.
Defined.

(** C6, as stated, fails: the Windows icon export of the seven sizes does
    not invoke the rasterizer for each of them. *)
Lemma ico_export_does_not_render_each_size :
  (Runs.ico_transparent empty_world).1 = Ok tt
  /\ ~ Forall (fun s => raster_request "a.svg" s s 1 0 true (Some QColor_white)
                        ∈ raster_calls Runs.ico_transparent empty_world)
         WINDOWS_ICO_SIZES.
Proof.
  split; [reflexivity|].
  intros Hall. apply Forall_inv in Hall.
  apply list_elem_of_In in Hall. vm_compute in Hall.
  destruct Hall as [Heq | []]. discriminate Heq.
Qed.

(** ** Exports with the transparent flag off: claim C4 *)

Section OpaqueExports.
Context `{B : Backend}.

Lemma holds_rgb_encoded p f img sizes : mode img = MRGB -> holds_rgb (p, Encoded f img sizes).
Proof. intros Hm img' [= <-]. exact Hm. Qed.

Lemma holds_rgb_bundle p frames : holds_rgb (p, IconBundle frames).
Proof. intros img' [=]. Qed.

(** With the transparent flag off, every export of a vector source writes
    RGB images only. *)
Lemma export_svg_source_opaque src out_dir name profile fmt wd ht zoom padding bg :
  triple (export_svg_source src out_dir name profile fmt wd ht false zoom padding bg)
    (fun _ => True) holds_rgb.
Proof.
  assert (Hcustom : forall d n,
    triple (save_custom src d n wd ht fmt false zoom padding bg) (fun _ => True) holds_rgb).
  { intros d n. unfold save_custom.
    eapply triple_bind; [apply triple_mkdir|]. intros _ _.
    eapply triple_bind; [apply triple_render|]. intros img [_ Hmode].
    eapply triple_bind; [apply triple_unique_path|]. intros out _.
    rewrite orb_true_r.
    destruct (bool_decide _); apply triple_save; intros f; apply holds_rgb_encoded.
    - apply mode_convert.
    - apply mode_pillow_flatten. }
  assert (Hico : forall d sizes,
    triple (save_windows_ico src d sizes false zoom padding bg) (fun _ => True) holds_rgb).
  { intros d sizes. unfold save_windows_ico.
    eapply triple_bind; [apply triple_mkdir|]. intros _ _.
    eapply triple_bind; [apply triple_py_max_list|]. intros base _.
    eapply triple_bind; [apply triple_render|]. intros img [_ Hmode].
    eapply triple_bind; [apply triple_unique_path|]. intros out _.
    apply triple_save; intros f; apply holds_rgb_encoded. simpl.
    by rewrite bool_decide_true. }
  assert (Hicns : forall d sizes,
    triple (save_macos_icns src d sizes false zoom padding bg) (fun _ => True) holds_rgb).
  { intros d sizes. unfold save_macos_icns.
    eapply triple_bind; [apply triple_mkdir|]. intros _ _.
    eapply triple_bind; [apply triple_py_max_list|]. intros base _.
    eapply triple_bind; [apply triple_render|]. intros img [_ Hmode].
    eapply triple_bind; [apply triple_unique_path|]. intros out _.
    apply triple_try_except.
    - apply triple_save; intros f; apply holds_rgb_encoded, mode_pillow_flatten.
    - intros e. destruct (bool_decide _); [|apply triple_raise].
      eapply triple_bind; [apply triple_mkdir|]. intros _ _.
      eapply triple_bind.
      { apply triple_for_each. intros s _.
        eapply triple_bind; [apply triple_render|]. intros img' [_ Hmode'].
        apply triple_save; intros f. by apply holds_rgb_encoded. }
      intros _ _.
      eapply triple_bind; [apply triple_run_iconutil; intros; apply holds_rgb_bundle|].
      intros proc _. destruct (negb _); [apply triple_raise | by apply triple_ret]. }
  assert (Hset : forall label sizes,
    triple (save_png_set src out_dir label name sizes false zoom padding bg fmt)
      (fun _ => True) holds_rgb).
  { intros label sizes. unfold save_png_set.
    eapply triple_bind; [apply triple_mkdir|]. intros _ _.
    apply triple_for_each. intros s _.
    eapply triple_bind; [apply triple_render|]. intros img [_ Hmode].
    rewrite orb_true_r.
    apply triple_save; intros f; apply holds_rgb_encoded, mode_pillow_flatten. }
  assert (Hwall : forall label sizes,
    triple (save_wallpapers src out_dir label name sizes false zoom padding bg fmt)
      (fun _ => True) holds_rgb).
  { intros label sizes. unfold save_wallpapers.
    eapply triple_bind; [apply triple_mkdir|]. intros _ _.
    apply triple_for_each. intros s _.
    eapply triple_bind; [apply triple_render|]. intros img [_ Hmode].
    rewrite orb_true_r.
    apply triple_save; intros f; apply holds_rgb_encoded, mode_pillow_flatten. }
  unfold export_svg_source.
  repeat (destruct (bool_decide _); [done|]).
  by apply triple_ret.
Qed.

End OpaqueExports.

(** C4 at a failing input. A raster source, the macOS icon profile, the
    transparent flag off, on macOS where Pillow's ICNS encoder fails: the
    export completes, and the seven frames it writes for iconutil are RGBA. *)
Theorem raster_icns_fallback_frames_keep_alpha :
  transparentBg Runs.icns_of_png = false
  /\ (@on_create Demo.darwin_no_icns Runs.icns_of_png empty_world).1
     = Information "Done" "Export complete"
  /\ map (fun e => (PurePath.name e.1, mode <$> artifact_image e.2))
       (written (@on_create Demo.darwin_no_icns Runs.icns_of_png empty_world).2)
     = [ ("icon_16x16.png", Some MRGBA); ("icon_32x32.png", Some MRGBA);
         ("icon_64x64.png", Some MRGBA); ("icon_128x128.png", Some MRGBA);
         ("icon_256x256.png", Some MRGBA); ("icon_512x512.png", Some MRGBA);
         ("icon_1024x1024.png", Some MRGBA); ("icon.icns", None) ].
Proof. vm_compute. repeat split. Qed.

(** The same request for a vector source writes RGB frames. *)
Lemma vector_icns_fallback_frames_are_rgb :
  map (fun e => (PurePath.name e.1, mode <$> artifact_image e.2))
    (written (@on_create Demo.darwin_no_icns Runs.icns_of_svg empty_world).2)
  = [ ("icon_16x16.png", Some MRGB); ("icon_32x32.png", Some MRGB);
      ("icon_64x64.png", Some MRGB); ("icon_128x128.png", Some MRGB);
      ("icon_256x256.png", Some MRGB); ("icon_512x512.png", Some MRGB);
      ("icon_1024x1024.png", Some MRGB); ("icon.icns", None) ].
Proof. vm_compute. reflexivity. Qed.

(** ** Collisions of output names: claim C5 *)

(** C5 at a failing input. The Linux icon set exported twice into the same
    directory: the second run writes the same ten paths again, each of which
    existed, and no suffixed name appears. *)
Theorem size_set_export_overwrites :
  (@on_create Demo.linux Runs.linux_set Runs.linux_set_exported).1
  = Information "Done" "Export complete"
  /\ map fst (drop (length (written Runs.linux_set_exported))
                (written (@on_create Demo.linux Runs.linux_set Runs.linux_set_exported).2))
     = map fst (written Runs.linux_set_exported)
  /\ forallb (fun e => path_exists (fs Runs.linux_set_exported) e.1)
       (drop (length (written Runs.linux_set_exported))
          (written (@on_create Demo.linux Runs.linux_set Runs.linux_set_exported).2))
     = true
  /\ size (fs (@on_create Demo.linux Runs.linux_set Runs.linux_set_exported).2)
     = size (fs Runs.linux_set_exported)
  /\ fs (@on_create Demo.linux Runs.linux_set Runs.linux_set_exported).2
       !! ["out"; "linux"; "a"; "a_16x16_1.png"] = None.
Proof. vm_compute. repeat split. Qed.

(** The custom export, in the same situation, picks a new name. *)
Lemma custom_export_twice_adds_suffix :
  map fst (written (@on_create Demo.linux Runs.custom_png Runs.custom_png_exported).2)
  = [ ["out"; "custom"; "a_64x64.png"]; ["out"; "custom"; "a_64x64_1.png"] ].
Proof. vm_compute. reflexivity. Qed.

Section NoOverwrite.
Context `{B : Backend}.

Lemma mkdir_go_keeps_absent done todo files files' p :
  mkdir_go done todo files = Ok files' -> files' !! p = None -> files !! p = None.
Proof.
  revert done files. induction todo as [|c todo IH]; intros done files; simpl.
  - by intros [= ->].
  - destruct (files !! (done // c)) as [[|a]|] eqn:Hc; [apply IH | done |].
    intros Hgo Hp. pose proof (IH _ _ Hgo Hp) as Hin.
    destruct (decide (done // c = p)) as [<-|Hne].
    + by rewrite lookup_insert_eq in Hin.
    + by rewrite lookup_insert_ne in Hin.
Qed.

(** The custom export writes only to a path that did not exist. *)
Lemma save_custom_never_overwrites svg_path out_dir name wd ht fmt transparent zoom padding bg w :
  Forall (fun e => fs w !! e.1 = None)
    (writes (save_custom svg_path out_dir name wd ht fmt transparent zoom padding bg) w).
Proof.
  unfold writes, save_custom, mbind, M_bind.
  unfold mkdir at 1.
  destruct (mkdir_go [] out_dir (fs w)) as [files|e] eqn:Hmk.
  2:{ simpl. rewrite drop_all. constructor. }
  set (w1 := mkWorld files (raster_log w) (written w)).
  pose proof (render_svg_to_pillow_world svg_path wd ht zoom padding transparent (Some bg) w1) as Hw2.
  destruct (render_svg_to_pillow _ _ _ _ _ _ _ w1) as [[img|e] w2]; simpl in Hw2; subst w2.
  2:{ simpl. rewrite drop_all. constructor. }
  set (w2 := after_raster w1 _).
  destruct (unique_path_fresh
              (out_dir // (name +:+ "_" +:+ pretty wd +:+ "x" +:+ pretty ht +:+ "."
                           +:+ Str.lower fmt)) w2) as (k & -> & Hfree & _).
  { rewrite name_joinpath. apply str_app_nonempty. by rewrite str_app_cons. }
  set (out := candidate _ k) in *.
  assert (Habsent : fs w !! out = None).
  { apply (mkdir_go_keeps_absent _ _ _ _ _ Hmk). exact Hfree. }
  assert (Hsave : forall im format,
    Forall (fun e => fs w !! e.1 = None)
      (drop (length (written w)) (written (Image_save im out format [] w2).2))).
  { intros im format. unfold Image_save.
    destruct (match format with Some f => Some f | None => _ end) as [f|];
      [|simpl; rewrite drop_all; constructor].
    rewrite Hfree.
    destruct (can_encode f im); simpl; [|rewrite drop_all; constructor].
    rewrite drop_app_length. by repeat constructor. }
  destruct (bool_decide (Str.lower fmt = "pdf")); apply Hsave.
Qed.

End NoOverwrite.

(** ** Instances of the statements above *)


Lemma render_centering_offset_witness :
  exists canvas w' raw content,
    Runs.render_odd empty_world = (Ok canvas, w')
    /\ Demo.rasterize "a.svg" 10 7 (Some (255, 0, 0)) = Ok raw
    /\ @fit_work_area Demo.linux 15 11 (@convert Demo.linux MRGB raw) w' = (Ok content, w')
    /\ Z.of_N (width canvas) = 15
    /\ Z.of_N (height canvas) = 11
    /\ forall x y,
         getpixel canvas x y =
         if in_box ((15 - Z.of_N (width content)) `div` 2)
                   ((11 - Z.of_N (height content)) `div` 2)
                   (width content) (height content) x y
         then getpixel content (x - (15 - Z.of_N (width content)) `div` 2)
                               (y - (11 - Z.of_N (height content)) `div` 2)
         else (255, 0, 0, 255).
Proof.
  destruct (@render_centering_offset Demo.linux "a.svg" 15 11 (7 # 10) 0 false (Some Demo.red_bg)
              empty_world _ _ eq_refl)
    as (raw & content & Hraw & Hfit & _ & _ & Hsw & Hsh & Hpx & _).
  eexists _, _, raw, content. split; [reflexivity|].
  split; [exact Hraw|]. split; [exact Hfit|]. split; [exact Hsw|]. split; [exact Hsh|].
  exact Hpx.
Defined.

Lemma pillow_flatten_idempotent_witness :
  mode Runs.gray_image <> MRGBA
  /\ @pillow_flatten Demo.linux Runs.gray_image (255, 0, 0, 255)
     = @convert Demo.linux MRGB Runs.gray_image.
Proof.
  assert (Hne : mode Runs.gray_image <> MRGBA) by discriminate.
  split; [exact Hne|].
  apply (proj2 (@pillow_flatten_idempotent Demo.linux Runs.gray_image (255, 0, 0, 255)) Hne).
Defined.

(** ** Start-up without the rasterizer: claim C7 *)

(** C7, as the code has it. When importing the rasterizer raises OSError
    the program leaves with status 1 before the form exists, whatever export
    requests were to follow: none is served and the world, hence every file,
    is as it was. What it has written to stderr is the error header, the
    text of the OSError and the remediation line for the platform: the one
    for macOS on Darwin, the one for Windows on Windows, the one for Linux
    anywhere else. *)
Theorem missing_backend_exits_at_startup `{B : Backend}
    (e : string) (requests : list Form) (w : World) :
  program (ImportOSError e) requests w
  = Exited 1
      (String "010" "ERROR: The Cairo graphics library required by CairoSVG is not installed."
       +:+ String "010" e
       +:+ String "010" (String "010" "To fix this, follow the instructions for your platform:")
       +:+ String "010" (String "010"
             (if bool_decide (platform_system = "Darwin") then
                "macOS: Run 'brew install cairo' in Terminal. If you don't have Homebrew, install it from https://brew.sh first."
              else if bool_decide (platform_system = "Windows") then
                "Windows: Install GTK3 and Cairo using MSYS2 or download prebuilt binaries. See https://pycairo.readthedocs.io/en/latest/getting_started.html#windows."
              else
                "Linux: Run 'sudo apt-get install libcairo2' or use your distro's package manager."))
       +:+ String "010" EmptyString)
      w.
Proof.
  unfold program, import_guard.
  destruct (bool_decide (platform_system = "Darwin"));
    [|destruct (bool_decide (platform_system = "Windows"))];
    cbn [app join_lines]; f_equal;
    rewrite !str_app_assoc, !str_app_cons, !str_app_assoc; reflexivity.
Qed.

(** C7, as stated, fails: with the rasterizer missing the export request is
    not answered by an error the caller could catch, the program has left. *)
Lemma missing_backend_serves_no_export :
  ~ exists dialogs w',
      @program Demo.linux (ImportOSError "no library called cairo was found")
        [Runs.custom_png] empty_world = Served dialogs w'.
Proof.
  intros (dialogs & w' & H). vm_compute in H. discriminate H.
Qed.

(** ** Raster sources: claim C10 *)

(** A source whose name ends in .png has a name. *)
Lemma is_png_source_nonempty (path : string) :
  is_png_source path = true -> bool_decide (path = EmptyString) = false.
Proof. intros H. apply bool_decide_eq_false. intros ->. discriminate H. Qed.

(** C10. The raster-source render is the source opened, converted to RGBA
    and resized to the target size, whatever keyword arguments come along and
    without touching the world; and the preview of a raster source is the
    same for two forms that differ only in zoom, padding, transparency,
    background colour (or format and destination). *)
Theorem raster_source_render_ignores_settings `{B : Backend}
    (path : string) (wd ht : Z) (kwargs : list (string * KwValue)) (f f' : Form) (w : World) :
  png_render_to_pillow path wd ht kwargs w
  = (match image_open path with
     | Ok src => Image_resize (convert MRGBA src) (wd, ht)
     | Raise e => Raise e
     end, w)
  /\ (is_png_source path = true ->
      svg_path f = Some path -> svg_path f' = Some path ->
      profileCombo f' = profileCombo f ->
      widthSpin f' = widthSpin f -> heightSpin f' = heightSpin f ->
      update_preview f' w = update_preview f w
      /\ update_preview f w
         = (match (if bool_decide (profileCombo f = "Create Windows icon (.ico)")
                   then png_render_to_pillow path 256 256 []
                   else if bool_decide (profileCombo f = "Create macOS icon (.icns)")
                   then png_render_to_pillow path 1024 1024 []
                   else png_render_to_pillow path (widthSpin f) (heightSpin f) []) w with
            | (Ok pil, w1) => (PreviewPixmap pil, w1)
            | (Raise e, w1) => (PreviewError e, w1)
            end)).
Proof.
  split.
  - unfold png_render_to_pillow, mbind, M_bind, lift.
    by destruct (image_open path).
  - intros Hpng Hf Hf' Hprofile Hwd Hht.
    unfold update_preview, preview_image.
    rewrite Hf, Hf', Hprofile, Hwd, Hht, Hpng, (is_png_source_nonempty _ Hpng).
    split; [reflexivity|].
    change (list_max WINDOWS_ICO_SIZES) with 256.
    change (list_max MAC_ICON_SIZES) with 1024.
    unfold png_render_to_pillow.
    repeat (destruct (bool_decide _); [reflexivity|]). reflexivity.
Qed.

Lemma raster_source_render_ignores_settings_witness :
  is_png_source "logo.PNG" = true
  /\ @update_preview Demo.linux Runs.preview_form_other_settings empty_world
     = @update_preview Demo.linux Runs.preview_form empty_world.
Proof.
  split; [reflexivity|].
  apply (proj2 (@raster_source_render_ignores_settings Demo.linux "logo.PNG" 0 0 []
                  Runs.preview_form Runs.preview_form_other_settings empty_world));
    reflexivity.
Defined.

(** * Further properties of the code *)

(** X1. [unique_path] changes nothing. On a path that has a name it always
    returns: the path itself when it is free, else the first of stem_1,
    stem_2, ... that is free, every earlier candidate being taken; the result
    stays in the same directory. On a path without a name it returns the
    path when nothing is there and raises ValueError when something is, as
    pathlib has no name to put the counter in. *)
Theorem unique_path_first_free (path : Path) (w : World) :
  (unique_path path w).2 = w
  /\ (PurePath.name path <> EmptyString ->
      exists k,
        unique_path path w = (Ok (candidate path k), w)
        /\ fs w !! candidate path k = None
        /\ (forall j, (j < k)%nat -> is_Some (fs w !! candidate path j))
        /\ (k = 0%nat <-> fs w !! path = None)
        /\ removelast (candidate path k) = removelast path
        /\ (k <= size (fs w))%nat)
  /\ (PurePath.name path = EmptyString ->
      unique_path path w
      = (if path_exists (fs w) path
         then Raise (ValueError "path has an empty name") else Ok path, w)).
Proof.
  split; [apply unique_path_world|]. split.
  - intros Hname.
    destruct (unique_path_fresh path w Hname) as (k & Hrun & Hfree & Hbusy).
    exists k. split; [done|]. split; [done|]. split; [done|]. split; [|split].
    + split.
      * by intros ->.
      * intros Hpath. destruct k as [|k]; [done|].
        destruct (Hbusy 0%nat) as [n Hn]; [lia|]. simpl in Hn. congruence.
    + destruct k as [|k]; [done|].
      unfold candidate. by rewrite removelast_last.
    + apply (candidates_bound (fs w) path). intros j Hj.
      apply path_exists_spec, elem_of_dom, Hbusy, Hj.
  - intros Hname. unfold unique_path. simpl.
    destruct (path_exists (fs w) path); [|reflexivity].
    by rewrite with_stem_nameless.
Qed.

Section Geometry.
Context `{B : Backend}.

Lemma clamp_zoom_high (zoom : Q) : (1 <= zoom)%Q -> clamp_zoom zoom = 1%Q.
Proof.
  intros H. unfold clamp_zoom, Py.min.
  destruct (Qlt_le_dec zoom 1) as [Hlt|_]; [|reflexivity].
  exfalso. apply (Qlt_irrefl 1). by apply Qle_lt_trans with zoom.
Qed.

Lemma clamp_zoom_low (zoom : Q) : (zoom <= 1 # 10)%Q -> clamp_zoom zoom = (1 # 10)%Q.
Proof.
  intros H. unfold clamp_zoom, Py.min, Py.max.
  destruct (Qlt_le_dec zoom 1) as [_|Hge].
  - destruct (Qlt_le_dec (1 # 10) zoom) as [Hlt|_]; [|reflexivity].
    exfalso. apply (Qlt_irrefl zoom). by apply Qle_lt_trans with (1 # 10)%Q.
  - exfalso. assert (Hc : (1 <= 1 # 10)%Q) by (by apply Qle_trans with zoom).
    by apply Hc.
Qed.

End Geometry.

(** X3. Whatever the zoom and the padding, a render asks the rasterizer
    exactly once, for a size that is at least 1 x 1 and at most the work
    area (canvas minus padding on both sides, floored at 1): content is never
    rendered larger than the area it has to fit. *)
Theorem render_requests_at_most_work_area `{B : Backend}
    (svg_path : string) (wd ht : Z) (zoom : Q) (padding : Z) (transparent : bool)
    (bg_color : option QColor) (w : World) :
  raster_calls (render_svg_to_pillow svg_path wd ht zoom padding transparent bg_color) w
  = [raster_request svg_path wd ht zoom padding transparent bg_color]
  /\ 1 <= rc_width (raster_request svg_path wd ht zoom padding transparent bg_color)
       <= Z.max 1 (Z.max 1 wd - 2 * padding)
  /\ 1 <= rc_height (raster_request svg_path wd ht zoom padding transparent bg_color)
       <= Z.max 1 (Z.max 1 ht - 2 * padding).
Proof.
  split; [|split].
  - apply raster_calls_app. by rewrite render_svg_to_pillow_world.
  - apply render_size_within_work. lia.
  - apply render_size_within_work. lia.
Qed.

(** X4. The zoom is clamped: any zoom of 1 or more renders exactly as zoom 1,
    any zoom of 0.1 or less exactly as zoom 0.1. *)
Theorem render_zoom_out_of_range `{B : Backend}
    (svg_path : string) (wd ht : Z) (zoom : Q) (padding : Z) (transparent : bool)
    (bg_color : option QColor) (w : World) :
  ((1 <= zoom)%Q ->
   render_svg_to_pillow svg_path wd ht zoom padding transparent bg_color w
   = render_svg_to_pillow svg_path wd ht 1 padding transparent bg_color w)
  /\ ((zoom <= 1 # 10)%Q ->
      render_svg_to_pillow svg_path wd ht zoom padding transparent bg_color w
      = render_svg_to_pillow svg_path wd ht (1 # 10) padding transparent bg_color w).
Proof.
  split; intros H; unfold render_svg_to_pillow.
  - by rewrite (clamp_zoom_high zoom H).
  - by rewrite (clamp_zoom_low zoom H).
Qed.

(** X5. Degenerate sizes: a width (height) below 1 renders exactly as width
    (height) 1, and when the padding leaves no room in a direction the
    rasterizer is asked for a single pixel in that direction. *)
Theorem render_degenerate_sizes `{B : Backend}
    (svg_path : string) (wd ht : Z) (zoom : Q) (padding : Z) (transparent : bool)
    (bg_color : option QColor) (w : World) :
  (wd <= 1 ->
   render_svg_to_pillow svg_path wd ht zoom padding transparent bg_color w
   = render_svg_to_pillow svg_path 1 ht zoom padding transparent bg_color w)
  /\ (ht <= 1 ->
      render_svg_to_pillow svg_path wd ht zoom padding transparent bg_color w
      = render_svg_to_pillow svg_path wd 1 zoom padding transparent bg_color w)
  /\ (Z.max 1 wd <= 2 * padding ->
      rc_width (raster_request svg_path wd ht zoom padding transparent bg_color) = 1)
  /\ (Z.max 1 ht <= 2 * padding ->
      rc_height (raster_request svg_path wd ht zoom padding transparent bg_color) = 1).
Proof.
  repeat split.
  - intros H. unfold render_svg_to_pillow. by rewrite (Z.max_l 1 wd) by lia.
  - intros H. unfold render_svg_to_pillow. by rewrite (Z.max_l 1 ht) by lia.
  - intros H. simpl.
    pose proof (render_size_within_work (Z.max 1 (Z.max 1 wd - 2 * padding)) zoom) as Hb.
    rewrite (Z.max_l 1 (Z.max 1 wd - 2 * padding)) in * by lia. lia.
  - intros H. simpl.
    pose proof (render_size_within_work (Z.max 1 (Z.max 1 ht - 2 * padding)) zoom) as Hb.
    rewrite (Z.max_l 1 (Z.max 1 ht - 2 * padding)) in * by lia. lia.
Qed.

(** X6. With padding >= 0 and 2*padding < min(width, height), a rendered
    canvas has the size asked for and shows nothing of the content within
    [padding] pixels of any of its four edges: every pixel of the canvas
    there has the background colour (fully transparent in transparent
    mode). *)
Theorem render_keeps_padding_free `{B : Backend}
    (svg_path : string) (wd ht : Z) (zoom : Q) (padding : Z) (transparent : bool)
    (bg_color : option QColor) (w : World) (canvas : Image) (w' : World) :
  0 <= padding ->
  2 * padding < Z.min wd ht ->
  render_svg_to_pillow svg_path wd ht zoom padding transparent bg_color w = (Ok canvas, w') ->
  Z.of_N (width canvas) = wd
  /\ Z.of_N (height canvas) = ht
  /\ forall x y,
       0 <= x < wd -> 0 <= y < ht ->
       x < padding \/ wd - padding <= x \/ y < padding \/ ht - padding <= y ->
       getpixel canvas x y
       = if transparent then (0, 0, 0, 0)
         else (red (default QColor_white bg_color), green (default QColor_white bg_color),
               blue (default QColor_white bg_color), 255).
Proof.
  intros Hpad Hfit Hrun.
  apply render_svg_to_pillow_content in Hrun
    as (raw & content & _ & _ & -> & Hmode & Hcw & Hch).
  pose proof (img_size_composite_canvas transparent (default QColor_white bg_color)
                (Z.max 1 wd) (Z.max 1 ht) content) as Hsz.
  unfold img_size in Hsz. injection Hsz as Hsw Hsh.
  replace (Z.max 1 wd) with wd in * by lia.
  replace (Z.max 1 ht) with ht in * by lia.
  split; [rewrite Hsw; lia|]. split; [rewrite Hsh; lia|].
  intros x y Hx Hy Hmargin.
  rewrite getpixel_composite_canvas by done.
  pose proof (Z.div_mod (wd - Z.of_N (width content)) 2).
  pose proof (Z.mod_pos_bound (wd - Z.of_N (width content)) 2).
  pose proof (Z.div_mod (ht - Z.of_N (height content)) 2).
  pose proof (Z.mod_pos_bound (ht - Z.of_N (height content)) 2).
  assert (Hout : in_box ((wd - Z.of_N (width content)) `div` 2)
                   ((ht - Z.of_N (height content)) `div` 2)
                   (width content) (height content) x y = false).
  { unfold in_box. rewrite !andb_false_iff, !Z.leb_gt, !Z.ltb_ge. lia. }
  by rewrite Hout.
Qed.

(** X7. Flattening keeps the size of the image, does not look at the alpha
    of the background colour, and on an RGBA image gives, at every pixel of
    the image, the blend of the image's colour over the background colour
    weighted by the image's alpha at that pixel. *)
Theorem pillow_flatten_blends_over_background `{B : Backend}
    (img : Image) (r g b a a' : Z) :
  img_size (pillow_flatten img (r, g, b, a)) = img_size img
  /\ pillow_flatten img (r, g, b, a) = pillow_flatten img (r, g, b, a')
  /\ (mode img = MRGBA ->
      forall x y,
        in_box 0 0 (width img) (height img) x y = true ->
        getpixel (pillow_flatten img (r, g, b, a)) x y
        = blend (getpixel img x y).2 (r, g, b, 255)
            (convert_px MRGBA MRGB (getpixel img x y))).
Proof.
  split; [apply img_size_pillow_flatten|]. split; [reflexivity|].
  intros Hmode x y Hin.
  unfold pillow_flatten, paste, convert. rewrite Hmode. simpl.
  rewrite Hin, !Z.sub_0_r.
  by destruct (getpixel img x y) as [[[? ?] ?] ?].
Qed.

Section Frames.
Context `{B : Backend}.

Lemma steps_refl b w : steps b w w.
Proof. exists []. rewrite app_nil_r. repeat split; auto. Qed.

Lemma steps_same_files b w w' :
  fs w' = fs w -> written w' = written w -> steps b w w'.
Proof.
  intros Hfs Hwr. exists []. rewrite app_nil_r, Hfs. repeat split; auto.
Qed.

Lemma steps_emptying w w' : steps false w w' -> steps true w w'.
Proof.
  intros (new & Hw & Hk & Hf). exists new. split; [done|]. split; [done|].
  intros p. destruct (Hf p) as [H | [H | [H | [H _]]]]; auto. discriminate H.
Qed.

Lemma steps_trans b w1 w2 w3 : steps b w1 w2 -> steps b w2 w3 -> steps b w1 w3.
Proof.
  intros (new12 & Hw12 & Hk12 & Hf12) (new23 & Hw23 & Hk23 & Hf23).
  exists (new12 ++ new23). split; [by rewrite Hw23, Hw12, app_assoc|]. split; [auto|].
  intros p. rewrite fmap_app, elem_of_app.
  destruct (Hf23 p) as [H23 | [H23 | [[H2 H3] | (Hb & [a Ha] & H3)]]]; [|tauto| |].
  - destruct (Hf12 p) as [H12 | [H12 | [[H1 H2] | (Hb & Ha & H2)]]].
    + left. congruence.
    + tauto.
    + right. right. left. split; congruence.
    + right. right. right. split; [done|]. split; [done|]. congruence.
  - destruct (Hf12 p) as [H12 | [H12 | [[H1 H2'] | (Hb & Ha & H2')]]].
    + right. right. left. split; congruence.
    + tauto.
    + congruence.
    + congruence.
  - destruct (Hf12 p) as [H12 | [H12 | [[H1 H2'] | (_ & Ha' & H2')]]].
    + right. right. right. split; [done|]. split; [|done]. exists a. congruence.
    + tauto.
    + congruence.
    + right. right. right. by split.
Qed.

Lemma framed_silent {A} (m : M A) : (forall w, (m w).2 = w) -> framed m.
Proof. intros Hm w. unfold framed_at. rewrite Hm. split; [|intros _ _]; apply steps_refl. Qed.

Lemma framed_clean {A} (m : M A) : (forall w, steps false w (m w).2) -> framed m.
Proof. intros Hm w. split; [apply steps_emptying, Hm | intros _ _; apply Hm]. Qed.

Lemma framed_ret {A} (a : A) : framed (mret a : M A).
Proof. by apply framed_silent. Qed.

Lemma framed_raise {A} (e : Exn) : framed (raise e : M A).
Proof. by apply framed_silent. Qed.

Lemma framed_lift {A} (r : Result A) : framed (lift r).
Proof. by apply framed_silent. Qed.

Lemma framed_bind {A C} (m : M A) (f : A -> M C) :
  framed m -> (forall a, framed (f a)) -> framed (m ≫= f).
Proof.
  intros Hm Hf w. unfold framed_at. rewrite M_bind_run.
  destruct (Hm w) as [Hany Hok]. destruct (m w) as [[a|e] w1]; simpl in *.
  - destruct (Hf a w1) as [Hany' Hok']. split.
    + eapply steps_trans; [exact Hany | exact Hany'].
    + intros c Hc. eapply steps_trans; [by eapply Hok | by eapply Hok'].
  - split; [exact Hany | done].
Qed.

Lemma framed_for_each {A} (l : list A) (body : A -> M unit) :
  (forall x, framed (body x)) -> framed (for_each l body).
Proof.
  intros Hbody. induction l as [|x l IH]; simpl.
  - apply framed_ret.
  - apply framed_bind; [apply Hbody | by intros _].
Qed.

(** A handler that takes over from a computation which has left the files
    as they were when it failed. *)
Lemma framed_try_except {A} (m : M A) (handler : Exn -> M A) (w : World) :
  framed_at m w -> steps false w (m w).2 ->
  (forall e, framed (handler e)) -> framed_at (try_except m handler) w.
Proof.
  intros [Hany Hok] Hclean Hh. unfold framed_at, try_except.
  destruct (m w) as [[a|e] w1]; simpl in *; [by split|].
  assert (Hcatch : framed_at (fun _ => handler e w1) w).
  { destruct (Hh e w1) as [Hany' Hok']. split.
    - eapply steps_trans; [exact Hany | exact Hany'].
    - intros a Ha. eapply steps_trans; [exact Hclean | by eapply Hok']. }
  destruct e; try exact Hcatch. split; [exact Hany | done].
Qed.

Lemma mkdir_go_frame done todo files files' :
  mkdir_go done todo files = Ok files' ->
  forall p, files' !! p = files !! p \/ (files !! p = None /\ files' !! p = Some Dir).
Proof.
  revert done files. induction todo as [|c todo IH]; intros done files; simpl.
  - intros [= ->]. auto.
  - destruct (files !! (done // c)) as [[|a]|] eqn:Hc; [apply IH | done |].
    intros Hgo p. destruct (IH _ _ Hgo p) as [Heq | [Hnone Hdir]].
    + destruct (decide (done // c = p)) as [<-|Hne].
      * rewrite lookup_insert_eq in Heq. auto.
      * rewrite lookup_insert_ne in Heq by done. auto.
    + destruct (decide (done // c = p)) as [<-|Hne].
      * by rewrite lookup_insert_eq in Hnone.
      * rewrite lookup_insert_ne in Hnone by done. auto.
Qed.

Lemma framed_mkdir p : framed (mkdir p).
Proof.
  apply framed_clean. intros w. unfold mkdir.
  destruct (mkdir_go [] p (fs w)) as [files|e] eqn:Hgo; [|apply steps_refl].
  exists []. simpl. rewrite app_nil_r. split; [done|].
  pose proof (mkdir_go_frame _ _ _ _ Hgo) as Hf. split.
  - intros q Hq. destruct (Hf q) as [-> | [Hnone _]]; [done|].
    rewrite Hnone in Hq. by destruct Hq.
  - intros q. destruct (Hf q); auto.
Qed.

Lemma framed_unique_path p : framed (unique_path p).
Proof. apply framed_silent. apply unique_path_world. Qed.

Lemma framed_py_max_list l : framed (py_max_list l).
Proof. apply framed_silent. intros w. by destruct l. Qed.

Lemma framed_render svg_path wd ht zoom padding transparent bg_color :
  framed (render_svg_to_pillow svg_path wd ht zoom padding transparent bg_color).
Proof.
  apply framed_clean. intros w. rewrite render_svg_to_pillow_world. by apply steps_same_files.
Qed.

Lemma framed_png_render path wd ht kwargs : framed (png_render_to_pillow path wd ht kwargs).
Proof.
  apply framed_silent. intros w. unfold png_render_to_pillow, lift. rewrite !M_bind_run.
  by destruct (image_open path).
Qed.

Lemma steps_insert b w p n a :
  steps b w (mkWorld (<[p := n]> (fs w)) (raster_log w) (written w ++ [(p, a)])).
Proof.
  exists [(p, a)]. simpl. split; [done|]. split.
  - intros q Hq. destruct (decide (p = q)) as [<-|Hne].
    + by rewrite lookup_insert_eq.
    + by rewrite lookup_insert_ne.
  - intros q. destruct (decide (p = q)) as [<-|Hne].
    + right. left. set_solver.
    + left. by rewrite lookup_insert_ne.
Qed.

Lemma steps_truncate w p a :
  fs w !! p = Some (File a) ->
  steps true w (mkWorld (<[p := File Truncated]> (fs w)) (raster_log w) (written w)).
Proof.
  intros Hp. exists []. simpl. rewrite app_nil_r. split; [done|]. split.
  - intros q Hq. destruct (decide (p = q)) as [<-|Hne].
    + by rewrite lookup_insert_eq.
    + by rewrite lookup_insert_ne.
  - intros q. destruct (decide (p = q)) as [<-|Hne].
    + right. right. right. rewrite lookup_insert_eq. eauto.
    + left. by rewrite lookup_insert_ne.
Qed.

Lemma framed_save img path format sizes : framed (Image_save img path format sizes).
Proof.
  intros w. unfold framed_at, Image_save.
  destruct (match format with Some f => Some f | None => _ end) as [f|];
    [|split; [|done]; apply steps_refl].
  destruct (fs w !! path) as [[|a]|] eqn:Hp.
  - split; [|done]. apply steps_refl.
  - destruct (can_encode f img); simpl.
    + split; [|intros _ _]; apply steps_insert.
    + split; [|done]. by apply steps_truncate with a.
  - destruct (can_encode f img); simpl.
    + split; [|intros _ _]; apply steps_insert.
    + split; [|done]. apply steps_refl.
Qed.

(** A save at a path where nothing is leaves the files as they are when
    it fails. *)
Lemma save_fresh_clean img path f sizes w :
  fs w !! path = None -> steps false w (Image_save img path (Some f) sizes w).2.
Proof.
  intros Hp. rewrite Image_save_fresh by done.
  destruct (can_encode f img); [apply steps_insert | apply steps_refl].
Qed.

Lemma framed_run_iconutil iconset icns_path : framed (run_iconutil iconset icns_path).
Proof.
  apply framed_clean. intros w. unfold run_iconutil. simpl.
  destruct (_ =? 0); [apply steps_insert | apply steps_refl].
Qed.

(** The Pillow attempt of an icon export, at a name [unique_path] picked,
    with the fallback that takes over when it fails. *)
Lemma framed_save_or_fallback (p : Path) (c : string) (src : Image) (f : string)
    (handler : Path -> Exn -> M unit) :
  c <> EmptyString ->
  (forall out e, framed (handler out e)) ->
  framed (out ← unique_path (p // c); try_except (Image_save src out (Some f) []) (handler out)).
Proof.
  intros Hc Hh w.
  destruct (unique_path_fresh (p // c) w) as (k & Hrun & Hfree & _).
  { by rewrite name_joinpath. }
  unfold framed_at. rewrite M_bind_run, Hrun.
  apply framed_try_except; [apply framed_save | by apply save_fresh_clean | apply Hh].
Qed.

Lemma framed_fallback (iconset icns_path : Path) (sizes : list Z) (produce : Z -> M Image)
    (e : Exn) :
  (forall s, framed (produce s)) ->
  framed (if bool_decide (platform_system = "Darwin") then
            mkdir iconset;;
            for_each sizes (fun s =>
              img ← produce s;
              Image_save img
                (iconset // ("icon_" +:+ pretty s +:+ "x" +:+ pretty s +:+ ".png")) None []);;
            proc ← run_iconutil iconset icns_path;
            if negb (proc.1 =? 0)
            then raise (RuntimeError ("ICNS export failed (Pillow + iconutil): "
                                      +:+ StrMore.strip proc.2))
            else mret tt
          else raise e).
Proof.
  intros Hp. destruct (bool_decide _); [|apply framed_raise].
  apply framed_bind; [apply framed_mkdir|]. intros _.
  apply framed_bind.
  { apply framed_for_each. intros s.
    apply framed_bind; [apply Hp|]. intros img. apply framed_save. }
  intros _. apply framed_bind; [apply framed_run_iconutil|].
  intros proc. destruct (negb _); [apply framed_raise | apply framed_ret].
Qed.

Lemma framed_export_svg_source src out_dir name profile fmt wd ht transparent zoom padding bg :
  framed (export_svg_source src out_dir name profile fmt wd ht transparent zoom padding bg).
Proof.
  assert (Hicns : forall d sizes,
    framed (save_macos_icns src d sizes transparent zoom padding bg)).
  { intros d sizes. unfold save_macos_icns.
    repeat (apply framed_bind; [first [apply framed_mkdir | apply framed_py_max_list
                                      | apply framed_render]|]; intros ?).
    apply (framed_save_or_fallback d "icon.icns" _ "ICNS"
             (fun icns_path e =>
                if bool_decide (platform_system = "Darwin") then
                  mkdir (d // "icon.iconset");;
                  for_each sizes (fun s =>
                    img ← render_svg_to_pillow src s s zoom padding transparent (Some bg);
                    Image_save img
                      (d // "icon.iconset"
                         // ("icon_" +:+ pretty s +:+ "x" +:+ pretty s +:+ ".png")) None []);;
                  proc ← run_iconutil (d // "icon.iconset") icns_path;
                  if negb (proc.1 =? 0)
                  then raise (RuntimeError ("ICNS export failed (Pillow + iconutil): "
                                            +:+ StrMore.strip proc.2))
                  else mret tt
                else raise e)); [done|].
    intros out e. apply framed_fallback. intros s. apply framed_render. }
  unfold export_svg_source.
  repeat (destruct (bool_decide _); [first [apply Hicns | idtac]|]).
  all: try apply framed_ret.
  all: unfold save_custom, save_windows_ico, save_png_set, save_wallpapers.
  all: repeat (apply framed_bind; [first [apply framed_mkdir | apply framed_py_max_list
                                      | apply framed_render | apply framed_unique_path]|]; intros ?).
  all: try (destruct (bool_decide _)).
  all: try apply framed_save.
  all: apply framed_for_each; intros s;
       (apply framed_bind; [apply framed_render|]); intros img; apply framed_save.
Qed.

Lemma framed_export_png_source src out_dir name profile fmt wd ht transparent zoom padding bg m :
  export_png_source src out_dir name profile fmt wd ht transparent zoom padding bg = Some m ->
  framed m.
Proof.
  assert (Hicns : forall d sizes,
    framed (save_macos_icns_png src d sizes transparent zoom padding bg)).
  { intros d sizes. unfold save_macos_icns_png.
    repeat (apply framed_bind; [first [apply framed_mkdir | apply framed_py_max_list
                                      | apply framed_png_render]|]; intros ?).
    apply (framed_save_or_fallback d "icon.icns" _ "ICNS"
             (fun icns_path e =>
                if bool_decide (platform_system = "Darwin") then
                  mkdir (d // "icon.iconset");;
                  for_each sizes (fun s =>
                    img ← png_render_to_pillow src s s [];
                    Image_save img
                      (d // "icon.iconset"
                         // ("icon_" +:+ pretty s +:+ "x" +:+ pretty s +:+ ".png")) None []);;
                  proc ← run_iconutil (d // "icon.iconset") icns_path;
                  if negb (proc.1 =? 0)
                  then raise (RuntimeError ("ICNS export failed (Pillow + iconutil): "
                                            +:+ StrMore.strip proc.2))
                  else mret tt
                else raise e)); [done|].
    intros out e. apply framed_fallback. intros s. apply framed_png_render. }
  unfold export_png_source.
  repeat (destruct (bool_decide _); [intros [= <-]; first [apply Hicns | idtac]|]).
  all: try discriminate.
  all: unfold save_custom_png, save_windows_ico_png, save_png_set_png, save_wallpapers_png.
  all: repeat (apply framed_bind; [first [apply framed_mkdir | apply framed_py_max_list
                                      | apply framed_png_render | apply framed_unique_path]|]; intros ?).
  all: try (destruct (bool_decide _)).
  all: try apply framed_save.
  all: apply framed_for_each; intros s;
       (apply framed_bind; [apply framed_png_render|]); intros img; apply framed_save.
Qed.

(** What [on_create] answers, and what a run that ends in each answer
    has done to the files. *)
Lemma on_create_framed (f : Form) (w : World) :
  ((on_create f w).1 = Information "Done" "Export complete"
   /\ steps false w (on_create f w).2)
  \/ ((exists e, (on_create f w).1 = Critical "Error" e)
      /\ steps true w (on_create f w).2)
  \/ ((on_create f w).1 <> Information "Done" "Export complete"
      /\ (on_create f w).2 = w).
Proof.
  assert (Hfinish : forall m : M unit, framed m ->
    let r := match m w with
             | (Ok _, world') => (Information "Done" "Export complete", world')
             | (Raise e, world') => (Critical "Error" e, world')
             end in
    (r.1 = Information "Done" "Export complete" /\ steps false w r.2)
    \/ ((exists e, r.1 = Critical "Error" e) /\ steps true w r.2)
    \/ (r.1 <> Information "Done" "Export complete" /\ r.2 = w)).
  { intros m Hm. destruct (Hm w) as [Hany Hok].
    destruct (m w) as [[[]|e] w1]; simpl in *.
    - left. split; [done|]. by apply (Hok tt).
    - right. left. split; [by exists e | done]. }
  unfold on_create.
  destruct (svg_path f) as [src|]; [|right; right; by split].
  destruct (bool_decide (src = EmptyString)); [right; right; by split|].
  destruct (chosen_dir f) as [out_dir|]; [|right; right; by split].
  destruct (is_png_source src).
  - destruct (export_png_source _ _ _ _ _ _ _ _ _ _ _) as [m|] eqn:Hm;
      [|right; right; by split].
    apply Hfinish. by eapply framed_export_png_source.
  - apply Hfinish. apply framed_export_svg_source.
Qed.

End Frames.

(** X10. Whatever the form holds, [on_create] never removes an entry of the
    file system, and every path keeps exactly what it held unless it is one
    of the paths the export wrote, a directory created where nothing was,
    or a file that a failed save has left empty. An export that reports
    success has emptied no file; and a file the export does not write is
    left as it was, or empty when the export reports an error. *)
Theorem on_create_touches_only_what_it_writes `{B : Backend} (f : Form) (w : World) :
  steps true w (on_create f w).2
  /\ ((on_create f w).1 = Information "Done" "Export complete" ->
      steps false w (on_create f w).2)
  /\ (forall p a,
        fs w !! p = Some (File a) ->
        p ∉ (drop (length (written w)) (written (on_create f w).2)).*1 ->
        fs (on_create f w).2 !! p = Some (File a)
        \/ (fs (on_create f w).2 !! p = Some (File Truncated)
            /\ exists e, (on_create f w).1 = Critical "Error" e)).
Proof.
  assert (Hkept : forall b w', steps b w w' ->
    forall p a, fs w !! p = Some (File a) ->
      p ∉ (drop (length (written w)) (written w')).*1 ->
      fs w' !! p = Some (File a) \/ (b = true /\ fs w' !! p = Some (File Truncated))).
  { intros b w' (new & Hw & _ & Hf) p a Hp Hnot.
    rewrite Hw, drop_app_length in Hnot.
    destruct (Hf p) as [Heq | [Hin | [[Hnone _] | (Hb & _ & Ht)]]];
      [left; congruence | done | congruence | by right]. }
  destruct (on_create_framed f w) as [[Hd Hs] | [[He Hs] | [Hd Hs]]].
  - split; [by apply steps_emptying|]. split; [done|].
    intros p a Hp Hnot. destruct (Hkept _ _ Hs p a Hp Hnot) as [H | [H _]]; [by left | done].
  - split; [done|]. split.
    + intros Hd. destruct He as [e He]. congruence.
    + intros p a Hp Hnot. destruct (Hkept _ _ Hs p a Hp Hnot) as [H | [_ H]]; auto.
  - rewrite Hs. split; [apply steps_refl|]. split; [done|]. auto.
Qed.

Section FreshNames.
Context `{B : Backend}.

Lemma save_at_unique_path_fresh (w0 w : World) (p : Path) (save : Path -> M unit) :
  PurePath.name p <> EmptyString ->
  written w = written w0 ->
  (forall q, fs w !! q = None -> fs w0 !! q = None) ->
  (forall out, exists img format sizes, save out = Image_save img out format sizes) ->
  Forall (fun e => fs w0 !! e.1 = None)
    (drop (length (written w0)) (written ((unique_path p ≫= save) w).2)).
Proof.
  intros Hname Hwr Habs Hsave. unfold mbind, M_bind.
  destruct (unique_path_fresh p w Hname) as (k & -> & Hfree & _).
  destruct (Hsave (candidate p k)) as (img & format & sizes & ->).
  unfold Image_save.
  destruct (match format with Some f => Some f | None => _ end) as [f|];
    [|simpl; rewrite Hwr, drop_all; constructor].
  rewrite Hfree.
  destruct (can_encode f img); simpl; rewrite Hwr; [|rewrite drop_all; constructor].
  rewrite drop_app_length. repeat constructor. simpl. by apply Habs.
Qed.

Lemma mkdir_absent p w q : fs (mkdir p w).2 !! q = None -> fs w !! q = None.
Proof.
  unfold mkdir. destruct (mkdir_go [] p (fs w)) as [files|e] eqn:Hgo; [|done].
  simpl. by apply (mkdir_go_keeps_absent _ _ _ _ _ Hgo).
Qed.

(** The Windows icon export writes only to a path that did not exist. *)
Lemma save_windows_ico_never_overwrites svg_path out_dir sizes transparent zoom padding bg w :
  Forall (fun e => fs w !! e.1 = None)
    (writes (save_windows_ico svg_path out_dir sizes transparent zoom padding bg) w).
Proof.
  unfold writes, save_windows_ico. unfold mbind at 1, M_bind at 1.
  pose proof (mkdir_written out_dir w) as Hw1.
  pose proof (mkdir_absent out_dir w) as Ha1.
  destruct (mkdir out_dir w) as [[[]|e] w1]; simpl in Hw1, Ha1;
    [|simpl; rewrite Hw1, drop_all; constructor].
  unfold mbind at 1, M_bind at 1.
  destruct sizes as [|s0 sizes]; [simpl; rewrite Hw1, drop_all; constructor|].
  unfold py_max_list, mret, M_ret.
  unfold mbind at 1, M_bind at 1.
  pose proof (render_svg_to_pillow_world svg_path (list_max (s0 :: sizes)) (list_max (s0 :: sizes))
                zoom padding transparent (Some bg) w1) as Hw2.
  destruct (render_svg_to_pillow _ _ _ _ _ _ _ w1) as [[src|e] w2]; simpl in Hw2; subst w2;
    [|simpl; rewrite Hw1, drop_all; constructor].
  apply save_at_unique_path_fresh; [by rewrite name_joinpath | done | exact Ha1 | eauto].
Qed.

End FreshNames.

(** X2. The custom export and the Windows icon export never write to a path
    that existed before the call: what they write goes to a new name. *)
Theorem custom_and_ico_exports_never_overwrite `{B : Backend}
    (svg_path : string) (out_dir : Path) (name : string) (wd ht : Z) (fmt : string)
    (sizes : list Z) (transparent : bool) (zoom : Q) (padding : Z) (bg : QColor) (w : World) :
  Forall (fun e => fs w !! e.1 = None)
    (writes (save_custom svg_path out_dir name wd ht fmt transparent zoom padding bg) w)
  /\ Forall (fun e => fs w !! e.1 = None)
       (writes (save_windows_ico svg_path out_dir sizes transparent zoom padding bg) w).
Proof.
  split.
  - apply save_custom_never_overwrites.
  - apply save_windows_ico_never_overwrites.
Qed.

(** X8. A render fails exactly as the rasterizer does: when the rasterizer
    raises, the render raises the same exception; when it returns an image
    without pixels, the render raises ZeroDivisionError. In both cases the
    rasterizer call is the only trace. *)
Theorem render_propagates_rasterizer_failure `{B : Backend}
    (svg_path : string) (wd ht : Z) (zoom : Q) (padding : Z) (transparent : bool)
    (bg_color : option QColor) (w : World) :
  (forall e,
     svg2png svg_path
       (rc_width (raster_request svg_path wd ht zoom padding transparent bg_color))
       (rc_height (raster_request svg_path wd ht zoom padding transparent bg_color))
       (rc_background (raster_request svg_path wd ht zoom padding transparent bg_color))
     = Raise e ->
     render_svg_to_pillow svg_path wd ht zoom padding transparent bg_color w
     = (Raise e,
        after_raster w (raster_request svg_path wd ht zoom padding transparent bg_color)))
  /\ (forall raw,
        svg2png svg_path
          (rc_width (raster_request svg_path wd ht zoom padding transparent bg_color))
          (rc_height (raster_request svg_path wd ht zoom padding transparent bg_color))
          (rc_background (raster_request svg_path wd ht zoom padding transparent bg_color))
        = Ok raw ->
        width raw = 0%N \/ height raw = 0%N ->
        render_svg_to_pillow svg_path wd ht zoom padding transparent bg_color w
        = (Raise ZeroDivisionError,
           after_raster w (raster_request svg_path wd ht zoom padding transparent bg_color))).
Proof.
  split.
  - intros e He. unfold render_svg_to_pillow, mbind, M_bind, cairosvg_svg2png.
    simpl in He. by rewrite He.
  - intros raw Hraw Hzero. unfold render_svg_to_pillow, mbind, M_bind, cairosvg_svg2png.
    simpl in Hraw. rewrite Hraw.
    rewrite fit_work_area_zero; [reflexivity|].
    by rewrite width_convert, height_convert.
Qed.

(** X11. The preview never touches the disk: it leaves the file system and
    the log of writes as they are. It makes no rasterizer call without a
    source (none loaded, or an empty name) or for a raster source, and
    exactly one for a vector source. *)
Theorem update_preview_leaves_files_alone `{B : Backend} (f : Form) (w : World) :
  fs (update_preview f w).2 = fs w
  /\ written (update_preview f w).2 = written w
  /\ exists calls,
       raster_log (update_preview f w).2 = raster_log w ++ calls
       /\ length calls
          = match svg_path f with
            | Some path =>
                if bool_decide (path = EmptyString) then 0%nat
                else if is_png_source path then 0%nat else 1%nat
            | None => 0%nat
            end.
Proof.
  unfold update_preview.
  destruct (svg_path f) as [path|].
  2:{ repeat split. exists []. by rewrite app_nil_r. }
  destruct (bool_decide (path = EmptyString)).
  { repeat split. exists []. by rewrite app_nil_r. }
  unfold preview_image.
  destruct (if bool_decide _ then _ else _) as [pw ph].
  destruct (is_png_source path).
  - unfold mbind, M_bind, lift.
    destruct (image_open path) as [pil|e]; simpl.
    + destruct (Image_resize _ _); simpl; repeat split; exists []; by rewrite app_nil_r.
    + repeat split. exists []. by rewrite app_nil_r.
  - pose proof (render_svg_to_pillow_world path pw ph (inject_Z (zoomSlider f) / 100)
                  (paddingSpin f) (transparentBg f) (Some (bgColor f)) w) as Hw.
    destruct (render_svg_to_pillow _ _ _ _ _ _ _ w) as [[pil|e] w1]; simpl in *; subst w1;
      simpl; repeat split; by eexists [_].
Qed.

Section SizeSets.
Context `{B : Backend}.

Lemma Image_save_paths img p format sizes w :
  (Image_save img p format sizes w).1 = Ok tt
  /\ (written (Image_save img p format sizes w).2).*1 = (written w).*1 ++ [p]
  \/ (exists e, (Image_save img p format sizes w).1 = Raise e)
     /\ written (Image_save img p format sizes w).2 = written w.
Proof.
  unfold Image_save.
  destruct (match format with Some f => Some f | None => _ end) as [f|]; [|right; eauto].
  destruct (fs w !! p) as [[|a]|]; try (right; by eauto);
    (destruct (can_encode f img); simpl; [left | right; eauto]);
    by rewrite fmap_app.
Qed.

(** A loop that produces an image per item and saves it writes the files of
    a prefix of the items, in order, and of all of them when it succeeds. *)
Lemma produce_and_save_each {A} (produce : A -> M Image) (post : A -> Image -> Image)
    (dest : A -> Path) (l : list A) (w : World) :
  (forall x w0, written (produce x w0).2 = written w0) ->
  exists k,
    (k <= length l)%nat
    /\ (written (for_each l (fun x =>
          img ← produce x; Image_save (post x img) (dest x) None []) w).2).*1
       = (written w).*1 ++ (dest <$> take k l)
    /\ ((for_each l (fun x =>
          img ← produce x; Image_save (post x img) (dest x) None []) w).1 = Ok tt ->
        k = length l).
Proof.
  intros Hquiet. revert w. induction l as [|x l IH]; intros w; simpl.
  - exists 0%nat. simpl. rewrite app_nil_r. auto.
  - rewrite !M_bind_run.
    pose proof (Hquiet x w) as Hp.
    destruct (produce x w) as [[img|e] w1]; simpl in Hp.
    2:{ exists 0%nat. simpl. rewrite Hp, app_nil_r. repeat split; try lia; try done. }
    destruct (Image_save_paths (post x img) (dest x) None [] w1) as [[Hok Hw] | [[e He] Hw]].
    + destruct (Image_save _ _ _ _ w1) as [[[]|e] w2]; simpl in Hok, Hw; [|done].
      destruct (IH w2) as (k & Hk & Hpaths & Hall).
      exists (S k). simpl. split; [lia|]. split.
      * rewrite Hpaths, Hw, Hp. by rewrite <- app_assoc.
      * intros Hr. f_equal. by apply Hall.
    + destruct (Image_save _ _ _ _ w1) as [[[]|e'] w2]; simpl in He, Hw; [done|].
      exists 0%nat. simpl. rewrite Hw, Hp, app_nil_r. repeat split; try lia; try done.
Qed.

End SizeSets.

(** X9. A size-set export and a wallpaper export write, in the order of
    the size list, the files name_WxH.fmt of a prefix of that list, under
    out_dir/label/name (wallpapers: out_dir/wallpapers/label/name) with the
    format in lower case: all of them when the export succeeds, and those
    before the first failure otherwise (nothing is rolled back). *)
Theorem size_set_export_writes_a_prefix `{B : Backend}
    (svg_path : string) (out_dir : Path) (label name : string) (sizes : list Z)
    (wallpapers : list (Z * Z)) (transparent : bool) (zoom : Q) (padding : Z) (bg : QColor)
    (fmt : string) (w : World) :
  (exists k,
     (k <= length sizes)%nat
     /\ (writes (save_png_set svg_path out_dir label name sizes
                   transparent zoom padding bg fmt) w).*1
        = (fun s => out_dir // label // name // sized_name name (s, s) (Str.lower fmt))
          <$> take k sizes
     /\ ((save_png_set svg_path out_dir label name sizes
            transparent zoom padding bg fmt w).1 = Ok tt -> k = length sizes))
  /\ (exists k,
        (k <= length wallpapers)%nat
        /\ (writes (save_wallpapers svg_path out_dir label name wallpapers
                      transparent zoom padding bg fmt) w).*1
           = (fun d => out_dir // "wallpapers" // label // name
                       // sized_name name d (Str.lower fmt))
             <$> take k wallpapers
        /\ ((save_wallpapers svg_path out_dir label name wallpapers
               transparent zoom padding bg fmt w).1 = Ok tt -> k = length wallpapers)).
Proof.
  split.
  - unfold writes, save_png_set. rewrite M_bind_run.
    pose proof (mkdir_written (out_dir // label // name) w) as Hm.
    destruct (mkdir _ w) as [[[]|e] w1]; simpl in Hm.
    2:{ exists 0%nat. simpl. rewrite Hm, drop_all. repeat split; try lia; try done. }
    destruct (produce_and_save_each
                (fun s => render_svg_to_pillow svg_path s s zoom padding transparent (Some bg))
                (fun _ img =>
                   if in_tuple (Str.lower fmt) ["jpg"; "jpeg"; "bmp"] || negb transparent
                   then pillow_flatten img (qcolor_to_rgba_tuple bg) else img)
                (fun s => out_dir // label // name // sized_name name (s, s) (Str.lower fmt))
                sizes w1) as (k & Hk & Hpaths & Hall).
    { intros s w0. apply (render_written svg_path zoom padding transparent bg (s, s)). }
    exists k. split; [done|]. split; [|exact Hall].
    rewrite fmap_drop.
    unfold sized_name in Hpaths. simpl in Hpaths. rewrite Hpaths, Hm.
    by rewrite <- (length_fmap fst (written w)), drop_app_length.
  - unfold writes, save_wallpapers. rewrite M_bind_run.
    pose proof (mkdir_written (out_dir // "wallpapers" // label // name) w) as Hm.
    destruct (mkdir _ w) as [[[]|e] w1]; simpl in Hm.
    2:{ exists 0%nat. simpl. rewrite Hm, drop_all. repeat split; try lia; try done. }
    destruct (produce_and_save_each
                (fun sz : Z * Z =>
                   render_svg_to_pillow svg_path sz.1 sz.2 zoom padding transparent (Some bg))
                (fun _ img =>
                   if in_tuple (Str.lower fmt) ["jpg"; "jpeg"; "bmp"] || negb transparent
                   then pillow_flatten img (qcolor_to_rgba_tuple bg) else img)
                (fun d => out_dir // "wallpapers" // label // name
                          // sized_name name d (Str.lower fmt))
                wallpapers w1) as (k & Hk & Hpaths & Hall).
    { intros sz w0. apply render_written. }
    exists k. split; [done|]. split; [|exact Hall].
    rewrite fmap_drop.
    unfold sized_name in Hpaths. rewrite Hpaths, Hm.
    by rewrite <- (length_fmap fst (written w)), drop_app_length.
Qed.

Section KeepAlpha.
Context `{B : Backend}.

Lemma unflattened_intro composite dims d img format p :
  d ∈ dims -> composite d = Ok img -> mode img = MRGBA ->
  unflattened composite dims (p, Encoded format img []).
Proof. intros Hd Himg Hmode. by exists d, img, format. Qed.

Lemma in_tuple_not_opaque (fmt : string) :
  in_tuple fmt ["jpg"; "jpeg"; "bmp"; "pdf"] = false ->
  bool_decide (fmt = "pdf") = false /\ in_tuple fmt ["jpg"; "jpeg"; "bmp"] = false.
Proof.
  unfold in_tuple. rewrite !bool_decide_eq_false. rewrite !elem_of_cons.
  intros H. split; intros H'; apply H; tauto.
Qed.

End KeepAlpha.

(** X12. With the transparent flag on and a format other than JPG, BMP and
    PDF, the exports of a vector source encode the composited image as it
    is: every file written holds the rendered canvas itself, in mode RGBA. *)
Theorem transparent_exports_keep_alpha `{B : Backend}
    (src : string) (out_dir : Path) (label name : string) (wd ht : Z)
    (sizes : list Z) (wallpapers : list (Z * Z)) (fmt : string)
    (zoom : Q) (padding : Z) (bg : QColor) (w : World) :
  in_tuple (Str.lower fmt) ["jpg"; "jpeg"; "bmp"; "pdf"] = false ->
  Forall (unflattened (svg_composite src zoom padding true bg) [(wd, ht)])
    (writes (save_custom src out_dir name wd ht fmt true zoom padding bg) w)
  /\ Forall (unflattened (svg_composite src zoom padding true bg) (map (fun s => (s, s)) sizes))
       (writes (save_png_set src out_dir label name sizes true zoom padding bg fmt) w)
  /\ Forall (unflattened (svg_composite src zoom padding true bg) wallpapers)
       (writes (save_wallpapers src out_dir label name wallpapers true zoom padding bg fmt) w).
Proof.
  intros Hfmt. apply in_tuple_not_opaque in Hfmt as [Hpdf Hopaque].
  split; [|split]; eapply (triple_writes _ (fun _ => True)).
  - unfold save_custom.
    eapply triple_bind; [apply triple_mkdir|]. intros _ _.
    eapply triple_bind; [apply triple_render|]. intros img [Himg Hmode].
    eapply triple_bind; [apply triple_unique_path|]. intros out _.
    rewrite Hpdf, Hopaque. simpl.
    apply triple_save. intros f.
    apply unflattened_intro with (d := (wd, ht)); [by left | done | done].
  - unfold save_png_set. rewrite Hopaque. simpl.
    eapply triple_bind; [apply triple_mkdir|]. intros _ _.
    apply triple_for_each. intros s Hs.
    eapply triple_bind; [apply triple_render|]. intros img [Himg Hmode].
    apply triple_save. intros f.
    apply unflattened_intro with (d := (s, s)); [|done|done].
    apply list_elem_of_fmap. eauto.
  - unfold save_wallpapers. rewrite Hopaque. simpl.
    eapply triple_bind; [apply triple_mkdir|]. intros _ _.
    apply triple_for_each. intros sz Hsz.
    eapply triple_bind; [apply triple_render|]. intros img [Himg Hmode].
    apply triple_save. intros f.
    apply unflattened_intro with (d := sz); [done | by destruct sz | done].
Qed.

Section IcnsFailure.
Context `{B : Backend}.

Lemma triple_save_refused {P : Path * Artifact -> Prop} img path f sizes :
  can_encode f img = false ->
  triple (Image_save img path (Some f) sizes) (fun _ => False) P.
Proof.
  intros Hno. apply triple_silent.
  - intros w. unfold Image_save. rewrite Hno. by destruct (fs w !! path) as [[|a]|].
  - intros w a. unfold Image_save. rewrite Hno. by destruct (fs w !! path) as [[|a']|].
Qed.

Lemma triple_never {A C} {P : Path * Artifact -> Prop} (m : M A) (f : A -> M C) :
  triple m (fun _ => True) P ->
  (forall a, triple (f a) (fun _ => False) P) ->
  triple (m ≫= f) (fun _ => False) P.
Proof. intros Hm Hf. eapply triple_bind; [exact Hm|]. intros a _. apply Hf. Qed.

End IcnsFailure.

(** X14. Off macOS there is no fallback: when Pillow's ICNS encoder refuses
    the image and the platform is not Darwin, the macOS icon export fails
    and writes no file at all: no icon, no iconset frame. *)
Theorem icns_failure_off_macos_writes_nothing `{B : Backend}
    (svg_path : string) (out_dir : Path) (sizes : list Z) (transparent : bool)
    (zoom : Q) (padding : Z) (bg : QColor) (w : World) :
  platform_system <> "Darwin" ->
  (forall img, can_encode "ICNS" img = false) ->
  (save_macos_icns svg_path out_dir sizes transparent zoom padding bg w).1 <> Ok tt
  /\ writes (save_macos_icns svg_path out_dir sizes transparent zoom padding bg) w = [].
Proof.
  intros Hsys Hno.
  assert (Htriple :
    triple (save_macos_icns svg_path out_dir sizes transparent zoom padding bg)
      (fun _ => False) (fun _ => False)).
  { unfold save_macos_icns.
    apply triple_never; [apply triple_mkdir|]. intros _.
    apply triple_never; [apply triple_py_max_list|]. intros base.
    apply triple_never; [eapply triple_weaken; [|apply triple_render]; done|]. intros img.
    apply triple_never; [apply triple_unique_path|]. intros out.
    apply triple_try_except; [by apply triple_save_refused|].
    intros e. rewrite bool_decide_false by done. apply triple_raise. }
  split.
  - intros Hok. destruct (Htriple w) as [_ Hv]. by apply (Hv tt).
  - pose proof (triple_writes _ _ w Htriple) as Hall.
    destruct (writes _ w) as [|e l]; [done|]. by apply Forall_inv in Hall.
Qed.

Section IconutilFailure.
Context `{B : Backend}.

Lemma triple_run_iconutil_failed {P : Path * Artifact -> Prop} iconset icns_path :
  (forall frames, (iconutil frames).1 <> 0) ->
  triple (run_iconutil iconset icns_path) (fun proc => proc.1 <> 0) P.
Proof.
  intros Hfail. apply triple_silent.
  - intros w. unfold run_iconutil. simpl.
    by rewrite (proj2 (Z.eqb_neq _ 0) (Hfail _)).
  - intros w proc. unfold run_iconutil. simpl. intros [= <-]. apply Hfail.
Qed.

End IconutilFailure.

(** X15. On macOS, when Pillow's ICNS encoder refuses the image and iconutil
    exits with a non-zero code, the macOS icon export fails; the only files
    it has written are iconset frames icon_<s>x<s>.png for sizes of the
    list, which stay on disk, and no icon file is written. *)
Theorem icns_fallback_failure_leaves_frames `{B : Backend}
    (svg_path : string) (out_dir : Path) (sizes : list Z) (transparent : bool)
    (zoom : Q) (padding : Z) (bg : QColor) (w : World) :
  platform_system = "Darwin" ->
  (forall img, can_encode "ICNS" img = false) ->
  (forall frames, (iconutil frames).1 <> 0) ->
  (save_macos_icns svg_path out_dir sizes transparent zoom padding bg w).1 <> Ok tt
  /\ Forall (fun e =>
               exists s img format,
                 s ∈ sizes
                 /\ e = (out_dir // "icon.iconset"
                         // ("icon_" +:+ pretty s +:+ "x" +:+ pretty s +:+ ".png"),
                         Encoded format img []))
       (writes (save_macos_icns svg_path out_dir sizes transparent zoom padding bg) w).
Proof.
  intros Hsys Hno Hfail.
  assert (Htriple :
    triple (save_macos_icns svg_path out_dir sizes transparent zoom padding bg)
      (fun _ => False)
      (fun e => exists s img format,
                  s ∈ sizes
                  /\ e = (out_dir // "icon.iconset"
                          // ("icon_" +:+ pretty s +:+ "x" +:+ pretty s +:+ ".png"),
                          Encoded format img []))).
  { unfold save_macos_icns.
    apply triple_never; [apply triple_mkdir|]. intros _.
    apply triple_never; [apply triple_py_max_list|]. intros base.
    apply triple_never; [eapply triple_weaken; [|apply triple_render]; done|]. intros img.
    apply triple_never; [apply triple_unique_path|]. intros out.
    apply triple_try_except; [by apply triple_save_refused|].
    intros e. rewrite bool_decide_true by done.
    apply triple_never; [apply triple_mkdir|]. intros _.
    apply triple_never.
    { apply triple_for_each. intros s Hs.
      eapply triple_bind; [apply triple_render|]. intros img' _.
      apply triple_save. intros f. by exists s, img', f. }
    intros _.
    eapply triple_bind; [by apply triple_run_iconutil_failed|].
    intros proc Hproc. rewrite (proj2 (Z.eqb_neq _ 0) Hproc). simpl.
    apply triple_raise. }
  split.
  - intros Hok. destruct (Htriple w) as [_ Hv]. by apply (Hv tt).
  - by apply (triple_writes _ (fun _ => False)).
Qed.

Section OfferedFormats.
Context `{B : Backend}.

Lemma flattened_onto_holds_rgb bg composite dims e :
  flattened_onto bg composite dims e -> holds_rgb e.
Proof.
  intros (d & img & format & _ & _ & He & Hmode) img' Himg'.
  rewrite He in Himg'. simpl in Himg'. by injection Himg' as <-.
Qed.

Lemma triple_flattened_rgb {A} (m : M A) bg composite dims w :
  triple m (fun _ => True) (flattened_onto bg composite dims) ->
  Forall holds_rgb (drop (length (written w)) (written (m w).2)).
Proof.
  intros Hm. pose proof (triple_writes _ _ w Hm) as Hall.
  eapply Forall_impl; [exact Hall|]. intros e. apply flattened_onto_holds_rgb.
Qed.

End OfferedFormats.

(** X13. Whatever the other settings and the kind of source: if the format
    of the form is one that [on_profile_changed] offers for the chosen
    profile, and it is JPG, BMP or PDF, then every file [on_create] writes
    holds an RGB image, without alpha. *)
Theorem offered_opaque_formats_write_rgb `{B : Backend} (f : Form) (w : World) :
  formatCombo f ∈ formatItems (on_profile_changed (profileCombo f)) ->
  formatCombo f ∈ ["JPG"; "BMP"; "PDF"] ->
  Forall holds_rgb (drop (length (written w)) (written (on_create f w).2)).
Proof.
  intros Hoffered Hopaque.
  assert (Hnothing : forall w0 : World, Forall holds_rgb (drop (length (written w0)) (written w0))).
  { intros w0. rewrite drop_all. constructor. }
  unfold on_create.
  destruct (svg_path f) as [src|]; [|apply Hnothing].
  destruct (bool_decide (src = EmptyString)); [apply Hnothing|].
  destruct (chosen_dir f) as [out_dir|]; [|apply Hnothing].
  set (name := PurePath.stem (StrMore.to_path src)).
  assert (Hfinish : forall (m : M unit) bg composite dims,
    triple m (fun _ => True) (flattened_onto bg composite dims) ->
    Forall holds_rgb
      (drop (length (written w))
         (written (match m w with
                   | (Ok _, world') => (Information "Done" "Export complete", world')
                   | (Raise e, world') => (Critical "Error" e, world')
                   end).2))).
  { intros m bg composite dims Hm.
    pose proof (triple_flattened_rgb m bg composite dims w Hm) as Hall.
    by destruct (m w) as [[[]|e] w1]. }
  unfold on_profile_changed in Hoffered.
  unfold export_png_source, export_svg_source.
  destruct (bool_decide (profileCombo f = "Custom export")).
  { assert (Hfmt : in_tuple (Str.lower (Str.lower (formatCombo f)))
                     ["jpg"; "jpeg"; "bmp"; "pdf"] = true
                   /\ in_tuple (Str.lower (formatCombo f))
                        ["jpg"; "jpeg"; "bmp"; "pdf"] = true).
    { repeat (apply elem_of_cons in Hopaque as [->|Hopaque]); try done.
      by apply elem_of_nil in Hopaque. }
    destruct Hfmt as [Hfmt2 Hfmt1].
    destruct (is_png_source src).
    - eapply Hfinish, save_custom_png_flattens, Hfmt1.
    - eapply Hfinish, save_custom_flattens, Hfmt2. }
  destruct (bool_decide (profileCombo f = "Create Windows icon (.ico)")).
  { simpl in Hoffered.
    apply elem_of_cons in Hoffered as [Hoffered|Hoffered]; [|by apply elem_of_nil in Hoffered].
    rewrite Hoffered in Hopaque.
    exfalso. repeat (apply elem_of_cons in Hopaque as [Hopaque|Hopaque]); try done.
    by apply elem_of_nil in Hopaque. }
  destruct (bool_decide (profileCombo f = "Create macOS icon (.icns)")).
  { simpl in Hoffered.
    apply elem_of_cons in Hoffered as [Hoffered|Hoffered]; [|by apply elem_of_nil in Hoffered].
    rewrite Hoffered in Hopaque.
    exfalso. repeat (apply elem_of_cons in Hopaque as [Hopaque|Hopaque]); try done.
    by apply elem_of_nil in Hopaque. }
  assert (Hfmt : in_tuple (Str.lower (Str.lower (formatCombo f))) ["jpg"; "jpeg"; "bmp"] = true).
  { simpl in Hoffered.
    repeat (apply elem_of_cons in Hoffered as [Hoffered|Hoffered]);
      try (by apply elem_of_nil in Hoffered);
      rewrite Hoffered in *; try done.
    exfalso. repeat (apply elem_of_cons in Hopaque as [Hopaque|Hopaque]); try done.
    by apply elem_of_nil in Hopaque. }
  destruct (is_png_source src).
  - repeat (destruct (bool_decide _);
            [first [eapply Hfinish, save_png_set_png_flattens, Hfmt
                   | eapply Hfinish, save_wallpapers_png_flattens, Hfmt]|]).
    apply Hnothing.
  - repeat (destruct (bool_decide _);
            [first [eapply Hfinish, save_png_set_flattens, Hfmt
                   | eapply Hfinish, save_wallpapers_flattens, Hfmt]|]).
    pose proof (Hnothing w) as Hn. exact Hn.
Qed.

Section LowerCase.

Lemma lower_char_idem (c : ascii) : Str.lower_char (Str.lower_char c) = Str.lower_char c.
Proof. destruct c as [[] [] [] [] [] [] [] []]; reflexivity. Qed.

Lemma lower_idem (s : string) : Str.lower (Str.lower s) = Str.lower s.
Proof. induction s as [|c s IH]; simpl; [reflexivity|]. by rewrite lower_char_idem, IH. Qed.

End LowerCase.

(** X18. Upper and lower case make no difference: whether a source counts
    as raster does not depend on the case of its name; [on_create] does the
    same for a format text and for its lower-case spelling; and
    save_custom, save_png_set and save_wallpapers, which lower the format
    again, behave the same for a format and for its lower-case spelling. *)
Theorem exports_ignore_letter_case `{B : Backend}
    (src : string) (out_dir : Path) (label name : string) (wd ht : Z)
    (sizes : list Z) (wallpapers : list (Z * Z)) (fmt : string)
    (transparent : bool) (zoom : Q) (padding : Z) (bg : QColor)
    (source : option string) (dir : option Path) (profile : string) (zoomSlider : Z) :
  is_png_source (Str.lower src) = is_png_source src
  /\ on_create (mkForm source dir profile (Str.lower fmt) wd ht zoomSlider padding
                  transparent bg)
     = on_create (mkForm source dir profile fmt wd ht zoomSlider padding transparent bg)
  /\ save_custom src out_dir name wd ht (Str.lower fmt) transparent zoom padding bg
     = save_custom src out_dir name wd ht fmt transparent zoom padding bg
  /\ save_png_set src out_dir label name sizes transparent zoom padding bg (Str.lower fmt)
     = save_png_set src out_dir label name sizes transparent zoom padding bg fmt
  /\ save_wallpapers src out_dir label name wallpapers transparent zoom padding bg (Str.lower fmt)
     = save_wallpapers src out_dir label name wallpapers transparent zoom padding bg fmt.
Proof.
  unfold is_png_source, on_create, save_custom, save_png_set, save_wallpapers. simpl.
  rewrite !lower_idem. done.
Qed.

(** X16. An empty size list: the Windows and the macOS icon export create
    the directory and then fail on [max] of the empty list, before any
    render and without writing; the size-set export writes nothing and
    renders nothing. *)
Theorem exports_of_no_sizes `{B : Backend}
    (svg_path : string) (out_dir : Path) (label name : string) (transparent : bool)
    (zoom : Q) (padding : Z) (bg : QColor) (fmt : string) (w : World) :
  ((save_windows_ico svg_path out_dir [] transparent zoom padding bg w).1 <> Ok tt
   /\ raster_calls (save_windows_ico svg_path out_dir [] transparent zoom padding bg) w = []
   /\ writes (save_windows_ico svg_path out_dir [] transparent zoom padding bg) w = [])
  /\ ((save_macos_icns svg_path out_dir [] transparent zoom padding bg w).1 <> Ok tt
      /\ raster_calls (save_macos_icns svg_path out_dir [] transparent zoom padding bg) w = []
      /\ writes (save_macos_icns svg_path out_dir [] transparent zoom padding bg) w = [])
  /\ (raster_calls (save_png_set svg_path out_dir label name [] transparent zoom padding bg fmt) w
      = []
      /\ writes (save_png_set svg_path out_dir label name [] transparent zoom padding bg fmt) w
         = []).
Proof.
  unfold raster_calls, writes, save_windows_ico, save_macos_icns, save_png_set.
  rewrite !M_bind_run.
  pose proof (mkdir_raster_log out_dir w) as Hr1.
  pose proof (mkdir_written out_dir w) as Hw1.
  pose proof (mkdir_raster_log (out_dir // label // name) w) as Hr2.
  pose proof (mkdir_written (out_dir // label // name) w) as Hw2.
  destruct (mkdir out_dir w) as [[[]|e1] w1];
    destruct (mkdir (out_dir // label // name) w) as [[[]|e2] w2];
    simpl in *; rewrite ?Hr1, ?Hw1, ?Hr2, ?Hw2, !drop_all; repeat split; done.
Qed.


Section NoResample.
Context `{B : Backend}.

Lemma Q_one_le_div_of_le (c w : Z) : 0 < c -> c <= w -> (1 <= inject_Z w / inject_Z c)%Q.
Proof.
  intros Hc Hcw. apply Qle_shift_div_l.
  - unfold Qlt. simpl. lia.
  - unfold Qle. simpl. lia.
Qed.

Lemma Py_min3_ge_1 (a b : Q) : (1 <= a)%Q -> (1 <= b)%Q -> Py.ltb (Py.min3 a b 1) 1 = false.
Proof.
  intros Ha Hb. unfold Py.ltb, Py.min3, Py.min.
  destruct (Qlt_le_dec b a); destruct (Qlt_le_dec 1 _); destruct (Qlt_le_dec _ 1) as [H|H];
    try reflexivity; exfalso; revert H; apply Qle_not_lt; done.
Qed.

(** Content that fits the work area passes the re-clamp as it is. *)
Lemma fit_work_area_id (work_w work_h : Z) (content : Image) (w : World) :
  0 < Z.of_N (width content) <= work_w ->
  0 < Z.of_N (height content) <= work_h ->
  fit_work_area work_w work_h content w = (Ok content, w).
Proof.
  intros Hcw Hch. unfold fit_work_area.
  rewrite (proj2 (Z.eqb_neq _ 0)) by lia.
  rewrite (proj2 (Z.eqb_neq _ 0)) by lia. simpl.
  rewrite Py_min3_ge_1; [reflexivity| |]; apply Q_one_le_div_of_le; lia.
Qed.

End NoResample.

(** X19. Content is never enlarged and not resampled without need: when
    the image the rasterizer returns fits the work area, smaller or equal,
    the canvas holds that very image (converted to the mode asked for),
    centred; this is the case whenever the rasterizer honours the size it
    was asked for. *)
Theorem render_keeps_fitting_content `{B : Backend}
    (svg_path : string) (wd ht : Z) (zoom : Q) (padding : Z) (transparent : bool)
    (bg_color : option QColor) (raw : Image) (w : World) :
  svg2png svg_path
    (rc_width (raster_request svg_path wd ht zoom padding transparent bg_color))
    (rc_height (raster_request svg_path wd ht zoom padding transparent bg_color))
    (rc_background (raster_request svg_path wd ht zoom padding transparent bg_color))
  = Ok raw ->
  (0 < Z.of_N (width raw) <= Z.max 1 (Z.max 1 wd - 2 * padding)
   /\ 0 < Z.of_N (height raw) <= Z.max 1 (Z.max 1 ht - 2 * padding))
  \/ (Z.of_N (width raw)
      = rc_width (raster_request svg_path wd ht zoom padding transparent bg_color)
      /\ Z.of_N (height raw)
         = rc_height (raster_request svg_path wd ht zoom padding transparent bg_color)) ->
  render_svg_to_pillow svg_path wd ht zoom padding transparent bg_color w
  = (Ok (composite_canvas transparent (default QColor_white bg_color)
           (Z.max 1 wd) (Z.max 1 ht)
           (convert (if transparent then MRGBA else MRGB) raw)),
     after_raster w (raster_request svg_path wd ht zoom padding transparent bg_color)).
Proof.
  intros Hraw Hfits.
  assert (Hsize :
    0 < Z.of_N (width raw) <= Z.max 1 (Z.max 1 wd - 2 * padding)
    /\ 0 < Z.of_N (height raw) <= Z.max 1 (Z.max 1 ht - 2 * padding)).
  { destruct Hfits as [Hfits | [Hw Hh]]; [exact Hfits|].
    rewrite Hw, Hh. simpl.
    pose proof (render_size_within_work (Z.max 1 (Z.max 1 wd - 2 * padding)) zoom) as H1.
    pose proof (render_size_within_work (Z.max 1 (Z.max 1 ht - 2 * padding)) zoom) as H2.
    lia. }
  destruct Hsize as [Hcw Hch].
  unfold render_svg_to_pillow, cairosvg_svg2png. rewrite M_bind_run.
  simpl in Hraw. rewrite Hraw. rewrite M_bind_run.
  rewrite fit_work_area_id; [reflexivity| |]; by rewrite ?width_convert, ?height_convert.
Qed.

Section Rasterless.
Context `{B : Backend}.

Lemma rasterless_bind {A C} (m : M A) (f : A -> M C) :
  rasterless m -> (forall a, rasterless (f a)) -> rasterless (m ≫= f).
Proof.
  intros Hm Hf w. rewrite M_bind_run. specialize (Hm w).
  destruct (m w) as [[a|e] w1]; simpl in *; [|done].
  by rewrite Hf.
Qed.

Lemma rasterless_ret {A} (a : A) : rasterless (mret a).
Proof. done. Qed.

Lemma rasterless_raise {A} (e : Exn) : rasterless (raise (A := A) e).
Proof. done. Qed.

Lemma rasterless_lift {A} (r : Result A) : rasterless (lift r).
Proof. done. Qed.

Lemma rasterless_for_each {A} (l : list A) (body : A -> M unit) :
  (forall x, rasterless (body x)) -> rasterless (for_each l body).
Proof.
  intros Hbody. induction l as [|x l IH]; simpl; [done|].
  apply rasterless_bind; [apply Hbody | done].
Qed.

Lemma rasterless_try_except {A} (m : M A) (handler : Exn -> M A) :
  rasterless m -> (forall e, rasterless (handler e)) -> rasterless (try_except m handler).
Proof.
  intros Hm Hh w. unfold try_except. specialize (Hm w).
  destruct (m w) as [[a|e] w1]; simpl in *; [done|].
  destruct e; try done; by rewrite Hh.
Qed.

Lemma rasterless_mkdir (p : Path) : rasterless (mkdir p).
Proof. intros w. apply mkdir_raster_log. Qed.

Lemma rasterless_unique_path (p : Path) : rasterless (unique_path p).
Proof. intros w. by rewrite unique_path_world. Qed.

Lemma rasterless_py_max_list (l : list Z) : rasterless (py_max_list l).
Proof. intros w. by destruct l. Qed.

Lemma rasterless_save img path format sizes : rasterless (Image_save img path format sizes).
Proof. intros w. apply Image_save_raster_log. Qed.

Lemma rasterless_run_iconutil iconset icns_path : rasterless (run_iconutil iconset icns_path).
Proof. intros w. apply run_iconutil_raster_log. Qed.

Lemma rasterless_png_render path wd ht kwargs :
  rasterless (png_render_to_pillow path wd ht kwargs).
Proof.
  unfold png_render_to_pillow.
  apply rasterless_bind; [apply rasterless_lift|]. intros img. apply rasterless_lift.
Qed.

Lemma rasterless_save_png_set_png src out_dir label name sizes transparent zoom padding bg fmt :
  rasterless (save_png_set_png src out_dir label name sizes transparent zoom padding bg fmt).
Proof.
  unfold save_png_set_png.
  apply rasterless_bind; [apply rasterless_mkdir|]. intros _.
  apply rasterless_for_each. intros s.
  apply rasterless_bind; [apply rasterless_png_render|]. intros img.
  apply rasterless_save.
Qed.

Lemma rasterless_save_wallpapers_png src out_dir label name sizes transparent zoom padding
    bg fmt :
  rasterless (save_wallpapers_png src out_dir label name sizes transparent zoom padding bg fmt).
Proof.
  unfold save_wallpapers_png.
  apply rasterless_bind; [apply rasterless_mkdir|]. intros _.
  apply rasterless_for_each. intros sz.
  apply rasterless_bind; [apply rasterless_png_render|]. intros img.
  apply rasterless_save.
Qed.

Lemma rasterless_export_png_source src out_dir name profile fmt wd ht transparent zoom
    padding bg m :
  export_png_source src out_dir name profile fmt wd ht transparent zoom padding bg = Some m ->
  rasterless m.
Proof.
  unfold export_png_source.
  repeat (destruct (bool_decide _); [intros [= <-] | ]); try discriminate;
    try apply rasterless_save_png_set_png; try apply rasterless_save_wallpapers_png.
  - unfold save_custom_png.
    apply rasterless_bind; [apply rasterless_mkdir|]. intros _.
    apply rasterless_bind; [apply rasterless_png_render|]. intros img.
    apply rasterless_bind; [apply rasterless_unique_path|]. intros out.
    destruct (bool_decide _); apply rasterless_save.
  - unfold save_windows_ico_png.
    apply rasterless_bind; [apply rasterless_mkdir|]. intros _.
    apply rasterless_bind; [apply rasterless_py_max_list|]. intros base.
    apply rasterless_bind; [apply rasterless_png_render|]. intros img.
    apply rasterless_bind; [apply rasterless_unique_path|]. intros out.
    apply rasterless_save.
  - unfold save_macos_icns_png.
    apply rasterless_bind; [apply rasterless_mkdir|]. intros _.
    apply rasterless_bind; [apply rasterless_py_max_list|]. intros base.
    apply rasterless_bind; [apply rasterless_png_render|]. intros img.
    apply rasterless_bind; [apply rasterless_unique_path|]. intros out.
    apply rasterless_try_except; [apply rasterless_save|]. intros e.
    destruct (bool_decide _); [|apply rasterless_raise].
    apply rasterless_bind; [apply rasterless_mkdir|]. intros _.
    apply rasterless_bind.
    { apply rasterless_for_each. intros s.
      apply rasterless_bind; [apply rasterless_png_render|]. intros img'.
      apply rasterless_save. }
    intros _.
    apply rasterless_bind; [apply rasterless_run_iconutil|]. intros proc.
    destruct (negb _); [apply rasterless_raise | apply rasterless_ret].
Qed.

End Rasterless.

(** X20. A raster source never reaches the rasterizer: whatever the profile,
    the format and the other settings, and whether the export succeeds or
    fails, [on_create] on a source whose name ends in .png (in any case)
    makes no rasterizer call; neither does the preview. *)
Theorem raster_source_never_rasterized `{B : Backend} (f : Form) (src : string) (w : World) :
  svg_path f = Some src ->
  is_png_source src = true ->
  raster_log (on_create f w).2 = raster_log w
  /\ raster_log (update_preview f w).2 = raster_log w.
Proof.
  intros Hsrc Hpng. split.
  - unfold on_create. rewrite Hsrc, (is_png_source_nonempty _ Hpng).
    destruct (chosen_dir f) as [out_dir|]; [|done].
    rewrite Hpng.
    destruct (export_png_source _ _ _ _ _ _ _ _ _ _ _) as [m|] eqn:Hm; [|done].
    pose proof (rasterless_export_png_source _ _ _ _ _ _ _ _ _ _ _ _ Hm w) as Hlog.
    by destruct (m w) as [[[]|e] w1].
  - unfold update_preview. rewrite Hsrc, (is_png_source_nonempty _ Hpng).
    assert (Hlog : rasterless (preview_image src f)).
    { unfold preview_image. destruct (if bool_decide _ then _ else _) as [wd ht].
      rewrite Hpng.
      apply rasterless_bind; [apply rasterless_lift|]. intros img. apply rasterless_lift. }
    specialize (Hlog w). by destruct (preview_image src f w) as [[pil|e] w1].
Qed.

Section Unloadable.
Context `{B : Backend}.

Lemma triple_fails_bind {A C} {P : Path * Artifact -> Prop} (m : M A) (f : A -> M C) :
  triple m (fun _ => False) P -> triple (m ≫= f) (fun _ => False) P.
Proof. intros Hm. eapply triple_bind; [exact Hm|]. by intros a []. Qed.

Lemma triple_for_each_fails {A} {P : Path * Artifact -> Prop} (l : list A)
    (body : A -> M unit) :
  l <> [] ->
  (forall x, triple (body x) (fun _ => False) P) ->
  triple (for_each l body) (fun _ => False) P.
Proof.
  intros Hl Hbody. destruct l as [|x l]; [done|]. simpl.
  apply triple_fails_bind, Hbody.
Qed.

Lemma triple_render_fails {P : Path * Artifact -> Prop} svg_path wd ht zoom padding
    transparent bg_color :
  (forall rw rh bgc, exists e, svg2png svg_path rw rh bgc = Raise e) ->
  triple (render_svg_to_pillow svg_path wd ht zoom padding transparent bg_color)
    (fun _ => False) P.
Proof.
  intros Hbad. apply triple_silent.
  - intros w. by rewrite render_svg_to_pillow_world.
  - intros w img. unfold render_svg_to_pillow, cairosvg_svg2png. rewrite M_bind_run.
    match goal with |- context [svg2png ?a ?b ?c ?d] =>
      destruct (Hbad b c d) as [e ->] end.
    done.
Qed.

Lemma triple_png_render_fails {P : Path * Artifact -> Prop} path wd ht kwargs :
  (exists e, image_open path = Raise e) ->
  triple (png_render_to_pillow path wd ht kwargs) (fun _ => False) P.
Proof.
  intros [e He]. apply triple_silent.
  - intros w. unfold png_render_to_pillow, lift. rewrite M_bind_run. by rewrite He.
  - intros w img. unfold png_render_to_pillow, lift. rewrite M_bind_run. by rewrite He.
Qed.

(** An export that cannot load its source returns no value and writes
    nothing. *)
Lemma export_svg_source_unloadable src out_dir name profile fmt wd ht transparent zoom
    padding bg :
  profile ∈ PROFILES ->
  (forall rw rh bgc, exists e, svg2png src rw rh bgc = Raise e) ->
  triple (export_svg_source src out_dir name profile fmt wd ht transparent zoom padding bg)
    (fun _ => False) (fun _ => False).
Proof.
  intros Hprofile Hbad. unfold export_svg_source.
  repeat case_bool_decide.
  11:{ exfalso. unfold PROFILES in Hprofile.
       repeat (apply elem_of_cons in Hprofile as [Hprofile|Hprofile]; [done|]).
       by apply elem_of_nil in Hprofile. }
  all: unfold save_custom, save_windows_ico, save_macos_icns, save_png_set, save_wallpapers.
  all: apply triple_never; [apply triple_mkdir|]; intros _.
  all: try (apply triple_never; [apply triple_py_max_list|]; intros base).
  all: try (apply triple_fails_bind; by apply triple_render_fails).
  all: apply triple_for_each_fails; [done|]; intros s.
  all: apply triple_fails_bind; by apply triple_render_fails.
Qed.

Lemma export_png_source_unloadable src out_dir name profile fmt wd ht transparent zoom
    padding bg :
  profile ∈ PROFILES ->
  (exists e, image_open src = Raise e) ->
  exists m,
    export_png_source src out_dir name profile fmt wd ht transparent zoom padding bg = Some m
    /\ triple m (fun _ => False) (fun _ => False).
Proof.
  intros Hprofile Hbad. unfold export_png_source.
  repeat case_bool_decide.
  11:{ exfalso. unfold PROFILES in Hprofile.
       repeat (apply elem_of_cons in Hprofile as [Hprofile|Hprofile]; [done|]).
       by apply elem_of_nil in Hprofile. }
  all: eexists; split; [reflexivity|].
  all: unfold save_custom_png, save_windows_ico_png, save_macos_icns_png, save_png_set_png,
         save_wallpapers_png.
  all: apply triple_never; [apply triple_mkdir|]; intros _.
  all: try (apply triple_never; [apply triple_py_max_list|]; intros base).
  all: try (apply triple_fails_bind; by apply triple_png_render_fails).
  all: apply triple_for_each_fails; [done|]; intros s.
  all: apply triple_fails_bind; by apply triple_png_render_fails.
Qed.

End Unloadable.

(** X21. A source that cannot be loaded leaves no output: with a source
    name that is not empty and a directory chosen, when the rasterizer
    raises on a vector source, or Pillow cannot open a raster source,
    [on_create] ends, for each of the ten profiles of the form, in the
    Error dialog and has written no file. *)
Theorem unloadable_source_writes_nothing `{B : Backend}
    (f : Form) (src : string) (out_dir : Path) (w : World) :
  svg_path f = Some src ->
  src <> EmptyString ->
  chosen_dir f = Some out_dir ->
  profileCombo f ∈ PROFILES ->
  (is_png_source src = false -> forall rw rh bgc, exists e, svg2png src rw rh bgc = Raise e) ->
  (is_png_source src = true -> exists e, image_open src = Raise e) ->
  (exists e, (on_create f w).1 = Critical "Error" e)
  /\ written (on_create f w).2 = written w.
Proof.
  intros Hsrc Hname Hdir Hprofile Hsvg Hpng.
  assert (Hfinish : forall m : M unit,
    triple m (fun _ => False) (fun _ => False) ->
    (exists e, (match m w with
                | (Ok _, world') => (Information "Done" "Export complete", world')
                | (Raise e, world') => (Critical "Error" e, world')
                end).1 = Critical "Error" e)
    /\ written (match m w with
                | (Ok _, world') => (Information "Done" "Export complete", world')
                | (Raise e, world') => (Critical "Error" e, world')
                end).2 = written w).
  { intros m Hm. destruct (Hm w) as [(new & Hw & Hnew) Hv].
    destruct (m w) as [[[]|e] w1]; simpl in *; [by destruct (Hv tt)|].
    split; [by exists e|].
    destruct new as [|x new]; [by rewrite app_nil_r in Hw|]. by apply Forall_inv in Hnew. }
  unfold on_create. rewrite Hsrc, Hdir, bool_decide_false by done.
  destruct (is_png_source src) eqn:Hkind.
  - edestruct export_png_source_unloadable as (m & -> & Hm); [exact Hprofile | by apply Hpng |].
    by apply Hfinish.
  - apply Hfinish, export_svg_source_unloadable; [exact Hprofile | by apply Hsvg].
Qed.

Section Background.
Context `{B : Backend}.

Lemma save_custom_transparent_bg src out_dir name wd ht fmt zoom padding (c c' : QColor) :
  in_tuple (Str.lower fmt) ["jpg"; "jpeg"; "bmp"; "pdf"] = false ->
  save_custom src out_dir name wd ht fmt true zoom padding c
  = save_custom src out_dir name wd ht fmt true zoom padding c'.
Proof.
  intros Hfmt. apply in_tuple_not_opaque in Hfmt as [Hpdf Hopaque].
  unfold save_custom. rewrite Hpdf, Hopaque. reflexivity.
Qed.

Lemma save_custom_png_transparent_bg src out_dir name wd ht fmt zoom padding (c c' : QColor) :
  in_tuple fmt ["jpg"; "jpeg"; "bmp"; "pdf"] = false ->
  save_custom_png src out_dir name wd ht fmt true zoom padding c
  = save_custom_png src out_dir name wd ht fmt true zoom padding c'.
Proof.
  intros Hfmt. apply in_tuple_not_opaque in Hfmt as [Hpdf Hopaque].
  unfold save_custom_png. rewrite Hpdf, Hopaque. reflexivity.
Qed.

Lemma in_tuple_opaque_sub (fmt : string) :
  in_tuple fmt ["jpg"; "jpeg"; "bmp"; "pdf"] = false ->
  in_tuple fmt ["jpg"; "jpeg"; "bmp"] = false.
Proof. intros H. by apply in_tuple_not_opaque in H as [_ H]. Qed.

End Background.

(** X22. With the transparent box checked and a format other than JPG, BMP
    and PDF, the background colour is not used: [on_create] does exactly
    the same for any two background colours, for every profile and both
    kinds of source, and so does the preview. *)
Theorem transparent_export_ignores_background `{B : Backend}
    (src : option string) (dir : option Path) (profile fmt : string) (wd ht zoom padding : Z)
    (c c' : QColor) (w : World) :
  in_tuple (Str.lower fmt) ["jpg"; "jpeg"; "bmp"; "pdf"] = false ->
  on_create (mkForm src dir profile fmt wd ht zoom padding true c) w
  = on_create (mkForm src dir profile fmt wd ht zoom padding true c') w
  /\ update_preview (mkForm src dir profile fmt wd ht zoom padding true c) w
     = update_preview (mkForm src dir profile fmt wd ht zoom padding true c') w.
Proof.
  intros Hfmt. split.
  - unfold on_create. simpl.
    destruct src as [src|]; [|done]. destruct dir as [out_dir|]; [|done].
    assert (Hlow := Hfmt). rewrite <- lower_idem in Hlow.
    pose proof (in_tuple_opaque_sub _ Hlow) as Hsub.
    destruct (is_png_source src).
    + unfold export_png_source.
      repeat (destruct (bool_decide (profile = _));
              [first [ by rewrite (save_custom_png_transparent_bg _ _ _ _ _ _ _ _ c c' Hfmt)
                     | by unfold save_png_set_png; rewrite Hsub
                     | by unfold save_wallpapers_png; rewrite Hsub
                     | reflexivity ] |]).
      reflexivity.
    + unfold export_svg_source.
      repeat (destruct (bool_decide (profile = _));
              [first [ by rewrite (save_custom_transparent_bg _ _ _ _ _ _ _ _ c c' Hlow)
                     | by unfold save_png_set; rewrite Hsub
                     | by unfold save_wallpapers; rewrite Hsub
                     | reflexivity ] |]).
      reflexivity.
  - unfold update_preview, preview_image. simpl.
    destruct src as [src|]; reflexivity.
Qed.

Section PreviewAndExport.
Context `{B : Backend}.

Lemma triple_py_max_list_value {P : Path * Artifact -> Prop} (l : list Z) :
  triple (py_max_list l) (fun base => base = list_max l) P.
Proof.
  apply triple_silent; [by destruct l|].
  intros w a. destruct l; [done|]. by intros [= <-].
Qed.

Lemma pillow_flatten_rgb img bg : mode img = MRGB -> pillow_flatten img bg = img.
Proof.
  intros Hmode. unfold pillow_flatten. rewrite Hmode. simpl.
  by apply convert_same.
Qed.

Lemma preview_image_vector src f w :
  is_png_source src = false ->
  (preview_image src f w).1
  = render_image src
      (if bool_decide (profileCombo f = "Create Windows icon (.ico)")
       then list_max WINDOWS_ICO_SIZES
       else if bool_decide (profileCombo f = "Create macOS icon (.icns)")
       then list_max MAC_ICON_SIZES else widthSpin f)
      (if bool_decide (profileCombo f = "Create Windows icon (.ico)")
       then list_max WINDOWS_ICO_SIZES
       else if bool_decide (profileCombo f = "Create macOS icon (.icns)")
       then list_max MAC_ICON_SIZES else heightSpin f)
      (inject_Z (zoomSlider f) / 100) (paddingSpin f) (transparentBg f) (Some (bgColor f)).
Proof.
  intros Hkind. unfold preview_image. rewrite Hkind.
  repeat case_bool_decide; apply render_svg_to_pillow_image.
Qed.

Lemma preview_image_raster src f w :
  is_png_source src = true ->
  profileCombo f = "Custom export" ->
  (preview_image src f w).1
  = (png_render_to_pillow src (widthSpin f) (heightSpin f) [] empty_world).1.
Proof.
  intros Hkind Hprofile. unfold preview_image. rewrite Hkind, Hprofile. simpl.
  unfold png_render_to_pillow, lift. rewrite !M_bind_run.
  by destruct (image_open src).
Qed.

End PreviewAndExport.

(** X23. What is previewed is what is exported: for the custom profile with
    a format other than JPG, BMP and PDF, and for the Windows icon profile,
    every file that [on_create] writes from a vector source holds exactly
    the image [update_preview] shows for the same form, whether the
    transparent box is checked or not; for a raster source and the custom
    profile the same holds when the box is checked. *)
Theorem preview_shows_exported_image `{B : Backend}
    (f : Form) (src : string) (pil : Image) (w : World) :
  svg_path f = Some src ->
  (update_preview f w).1 = PreviewPixmap pil ->
  (profileCombo f = "Custom export"
   /\ in_tuple (Str.lower (formatCombo f)) ["jpg"; "jpeg"; "bmp"; "pdf"] = false
   /\ (is_png_source src = true -> transparentBg f = true))
  \/ (profileCombo f = "Create Windows icon (.ico)" /\ is_png_source src = false) ->
  Forall (holds_image pil) (drop (length (written w)) (written (on_create f w).2)).
Proof.
  intros Hsrc Hshown Hcase.
  assert (Hnothing : forall w0 : World,
            Forall (holds_image pil) (drop (length (written w0)) (written w0))).
  { intros w0. rewrite drop_all. constructor. }
  assert (Hfinish : forall m : M unit,
    triple m (fun _ => True) (holds_image pil) ->
    Forall (holds_image pil)
      (drop (length (written w))
         (written (match m w with
                   | (Ok _, world') => (Information "Done" "Export complete", world')
                   | (Raise e, world') => (Critical "Error" e, world')
                   end).2))).
  { intros m Hm. pose proof (triple_writes _ _ w Hm) as Hall. unfold writes in Hall.
    by destruct (m w) as [[[]|e] w1]. }
  assert (Hname : bool_decide (src = EmptyString) = false).
  { unfold update_preview in Hshown. rewrite Hsrc in Hshown.
    by destruct (bool_decide (src = EmptyString)). }
  assert (Hpil : (preview_image src f w).1 = Ok pil).
  { unfold update_preview in Hshown. rewrite Hsrc, Hname in Hshown.
    destruct (preview_image src f w) as [[pil0|e] w1]; simpl in *; [|done].
    by injection Hshown as ->. }
  unfold on_create. rewrite Hsrc, Hname.
  destruct (chosen_dir f) as [out_dir|]; [|apply Hnothing].
  destruct Hcase as [(Hprofile & Hfmt & Htransparent) | [Hprofile Hkind]].
  - assert (Hlow := Hfmt). rewrite <- lower_idem in Hlow.
    destruct (in_tuple_not_opaque _ Hfmt) as [Hpdf1 Hsub1].
    destruct (in_tuple_not_opaque _ Hlow) as [Hpdf2 Hsub2].
    destruct (is_png_source src) eqn:Hkind.
    + rewrite preview_image_raster in Hpil by done.
      unfold export_png_source. rewrite Hprofile. simpl.
      apply Hfinish. unfold save_custom_png.
      eapply triple_bind; [apply triple_mkdir|]. intros _ _.
      eapply triple_bind; [apply triple_png_render|]. intros img [Himg Hmode].
      eapply triple_bind; [apply triple_unique_path|]. intros out _.
      rewrite Hpdf1, Hsub1, Htransparent by done. simpl.
      apply triple_save. intros format.
      assert (Heq : Ok img = Ok pil) by (etrans; [symmetry; exact Himg | exact Hpil]).
      injection Heq as ->. by exists format, [].
    + rewrite preview_image_vector in Hpil by done.
      rewrite Hprofile in Hpil. simpl in Hpil.
      unfold export_svg_source. rewrite Hprofile. simpl.
      apply Hfinish. unfold save_custom.
      eapply triple_bind; [apply triple_mkdir|]. intros _ _.
      eapply triple_bind; [apply triple_render|]. intros img [Himg Hmode].
      eapply triple_bind; [apply triple_unique_path|]. intros out _.
      rewrite Hpdf2, Hsub2. simpl.
      assert (Heq : Ok img = Ok pil) by (etrans; [symmetry; exact Himg | exact Hpil]).
      injection Heq as ->.
      destruct (transparentBg f); simpl.
      * apply triple_save. intros format. by exists format, [].
      * rewrite pillow_flatten_rgb by done.
        apply triple_save. intros format. by exists format, [].
  - rewrite preview_image_vector in Hpil by done.
    rewrite Hprofile in Hpil. simpl in Hpil.
    rewrite Hkind. unfold export_svg_source. rewrite Hprofile. simpl.
    apply Hfinish. unfold save_windows_ico.
    eapply triple_bind; [apply triple_mkdir|]. intros _ _.
    eapply triple_bind; [apply triple_py_max_list_value|]. intros base ->.
    eapply triple_bind; [apply triple_render|]. intros img [Himg Hmode].
    eapply triple_bind; [apply triple_unique_path|]. intros out _.
    assert (Heq : Ok img = Ok pil) by (etrans; [symmetry; exact Himg | exact Hpil]).
      injection Heq as ->.
    destruct (transparentBg f); simpl.
    + apply triple_save. intros format. by eexists format, _.
    + rewrite Hmode. simpl.
      apply triple_save. intros format. by eexists format, _.
Qed.

Lemma render_zoom_out_of_range_witness :
  (1 <= 3)%Q
  /\ Cases.render_at 64 48 3 empty_world = Cases.render_at 64 48 1 empty_world.
Proof.
  assert (H : (1 <= 3)%Q) by discriminate.
  split; [exact H|].
  apply (proj1 (@render_zoom_out_of_range Demo.linux "a.svg" 64 48 3 0 true None empty_world) H).
Defined.

Lemma render_degenerate_sizes_witness :
  0 <= 1
  /\ Cases.render_at 0 48 1 empty_world = Cases.render_at 1 48 1 empty_world.
Proof.
  assert (H : 0 <= 1) by lia.
  split; [exact H|].
  apply (proj1 (@render_degenerate_sizes Demo.linux "a.svg" 0 48 1 0 true None empty_world) H).
Defined.

Lemma render_keeps_padding_free_witness :
  exists canvas w',
    Runs.render_half_zoom empty_world = (Ok canvas, w')
    /\ Z.of_N (width canvas) = 64
    /\ Z.of_N (height canvas) = 48
    /\ forall x y,
         0 <= x < 64 -> 0 <= y < 48 ->
         x < 4 \/ 64 - 4 <= x \/ y < 4 \/ 48 - 4 <= y ->
         getpixel canvas x y = (0, 0, 0, 0).
Proof.
  eexists _, _. split; [reflexivity|].
  apply (@render_keeps_padding_free Demo.linux "wide.svg" 64 48 (1 # 2) 4 true None
           empty_world _ _ ltac:(lia) ltac:(reflexivity) eq_refl).
Defined.

Lemma pillow_flatten_blends_over_background_witness :
  mode Cases.sprite = MRGBA
  /\ getpixel (@pillow_flatten Demo.linux Cases.sprite (255, 0, 0, 9)) 0 1
     = Demo.px_blend 0 (255, 0, 0, 255) (0, 20, 30, 255).
Proof.
  split; [reflexivity|].
  apply (proj2 (proj2 (@pillow_flatten_blends_over_background Demo.linux Cases.sprite
                         255 0 0 9 9)) eq_refl 0 1 eq_refl).
Defined.

Lemma render_propagates_rasterizer_failure_witness :
  (Cases.render_broken empty_world).1 = Raise (ValueError "no element found").
Proof.
  unfold Cases.render_broken.
  rewrite (proj1 (@render_propagates_rasterizer_failure Demo.linux "broken.svg" 64 48 1 0
                    true None empty_world) (ValueError "no element found") eq_refl).
  reflexivity.
Defined.

Lemma size_set_export_writes_a_prefix_witness :
  (Cases.two_icons empty_world).1 = Ok tt
  /\ exists k,
       k = 2%nat
       /\ (writes Cases.two_icons empty_world).*1
          = (fun s => ["out"] // "linux" // "a" // sized_name "a" (s, s) (Str.lower "PNG"))
            <$> take k [16; 32].
Proof.
  split; [reflexivity|].
  destruct (proj1 (@size_set_export_writes_a_prefix Demo.linux "a.svg" ["out"] "linux" "a"
                     [16; 32] [] true 1 0 Demo.red_bg "PNG" empty_world))
    as (k & _ & Hpaths & Hall).
  exists k. split; [exact (Hall eq_refl) | exact Hpaths].
Defined.

Lemma on_create_touches_only_what_it_writes_witness :
  exists a,
    fs Runs.linux_set_exported !! Cases.icon_16 = Some (File a)
    /\ (fs (@on_create Demo.linux Runs.custom_png Runs.linux_set_exported).2 !! Cases.icon_16
        = Some (File a)
        \/ (fs (@on_create Demo.linux Runs.custom_png Runs.linux_set_exported).2
              !! Cases.icon_16 = Some (File Truncated)
            /\ exists e,
                 (@on_create Demo.linux Runs.custom_png Runs.linux_set_exported).1
                 = Critical "Error" e)).
Proof.
  eexists. split; [vm_compute; reflexivity|].
  apply (proj2 (proj2 (@on_create_touches_only_what_it_writes Demo.linux Runs.custom_png
                         Runs.linux_set_exported))).
  - vm_compute. reflexivity.
  - intros Hin. apply list_elem_of_In in Hin. vm_compute in Hin.
    destruct Hin as [Heq | []]. discriminate Heq.
Defined.

Lemma unique_path_first_free_witness :
  PurePath.name Cases.icon_16 <> EmptyString
  /\ exists k,
       unique_path Cases.icon_16 Runs.linux_set_exported
       = (Ok (candidate Cases.icon_16 k), Runs.linux_set_exported)
       /\ fs Runs.linux_set_exported !! candidate Cases.icon_16 k = None
       /\ (forall j, (j < k)%nat ->
             is_Some (fs Runs.linux_set_exported !! candidate Cases.icon_16 j))
       /\ (k = 0%nat <-> fs Runs.linux_set_exported !! Cases.icon_16 = None)
       /\ removelast (candidate Cases.icon_16 k) = removelast Cases.icon_16
       /\ (k <= size (fs Runs.linux_set_exported))%nat.
Proof.
  assert (Hname : PurePath.name Cases.icon_16 <> EmptyString) by discriminate.
  split; [exact Hname|].
  apply (proj1 (proj2 (unique_path_first_free Cases.icon_16 Runs.linux_set_exported)) Hname).
Defined.

(** The Linux icon set exported a second time, over the files of the first
    export, with an encoder that refuses the second size: the first file
    has been written again, the export reports the error, and the file of
    the second size, which held an image, is left empty. *)
Example refused_save_empties_existing_file :
  (exists format img sizes,
     fs Runs.linux_set_exported !! Cases.icon_22 = Some (File (Encoded format img sizes)))
  /\ (@on_create Cases.small_only Runs.linux_set Runs.linux_set_exported).1
     = Critical "Error" (OSError "cannot write image")
  /\ (written (@on_create Cases.small_only Runs.linux_set Runs.linux_set_exported).2).*1
     = (written Runs.linux_set_exported).*1 ++ [Cases.icon_16]
  /\ fs (@on_create Cases.small_only Runs.linux_set Runs.linux_set_exported).2 !! Cases.icon_22
     = Some (File Truncated).
Proof.
  split; [|split; [|split]].
  - do 3 eexists. vm_compute. reflexivity.
  - vm_compute. reflexivity.
  - vm_compute. reflexivity.
  - vm_compute. reflexivity.
Qed.

Lemma transparent_exports_keep_alpha_witness :
  in_tuple (Str.lower "PNG") ["jpg"; "jpeg"; "bmp"; "pdf"] = false
  /\ Forall (unflattened (@svg_composite Demo.linux "a.svg" 1 0 true Demo.red_bg)
               [(16, 16); (32, 32)])
       (writes Cases.two_icons empty_world).
Proof.
  split; [reflexivity|].
  apply (proj1 (proj2 (@transparent_exports_keep_alpha Demo.linux "a.svg" ["out"] "linux" "a"
                         16 16 [16; 32] [] "PNG" 1 0 Demo.red_bg empty_world eq_refl))).
Defined.

Lemma icns_failure_off_macos_writes_nothing_witness :
  (Cases.icns_off_macos empty_world).1 <> Ok tt
  /\ writes Cases.icns_off_macos empty_world = [].
Proof.
  apply (@icns_failure_off_macos_writes_nothing Cases.linux_no_icns "a.svg" ["out"; "macos"]
           MAC_ICON_SIZES true 1 0 Demo.red_bg empty_world).
  - discriminate.
  - intros img. reflexivity.
Defined.

Lemma icns_fallback_failure_leaves_frames_witness :
  (Cases.icns_iconutil_fails empty_world).1 <> Ok tt
  /\ Forall (fun e =>
               exists s img format,
                 s ∈ [16; 32]
                 /\ e = (["out"; "macos"] // "icon.iconset"
                         // ("icon_" +:+ pretty s +:+ "x" +:+ pretty s +:+ ".png"),
                         Encoded format img []))
       (writes Cases.icns_iconutil_fails empty_world).
Proof.
  apply (@icns_fallback_failure_leaves_frames Cases.darwin_iconutil_fails "a.svg"
           ["out"; "macos"] [16; 32] true 1 0 Demo.red_bg empty_world).
  - reflexivity.
  - intros img. reflexivity.
  - intros frames. discriminate.
Defined.

Lemma offered_opaque_formats_write_rgb_witness :
  Forall holds_rgb
    (drop (length (written empty_world))
       (written (@on_create Demo.linux Cases.custom_jpg_form empty_world).2)).
Proof.
  apply (@offered_opaque_formats_write_rgb Demo.linux Cases.custom_jpg_form empty_world).
  - apply list_elem_of_further, list_elem_of_here.
  - apply list_elem_of_here.
Defined.


Lemma render_keeps_fitting_content_witness :
  exists raw,
    Demo.rasterize "a.svg" 28 20 (Some (255, 0, 0)) = Ok raw
    /\ Cases.render_small empty_world
       = (Ok (@composite_canvas Demo.linux false Demo.red_bg 64 48
                (@convert Demo.linux MRGB raw)),
          after_raster empty_world
            (@raster_request "a.svg" 64 48 (1 # 2) 4 false (Some Demo.red_bg))).
Proof.
  eexists. split; [reflexivity|].
  apply (@render_keeps_fitting_content Demo.linux "a.svg" 64 48 (1 # 2) 4 false
           (Some Demo.red_bg) _ empty_world eq_refl).
  right. split; reflexivity.
Defined.

Lemma raster_source_never_rasterized_witness :
  is_png_source "a.png" = true
  /\ raster_log (@on_create Demo.darwin_no_icns Runs.icns_of_png empty_world).2 = [].
Proof.
  split; [reflexivity|].
  apply (proj1 (@raster_source_never_rasterized Demo.darwin_no_icns Runs.icns_of_png "a.png"
                  empty_world eq_refl eq_refl)).
Defined.

Lemma unloadable_source_writes_nothing_witness :
  (exists e, (@on_create Demo.linux Cases.broken_form empty_world).1 = Critical "Error" e)
  /\ written (@on_create Demo.linux Cases.broken_form empty_world).2 = [].
Proof.
  apply (@unloadable_source_writes_nothing Demo.linux Cases.broken_form "broken.svg" ["out"]
           empty_world eq_refl).
  - discriminate.
  - reflexivity.
  - do 3 apply list_elem_of_further. apply list_elem_of_here.
  - intros _ rw rh bgc. eexists. reflexivity.
  - intros H. discriminate H.
Defined.

Lemma transparent_export_ignores_background_witness :
  @on_create Demo.linux Runs.custom_png empty_world
  = @on_create Demo.linux
      (mkForm (Some "a.svg") (Some ["out"]) "Custom export" "PNG" 64 64 100 0 true QColor_white)
      empty_world.
Proof.
  apply (proj1 (@transparent_export_ignores_background Demo.linux (Some "a.svg")
                  (Some ["out"]) "Custom export" "PNG" 64 64 100 0 Demo.red_bg QColor_white
                  empty_world eq_refl)).
Defined.

Lemma preview_shows_exported_image_witness :
  exists pil,
    (@update_preview Demo.linux Cases.custom_of_png empty_world).1 = PreviewPixmap pil
    /\ Forall (holds_image pil)
         (drop (length (written empty_world))
            (written (@on_create Demo.linux Cases.custom_of_png empty_world).2)).
Proof.
  eexists. split; [reflexivity|].
  apply (@preview_shows_exported_image Demo.linux Cases.custom_of_png "a.png" _ empty_world
           eq_refl eq_refl).
  left. split; [reflexivity|]. split; [reflexivity|]. intros _. reflexivity.
Defined.
